(** * ai-loot: the item generation and deduplication pipeline

    A shallow embedding of [src/loot-generator.ts], [src/types.ts] and
    [src/database.ts] (all three are in [src/src/loot-generator.ts]), and of
    the rarity bar of [src/components/LootDisplay.tsx].

    Conventions of the embedding.
    - A JavaScript number is a rational ([Q]), and [Math.round] and
      [Math.floor] are exact.  The arithmetic of the stat tables is exact
      too; the rarity roll, whose integer part the rounding of a sum
      decides, rounds each operation to the nearest double ([binary64]).
    - A JavaScript string is a [string] of bytes, its UTF-8 encoding.
    - A JavaScript value (what [JSON.parse] returns, what object literals
      build) is a [value]; an object keeps its properties in insertion order.
    - [Math.random], the text-generation service and the collation behind
      [localeCompare] are parameters of the definitions that use them. *)

Set Warnings "-register-all".
From Stdlib Require Import ZArith QArith Qabs Qround String Ascii List Bool Lia.
From Stdlib Require Import Permutation Sorted OrdersEx Lqa.
Import ListNotations.

Local Open Scope string_scope.
Local Open Scope Z_scope.

(* ================================================================== *)
(** ** JavaScript values *)

Inductive value : Type :=
| VUndefined
| VNull
| VBool (b : bool)
| VNum (q : Q)
| VStr (s : string)
| VArr (l : list value)
| VObj (props : list (string * value)).

(** Own property lookup in a property list: [None] when the key is absent. *)
Fixpoint lookup (k : string) (props : list (string * value)) : option value :=
  match props with
  | [] => None
  | (k', v) :: rest => if String.eqb k k' then Some v else lookup k rest
  end.

Definition has_key (k : string) (props : list (string * value)) : bool :=
  match lookup k props with Some _ => true | None => false end.

(** [o[k] = v]: replaces the value of an existing property in place, appends
    a new property otherwise. *)
Fixpoint set_prop (k : string) (v : value) (props : list (string * value))
  : list (string * value) :=
  match props with
  | [] => [(k, v)]
  | (k', v') :: rest =>
      if String.eqb k k' then (k', v) :: rest else (k', v') :: set_prop k v rest
  end.

(** [Object.assign(target, src)] on property lists, as object spread does. *)
Definition assign (target src : list (string * value)) : list (string * value) :=
  fold_left (fun acc kv => set_prop (fst kv) (snd kv) acc) src target.

(** [v.k] for a value that is neither [null] nor [undefined].  The program
    reads only the property names of items and stats, never an index or
    [length], so a primitive or an array has none of them. *)
Definition get (v : value) (k : string) : value :=
  match v with
  | VObj props => match lookup k props with Some x => x | None => VUndefined end
  | _ => VUndefined
  end.

(** Truthiness, as [||] and [if] test it.  *)
Definition truthy (v : value) : bool :=
  match v with
  | VUndefined | VNull => false
  | VBool b => b
  | VNum q => negb (Qeq_bool q 0)
  | VStr s => negb (String.eqb s "")
  | VArr _ | VObj _ => true
  end.

(** [a || b] on already evaluated operands. *)
Definition js_or (a b : value) : value := if truthy a then a else b.

(** An optional string property of a typed record as a value. *)
Definition opt_str (o : option string) : value :=
  match o with Some s => VStr s | None => VUndefined end.

(* ------------------------------------------------------------------ *)
(** *** Decimal digits *)

Definition digit_char (d : Z) : ascii := ascii_of_nat (48 + Z.to_nat d).

Fixpoint digits_fuel (fuel : nat) (n : Z) (acc : string) : string :=
  match fuel with
  | O => acc
  | S fuel' =>
      let acc' := String (digit_char (n mod 10)) acc in
      if n / 10 =? 0 then acc' else digits_fuel fuel' (n / 10) acc'
  end.

(** The decimal digits of a natural number [n >= 0]. *)
Definition nat_digits (n : Z) : string :=
  digits_fuel (S (Z.to_nat (Z.log2 n))) n "".

(** The own enumerable properties that [{...v}] copies. *)
Fixpoint indexed (i : Z) (l : list value) : list (string * value) :=
  match l with
  | [] => []
  | x :: rest => (nat_digits i, x) :: indexed (i + 1) rest
  end.

Fixpoint chars (s : string) : list value :=
  match s with
  | EmptyString => []
  | String c rest => VStr (String c EmptyString) :: chars rest
  end.

Definition own_props (v : value) : list (string * value) :=
  match v with
  | VObj props => props
  | VArr l => indexed 0 l
  | VStr s => indexed 0 (chars s)
  | _ => []
  end.

(* ================================================================== *)
(** ** types.ts: enumerations *)

Inductive LootTier := BRONZE | SILVER | GOLD | PLATINUM | LEGENDARY | CELESTIAL.

Definition tier_name (t : LootTier) : string :=
  match t with
  | BRONZE => "Bronze" | SILVER => "Silver" | GOLD => "Gold"
  | PLATINUM => "Platinum" | LEGENDARY => "Legendary" | CELESTIAL => "Celestial"
  end.

Definition all_tiers : list LootTier :=
  [BRONZE; SILVER; GOLD; PLATINUM; LEGENDARY; CELESTIAL].

Inductive ItemType :=
  WEAPON | ARMOR | ACCESSORY | CONSUMABLE | MATERIAL | RUNE | ARTIFACT.

Definition type_name (t : ItemType) : string :=
  match t with
  | WEAPON => "Weapon" | ARMOR => "Armor" | ACCESSORY => "Accessory"
  | CONSUMABLE => "Consumable" | MATERIAL => "Material"
  | RUNE => "Rune" | ARTIFACT => "Artifact"
  end.

Definition all_types : list ItemType :=
  [WEAPON; ARMOR; ACCESSORY; CONSUMABLE; MATERIAL; RUNE; ARTIFACT].

(** The member of the enumeration a string names, if any. *)
Definition ItemType_of_string (s : string) : option ItemType :=
  find (fun t => String.eqb s (type_name t)) all_types.

(** [Object.values] of the five subtype enumerations. *)
Definition WeaponSubType : list string :=
  ["Sword"; "Axe"; "Mace"; "Dagger"; "Bow"; "Crossbow"; "Staff"; "Wand";
   "Spear"; "Hammer"; "Shield"].
Definition ArmorSubType : list string :=
  ["Helmet"; "Chestpiece"; "Leggings"; "Boots"; "Gloves"; "Cloak"; "Greaves";
   "Pauldrons"; "Bracers"].
Definition AccessorySubType : list string :=
  ["Ring"; "Amulet"; "Earrings"; "Brooch"; "Pendant"].
Definition ConsumableSubType : list string :=
  ["Potion"; "Scroll"; "Food"; "Elixir"; "Tome"].
Definition MaterialSubType : list string :=
  ["Ore"; "Gem"; "Essence"; "Crystal"; "Herb"].

(* ================================================================== *)
(** ** loot-generator.ts: the stat and rarity range tables *)

Local Open Scope Q_scope.

Record Range := range { min : Q; max : Q }.

Notation "a -- b" := (range a b) (at level 30, no associativity).

(** A table of named ranges, in the order the source lists them. *)
Definition RangeTable := list (string * Range).

(** [ranges.k] for a key the table has. *)
Fixpoint range_of (k : string) (t : RangeTable) : Range :=
  match t with
  | [] => 0 -- 0
  | (k', r) :: rest => if String.eqb k k' then r else range_of k rest
  end.

Definition getTierMultiplier (tier : LootTier) : Q :=
  match tier with
  | BRONZE => 1 | SILVER => 1.5 | GOLD => 2
  | PLATINUM => 3 | LEGENDARY => 5 | CELESTIAL => 10
  end.

Definition getWeaponStatRanges (tier : LootTier) : RangeTable :=
  match tier with
  | BRONZE =>
      [("damage", 8 -- 15); ("attackSpeed", (-10) -- 10);
       ("criticalChance", 2 -- 6); ("criticalDamage", 150 -- 180);
       ("range", 1 -- 3); ("accuracy", (-5) -- 5); ("durability", 50 -- 100);
       ("weight", 1.0 -- 4.0); ("value", 50 -- 150)]
  | SILVER =>
      [("damage", 12 -- 22); ("attackSpeed", (-5) -- 20);
       ("criticalChance", 4 -- 10); ("criticalDamage", 160 -- 200);
       ("range", 1 -- 4); ("accuracy", (-3) -- 8); ("durability", 80 -- 140);
       ("weight", 0.8 -- 4.5); ("value", 100 -- 300)]
  | GOLD =>
      [("damage", 18 -- 35); ("attackSpeed", 0 -- 30);
       ("criticalChance", 6 -- 15); ("criticalDamage", 180 -- 230);
       ("range", 1 -- 5); ("accuracy", 0 -- 12); ("durability", 120 -- 200);
       ("weight", 0.6 -- 5.0); ("value", 200 -- 600)]
  | PLATINUM =>
      [("damage", 30 -- 55); ("attackSpeed", 5 -- 45);
       ("criticalChance", 10 -- 22); ("criticalDamage", 200 -- 280);
       ("range", 2 -- 7); ("accuracy", 5 -- 18); ("durability", 180 -- 280);
       ("weight", 0.4 -- 6.0); ("value", 400 -- 1200)]
  | LEGENDARY =>
      [("damage", 45 -- 85); ("attackSpeed", 15 -- 65);
       ("criticalChance", 18 -- 35); ("criticalDamage", 250 -- 350);
       ("range", 3 -- 10); ("accuracy", 10 -- 25); ("durability", 250 -- 400);
       ("weight", 0.3 -- 7.0); ("value", 800 -- 2500)]
  | CELESTIAL =>
      [("damage", 75 -- 150); ("attackSpeed", 30 -- 100);
       ("criticalChance", 25 -- 50); ("criticalDamage", 300 -- 500);
       ("range", 5 -- 15); ("accuracy", 20 -- 40); ("durability", 350 -- 600);
       ("weight", 0.2 -- 8.0); ("value", 1500 -- 5000)]
  end.

Definition getArmorStatRanges (tier : LootTier) : RangeTable :=
  match tier with
  | BRONZE =>
      [("defense", 3 -- 8); ("magicResistance", 2 -- 8);
       ("elementalResistance", 1 -- 5); ("durability", 60 -- 120);
       ("weight", 2.0 -- 15.0); ("value", 40 -- 120)]
  | SILVER =>
      [("defense", 6 -- 15); ("magicResistance", 5 -- 12);
       ("elementalResistance", 3 -- 8); ("durability", 100 -- 180);
       ("weight", 1.8 -- 16.0); ("value", 80 -- 250)]
  | GOLD =>
      [("defense", 12 -- 25); ("magicResistance", 8 -- 18);
       ("elementalResistance", 5 -- 12); ("durability", 150 -- 250);
       ("weight", 1.5 -- 18.0); ("value", 150 -- 500)]
  | PLATINUM =>
      [("defense", 20 -- 40); ("magicResistance", 15 -- 28);
       ("elementalResistance", 8 -- 18); ("durability", 220 -- 350);
       ("weight", 1.2 -- 20.0); ("value", 300 -- 1000)]
  | LEGENDARY =>
      [("defense", 35 -- 65); ("magicResistance", 25 -- 45);
       ("elementalResistance", 15 -- 30); ("durability", 300 -- 500);
       ("weight", 1.0 -- 25.0); ("value", 600 -- 2000)]
  | CELESTIAL =>
      [("defense", 55 -- 120); ("magicResistance", 40 -- 80);
       ("elementalResistance", 25 -- 50); ("durability", 450 -- 800);
       ("weight", 0.8 -- 30.0); ("value", 1200 -- 4000)]
  end.

Definition getAccessoryStatRanges (tier : LootTier) : RangeTable :=
  match tier with
  | BRONZE =>
      [("health", 10 -- 30); ("mana", 8 -- 25); ("stamina", 5 -- 15);
       ("attributes", 1 -- 2); ("luck", 1 -- 3); ("durability", 30 -- 80);
       ("weight", 0.1 -- 1.0); ("value", 80 -- 200)]
  | SILVER =>
      [("health", 25 -- 50); ("mana", 20 -- 40); ("stamina", 12 -- 25);
       ("attributes", 1 -- 3); ("luck", 2 -- 5); ("durability", 60 -- 120);
       ("weight", 0.1 -- 1.2); ("value", 150 -- 400)]
  | GOLD =>
      [("health", 40 -- 80); ("mana", 35 -- 65); ("stamina", 20 -- 40);
       ("attributes", 2 -- 4); ("luck", 3 -- 7); ("durability", 100 -- 180);
       ("weight", 0.1 -- 1.5); ("value", 300 -- 800)]
  | PLATINUM =>
      [("health", 70 -- 130); ("mana", 60 -- 100); ("stamina", 35 -- 65);
       ("attributes", 3 -- 6); ("luck", 5 -- 10); ("durability", 150 -- 250);
       ("weight", 0.1 -- 2.0); ("value", 600 -- 1500)]
  | LEGENDARY =>
      [("health", 120 -- 220); ("mana", 100 -- 180); ("stamina", 60 -- 110);
       ("attributes", 5 -- 10); ("luck", 8 -- 15); ("durability", 220 -- 350);
       ("weight", 0.1 -- 2.5); ("value", 1200 -- 3000)]
  | CELESTIAL =>
      [("health", 200 -- 400); ("mana", 180 -- 350); ("stamina", 100 -- 200);
       ("attributes", 8 -- 20); ("luck", 12 -- 25); ("durability", 300 -- 500);
       ("weight", 0.1 -- 3.0); ("value", 2500 -- 6000)]
  end.

Definition getConsumableStatRanges (tier : LootTier) : RangeTable :=
  match tier with
  | BRONZE =>
      [("healingPower", 25 -- 60); ("manaPower", 15 -- 40);
       ("duration", 30 -- 120); ("stackSize", 10 -- 50); ("value", 5 -- 25)]
  | SILVER =>
      [("healingPower", 50 -- 100); ("manaPower", 35 -- 75);
       ("duration", 60 -- 180); ("stackSize", 15 -- 75); ("value", 15 -- 50)]
  | GOLD =>
      [("healingPower", 85 -- 160); ("manaPower", 65 -- 120);
       ("duration", 120 -- 300); ("stackSize", 20 -- 99); ("value", 30 -- 100)]
  | PLATINUM =>
      [("healingPower", 140 -- 250); ("manaPower", 110 -- 200);
       ("duration", 180 -- 450); ("stackSize", 25 -- 99); ("value", 60 -- 200)]
  | LEGENDARY =>
      [("healingPower", 220 -- 400); ("manaPower", 180 -- 350);
       ("duration", 300 -- 600); ("stackSize", 30 -- 99); ("value", 120 -- 400)]
  | CELESTIAL =>
      [("healingPower", 350 -- 750); ("manaPower", 300 -- 600);
       ("duration", 450 -- 900); ("stackSize", 50 -- 99); ("value", 250 -- 800)]
  end.

Definition getMaterialStatRanges (tier : LootTier) : RangeTable :=
  match tier with
  | BRONZE =>
      [("purity", 60 -- 75); ("stackSize", 50 -- 200);
       ("craftingBonus", 2 -- 8); ("value", 2 -- 10)]
  | SILVER =>
      [("purity", 70 -- 82); ("stackSize", 100 -- 300);
       ("craftingBonus", 5 -- 12); ("value", 5 -- 20)]
  | GOLD =>
      [("purity", 78 -- 88); ("stackSize", 150 -- 500);
       ("craftingBonus", 8 -- 18); ("value", 10 -- 40)]
  | PLATINUM =>
      [("purity", 85 -- 93); ("stackSize", 200 -- 750);
       ("craftingBonus", 12 -- 25); ("value", 20 -- 80)]
  | LEGENDARY =>
      [("purity", 90 -- 97); ("stackSize", 300 -- 999);
       ("craftingBonus", 20 -- 35); ("value", 40 -- 150)]
  | CELESTIAL =>
      [("purity", 95 -- 99); ("stackSize", 500 -- 999);
       ("craftingBonus", 30 -- 50); ("value", 80 -- 300)]
  end.
Definition getRarityRange (tier : LootTier) : Range :=
  match tier with
  | BRONZE => 5 -- 25
  | SILVER => 20 -- 40
  | GOLD => 35 -- 60
  | PLATINUM => 55 -- 75
  | LEGENDARY => 70 -- 90
  | CELESTIAL => 85 -- 100
  end.

(* ================================================================== *)
(** ** types.ts: the zod schemas

    A schema is data, and [parse] is what zod's [schema.parse] does with it:
    [None] stands for a thrown [ZodError], [Some v'] for the parsed output.
    An object schema strips the keys its shape does not name and lists the
    others in the order of its shape; a union returns the output of its
    first option that accepts the input. *)

Inductive schema : Type :=
| ZString
| ZNumber (lo hi : option Q)
| ZNativeEnum (members : list string)
| ZOptional (s : schema)
| ZArray (s : schema)
| ZObject (shape : list (string * schema))
| ZUnion (options : list schema).

Definition within (lo hi : option Q) (q : Q) : bool :=
  match lo with Some a => Qle_bool a q | None => true end
  && match hi with Some b => Qle_bool q b | None => true end.

Definition defined (v : value) : bool :=
  match v with VUndefined => false | _ => true end.

Fixpoint sequence {A : Type} (l : list (option A)) : option (list A) :=
  match l with
  | [] => Some []
  | None :: _ => None
  | Some x :: rest =>
      match sequence rest with Some xs => Some (x :: xs) | None => None end
  end.

Fixpoint parse (s : schema) (v : value) {struct s} : option value :=
  match s with
  | ZString => match v with VStr _ => Some v | _ => None end
  | ZNumber lo hi =>
      match v with
      | VNum q => if within lo hi q then Some v else None
      | _ => None
      end
  | ZNativeEnum members =>
      match v with
      | VStr x => if existsb (String.eqb x) members then Some v else None
      | _ => None
      end
  | ZOptional s' => match v with VUndefined => Some VUndefined | _ => parse s' v end
  | ZArray s' =>
      match v with
      | VArr l => option_map VArr (sequence (map (parse s') l))
      | _ => None
      end
  | ZObject shape =>
      match v with
      | VObj props =>
          option_map VObj
            ((fix fields (sh : list (string * schema)) :=
                match sh with
                | [] => Some []
                | (k, s') :: rest =>
                    match parse s' (get v k), fields rest with
                    | Some x, Some out =>
                        Some (if has_key k props || defined x
                              then (k, x) :: out else out)
                    | _, _ => None
                    end
                end) shape)
      | _ => None
      end
  | ZUnion options =>
      (fix first (os : list schema) :=
         match os with
         | [] => None
         | s' :: rest =>
             match parse s' v with Some x => Some x | None => first rest end
         end) options
  end.

(** [base.extend(augmentation)]: the augmentation's keys override or follow
    the base's. *)
Fixpoint set_field (k : string) (s : schema) (shape : list (string * schema))
  : list (string * schema) :=
  match shape with
  | [] => [(k, s)]
  | (k', s') :: rest =>
      if String.eqb k k' then (k', s) :: rest else (k', s') :: set_field k s rest
  end.

Definition extend (base augmentation : list (string * schema))
  : list (string * schema) :=
  fold_left (fun acc ks => set_field (fst ks) (snd ks) acc) augmentation base.

Definition z_number : schema := ZNumber None None.
Definition z_number_optional : schema := ZOptional z_number.

Definition BaseStatsShape : list (string * schema) :=
  [("durability", z_number_optional); ("weight", z_number_optional);
   ("value", z_number_optional)].

Definition WeaponStatsSchema : schema :=
  ZObject (extend BaseStatsShape
    [("damage", z_number); ("attackSpeed", z_number_optional);
     ("criticalChance", z_number_optional);
     ("criticalDamage", z_number_optional); ("range", z_number_optional);
     ("accuracy", z_number_optional)]).

Definition ArmorStatsSchema : schema :=
  ZObject (extend BaseStatsShape
    [("defense", z_number); ("magicResistance", z_number_optional);
     ("elementalResistance",
      ZOptional (ZObject
        [("fire", z_number_optional); ("ice", z_number_optional);
         ("lightning", z_number_optional); ("poison", z_number_optional);
         ("dark", z_number_optional); ("light", z_number_optional)]))]).

Definition AccessoryStatsSchema : schema :=
  ZObject (extend BaseStatsShape
    [("health", z_number_optional); ("mana", z_number_optional);
     ("stamina", z_number_optional); ("strength", z_number_optional);
     ("dexterity", z_number_optional); ("intelligence", z_number_optional);
     ("wisdom", z_number_optional); ("constitution", z_number_optional);
     ("luck", z_number_optional)]).

Definition ConsumableStatsSchema : schema :=
  ZObject (extend BaseStatsShape
    [("healingPower", z_number_optional); ("manaPower", z_number_optional);
     ("duration", z_number_optional); ("stackSize", z_number_optional)]).

Definition MaterialStatsSchema : schema :=
  ZObject (extend BaseStatsShape
    [("purity", z_number_optional); ("stackSize", z_number_optional);
     ("craftingBonus", z_number_optional)]).

Definition ItemStatsSchema : schema :=
  ZUnion [WeaponStatsSchema; ArmorStatsSchema; AccessoryStatsSchema;
          ConsumableStatsSchema; MaterialStatsSchema].

Definition MagicalPropertySchema : schema :=
  ZObject [("name", ZString); ("description", ZString);
           ("magnitude", z_number_optional)].

Definition LootItemSchema : schema :=
  ZObject
    [("name", ZString);
     ("type", ZNativeEnum (map type_name all_types));
     ("subType",
      ZUnion [ZNativeEnum WeaponSubType; ZNativeEnum ArmorSubType;
              ZNativeEnum AccessorySubType; ZNativeEnum ConsumableSubType;
              ZNativeEnum MaterialSubType; ZString]);
     ("tier", ZNativeEnum (map tier_name all_tiers));
     ("description", ZString);
     ("stats", ItemStatsSchema);
     ("magicalProperties", ZOptional (ZArray MagicalPropertySchema));
     ("lore", ZOptional ZString);
     ("setName", ZOptional ZString);
     ("rarity", ZNumber (Some 0) (Some 100))].

(* ================================================================== *)
(** ** Effects

    The generator draws random numbers, calls the text-generation service,
    throws and catches, and logs to the console.  A computation threads a
    [World] that counts the draws and records the calls and the log; it
    either returns or throws, and the world it leaves is kept in both
    cases. *)

Inductive Failure := TypeError | ServiceError | SyntaxError | ZodError.

Record GenerationOptions := {
  tier : LootTier;
  count : Z;
  itemType : option ItemType;
  subType : option string;
  setName : option string;
  model : option string
}.

(** What [generatePrompt] interpolates into its text: the prompt is a
    function of this data (the stat ranges it quotes are those of
    [prompt_itemType] and [prompt_tier]). *)
Record Prompt := {
  prompt_tier : LootTier;
  prompt_multiplier : Q;
  prompt_subType : value;
  prompt_itemType : option ItemType;
  prompt_setName : option string
}.

Record ChatRequest := { chat_model : string; chat_prompt : Prompt }.

(** The service rejects the call, or replies with a text; the text is
    represented by what [JSON.parse] makes of it, [None] when it throws. *)
Inductive Reply := Rejected | Content (parsed : option value).

Record World := {
  draws : nat;                      (* calls of Math.random so far *)
  chats : list ChatRequest;         (* calls of ollama.chat, oldest first *)
  orders : list GenerationOptions;  (* calls of generateLoot, oldest first *)
  errors : list (Z * Failure)       (* console.error lines, oldest first *)
}.

Definition initial : World :=
  {| draws := 0; chats := []; orders := []; errors := [] |}.

Inductive Outcome (A : Type) : Type :=
| Returned (a : A)
| Thrown (e : Failure).
Arguments Returned {A} a.
Arguments Thrown {A} e.

Definition Eff (A : Type) : Type := World -> Outcome A * World.

Definition ret {A : Type} (a : A) : Eff A := fun w => (Returned a, w).

Definition throw {A : Type} (e : Failure) : Eff A := fun w => (Thrown e, w).

Definition bind {A B : Type} (m : Eff A) (k : A -> Eff B) : Eff B :=
  fun w =>
    match m w with
    | (Returned a, w') => k a w'
    | (Thrown e, w') => (Thrown e, w')
    end.

Notation "x <- m ;; k" := (bind m (fun x => k))
  (at level 61, m at next level, right associativity).

(** A string option of the request is taken when it is truthy: present and
    not empty. *)
Definition given (o : option string) : option string :=
  match o with
  | Some s => if String.eqb s "" then None else Some s
  | None => None
  end.

(** [v.k], which throws when [v] is [null] or [undefined]. *)
Definition prop (v : value) (k : string) : Eff value :=
  match v with
  | VUndefined | VNull => throw TypeError
  | _ => ret (get v k)
  end.

Definition Math_round (x : Q) : Q := inject_Z (Qfloor (x + (1 # 2))).
Definition Math_floor (x : Q) : Q := inject_Z (Qfloor x).

(** The rounding of IEEE 754 double precision (binary64), to the nearest
    double with ties to the even significand.  [s] is the number in units
    of the least subnormal, [2 ^ -1074], and [2 ^ c] the spacing of the
    doubles of its magnitude in these units: a significand has 53 bits.
    Overflow to infinity is left out: no number of the generator comes
    near it. *)
Definition round_half_even (q : Q) : Z :=
  let f := Qfloor q in
  match Qcompare (q - inject_Z f) (1 # 2) with
  | Lt => f
  | Eq => if Z.even f then f else f + 1
  | Gt => f + 1
  end.

Definition binary64 (q : Q) : Q :=
  let s := (q * inject_Z (2 ^ 1074))%Q in
  let c := Z.max (Z.log2 (Qfloor (Qabs s)) - 52) 0 in
  (inject_Z (round_half_even (s / inject_Z (2 ^ c)) * 2 ^ c)
   / inject_Z (2 ^ 1074))%Q.

(** Evaluates the property initialisers of an object literal in order. *)
Fixpoint literal (fields : list (string * Eff value))
  : Eff (list (string * value)) :=
  match fields with
  | [] => ret []
  | (k, m) :: rest =>
      v <- m ;; props <- literal rest ;; ret ((k, v) :: props)
  end.

Section Generator.

(** [random n] is the number the [n]-th call of [Math.random] returns;
    [chat n request] is the reply to the [n]-th call of [ollama.chat]. *)
Variable random : nat -> Q.
Variable chat : nat -> ChatRequest -> Reply.
Variable defaultModel : string.

Definition Math_random : Eff Q :=
  fun w =>
    (Returned (random (draws w)),
     {| draws := S (draws w); chats := chats w; orders := orders w;
        errors := errors w |}).

Definition ollama_chat (request : ChatRequest) : Eff (option value) :=
  fun w =>
    let w' := {| draws := draws w; chats := chats w ++ [request];
                 orders := orders w; errors := errors w |} in
    match chat (length (chats w)) request with
    | Rejected => (Thrown ServiceError, w')
    | Content parsed => (Returned parsed, w')
    end.

Definition JSON_parse (parsed : option value) : Eff value :=
  match parsed with Some v => ret v | None => throw SyntaxError end.

Definition console_error (i : Z) (e : Failure) (w : World) : World :=
  {| draws := draws w; chats := chats w; orders := orders w;
     errors := errors w ++ [(i, e)] |}.

Definition randomInRange (r : Range) : Eff Q :=
  x <- Math_random ;;
  ret (Math_round ((x * (max r - min r) + min r) * 100) / 100).

(** [Math.round(this.randomInRange(ranges.k))] and
    [this.randomInRange(ranges.k)] as property initialisers. *)
Definition rounded (r : Range) : Eff value :=
  x <- randomInRange r ;; ret (VNum (Math_round x)).
Definition unrounded (r : Range) : Eff value :=
  x <- randomInRange r ;; ret (VNum x).

Definition switch_type (itemType : value) : option ItemType :=
  match itemType with VStr s => ItemType_of_string s | _ => None end.

Definition generateStatsForType (itemType : value) (tier : LootTier)
  : Eff (list (string * value)) :=
  match switch_type itemType with
  | Some WEAPON =>
      let weaponRanges := getWeaponStatRanges tier in
      literal
        [("damage", rounded (range_of "damage" weaponRanges));
         ("attackSpeed", rounded (range_of "attackSpeed" weaponRanges));
         ("criticalChance", rounded (range_of "criticalChance" weaponRanges));
         ("criticalDamage", rounded (range_of "criticalDamage" weaponRanges));
         ("range", unrounded (range_of "range" weaponRanges));
         ("accuracy", rounded (range_of "accuracy" weaponRanges));
         ("durability", rounded (range_of "durability" weaponRanges));
         ("weight", unrounded (range_of "weight" weaponRanges));
         ("value", rounded (range_of "value" weaponRanges))]
  | Some ARMOR =>
      let armorRanges := getArmorStatRanges tier in
      literal
        [("defense", rounded (range_of "defense" armorRanges));
         ("magicResistance", rounded (range_of "magicResistance" armorRanges));
         ("fireResistance",
          rounded (range_of "elementalResistance" armorRanges));
         ("iceResistance",
          rounded (range_of "elementalResistance" armorRanges));
         ("lightningResistance",
          rounded (range_of "elementalResistance" armorRanges));
         ("poisonResistance",
          rounded (range_of "elementalResistance" armorRanges));
         ("durability", rounded (range_of "durability" armorRanges));
         ("weight", unrounded (range_of "weight" armorRanges));
         ("value", rounded (range_of "value" armorRanges))]
  | Some ACCESSORY =>
      let accessoryRanges := getAccessoryStatRanges tier in
      literal
        [("health", rounded (range_of "health" accessoryRanges));
         ("mana", rounded (range_of "mana" accessoryRanges));
         ("stamina", rounded (range_of "stamina" accessoryRanges));
         ("strength", rounded (range_of "attributes" accessoryRanges));
         ("dexterity", rounded (range_of "attributes" accessoryRanges));
         ("intelligence", rounded (range_of "attributes" accessoryRanges));
         ("wisdom", rounded (range_of "attributes" accessoryRanges));
         ("constitution", rounded (range_of "attributes" accessoryRanges));
         ("luck", rounded (range_of "luck" accessoryRanges));
         ("durability", rounded (range_of "durability" accessoryRanges));
         ("weight", unrounded (range_of "weight" accessoryRanges));
         ("value", rounded (range_of "value" accessoryRanges))]
  | Some CONSUMABLE =>
      let consumableRanges := getConsumableStatRanges tier in
      literal
        [("healingPower", rounded (range_of "healingPower" consumableRanges));
         ("manaPower", rounded (range_of "manaPower" consumableRanges));
         ("duration", rounded (range_of "duration" consumableRanges));
         ("stackSize", rounded (range_of "stackSize" consumableRanges));
         ("value", rounded (range_of "value" consumableRanges))]
  | Some MATERIAL =>
      let materialRanges := getMaterialStatRanges tier in
      literal
        [("purity", rounded (range_of "purity" materialRanges));
         ("stackSize", rounded (range_of "stackSize" materialRanges));
         ("craftingBonus", rounded (range_of "craftingBonus" materialRanges));
         ("value", rounded (range_of "value" materialRanges))]
  | _ =>
      literal
        [("durability", rounded (50 -- 200));
         ("weight", unrounded (0.5 -- 5.0));
         ("value", rounded (50 -- 500))]
  end.

Definition subTypes (t : ItemType) : list string :=
  match t with
  | WEAPON => WeaponSubType
  | ARMOR => ArmorSubType
  | ACCESSORY => AccessorySubType
  | CONSUMABLE => ConsumableSubType
  | MATERIAL => MaterialSubType
  | RUNE => ["Lesser Rune"; "Greater Rune"; "Master Rune"; "Divine Rune"]
  | ARTIFACT =>
      ["Ancient Relic"; "Mystic Artifact"; "Divine Artifact";
       "Primordial Remnant"]
  end.

(** [options[i]] for a number [i]. *)
Definition element (options : list string) (i : Q) : value :=
  if Qle_bool 0 i && Qeq_bool i (inject_Z (Qfloor i)) then
    match nth_error options (Z.to_nat (Qfloor i)) with
    | Some s => VStr s
    | None => VUndefined
    end
  else VUndefined.

(** [subTypes[itemType]] is [undefined] unless [itemType] names a member
    of the enumeration, and reading [options.length] then throws, after
    [Math.random] was called.  (A name that [Object.prototype] defines,
    such as ["toString"], would not throw; both callers pass the
    request's item type, an enumeration member or [undefined].) *)
Definition getRandomSubType (itemType : value) : Eff value :=
  x <- Math_random ;;
  match switch_type itemType with
  | Some t =>
      let options := subTypes t in
      ret (element options (Math_floor (x * inject_Z (Z.of_nat (length options)))))
  | None => throw TypeError
  end.

Definition type_value (o : option ItemType) : value :=
  match o with Some t => VStr (type_name t) | None => VUndefined end.

Definition generatePrompt (options : GenerationOptions) : Eff Prompt :=
  let multiplier := getTierMultiplier (tier options) in
  subType' <- match given (subType options) with
              | Some s => ret (VStr s)
              | None => getRandomSubType (type_value (itemType options))
              end ;;
  ret {| prompt_tier := tier options;
         prompt_multiplier := multiplier;
         prompt_subType := subType';
         prompt_itemType := itemType options;
         prompt_setName := given (setName options) |}.

Definition transformToStructuredStats
  (aiStats itemType : value) (tier : LootTier) : Eff value :=
  baselineStats <- generateStatsForType itemType tier ;;
  let mergedStats := VObj (assign baselineStats (own_props aiStats)) in
  let merged := get mergedStats in
  ret match switch_type itemType with
      | Some WEAPON =>
          VObj
            [("damage",
              js_or (merged "damage") (get (VObj baselineStats) "damage"));
             ("attackSpeed", merged "attackSpeed");
             ("criticalChance", merged "criticalChance");
             ("criticalDamage", merged "criticalDamage");
             ("range", merged "range");
             ("accuracy", merged "accuracy");
             ("durability", merged "durability");
             ("weight", merged "weight");
             ("value", merged "value")]
      | Some ARMOR =>
          VObj
            [("defense",
              js_or (merged "defense") (get (VObj baselineStats) "defense"));
             ("magicResistance", merged "magicResistance");
             ("elementalResistance",
              VObj
                [("fire", merged "fireResistance");
                 ("ice", merged "iceResistance");
                 ("lightning", merged "lightningResistance");
                 ("poison", merged "poisonResistance");
                 ("dark", merged "darkResistance");
                 ("light", merged "lightResistance")]);
             ("durability", merged "durability");
             ("weight", merged "weight");
             ("value", merged "value")]
      | Some ACCESSORY =>
          VObj
            [("health", merged "health");
             ("mana", merged "mana");
             ("stamina", merged "stamina");
             ("strength", merged "strength");
             ("dexterity", merged "dexterity");
             ("intelligence", merged "intelligence");
             ("wisdom", merged "wisdom");
             ("constitution", merged "constitution");
             ("luck", merged "luck");
             ("durability", merged "durability");
             ("weight", merged "weight");
             ("value", merged "value")]
      | Some CONSUMABLE =>
          VObj
            [("healingPower", merged "healingPower");
             ("manaPower", merged "manaPower");
             ("duration", merged "duration");
             ("stackSize", merged "stackSize");
             ("durability", merged "durability");
             ("weight", merged "weight");
             ("value", merged "value")]
      | Some MATERIAL =>
          VObj
            [("purity", merged "purity");
             ("stackSize", merged "stackSize");
             ("craftingBonus", merged "craftingBonus");
             ("durability", merged "durability");
             ("weight", merged "weight");
             ("value", merged "value")]
      | _ => mergedStats
      end.

(** [options.itemType || generatedItem.type] *)
Definition requested_type (options : GenerationOptions) (generatedItem : value)
  : Eff value :=
  match itemType options with
  | Some t => ret (VStr (type_name t))
  | None => prop generatedItem "type"
  end.

(** The rarity roll,
    [Math.floor(Math.random() * (range.max - range.min + 1) + range.min)]:
    the product and the sum are doubles.  The bounds of a band are small
    integers, of which [max - min + 1] is exact. *)
Definition roll_rarity (tier : LootTier) : Eff value :=
  x <- Math_random ;;
  ret (VNum (Math_floor
    (binary64
       (binary64
          (x * (max (getRarityRange tier) - min (getRarityRange tier) + 1))
        + min (getRarityRange tier))))).

Definition LootItemSchema_parse (v : value) : Eff value :=
  match parse LootItemSchema v with
  | Some item => ret item
  | None => throw ZodError
  end.

(** The object literal [structuredItem], once its initialisers have run,
    and the assignment of the set name that follows it. *)
Definition structured (options : GenerationOptions)
  (generatedItem type' subType' stats' rarity' : value) : list (string * value) :=
  let structuredItem :=
    set_prop "rarity" rarity'
      (set_prop "stats" stats'
         (set_prop "subType" subType'
            (set_prop "tier" (VStr (tier_name (tier options)))
               (set_prop "type" type'
                  (assign [] (own_props generatedItem)))))) in
  match given (setName options) with
  | Some s => set_prop "setName" (VStr s) structuredItem
  | None => structuredItem
  end.

(** What one iteration of [generateLoot] does with the parsed reply: the
    statements of the [try] block after [JSON.parse]. *)
Definition reconcile (options : GenerationOptions) (generatedItem : value)
  : Eff value :=
  type' <- requested_type options generatedItem ;;
  subType' <- match given (subType options) with
              | Some s => ret (VStr s)
              | None =>
                  s <- prop generatedItem "subType" ;;
                  if truthy s then ret s
                  else t <- requested_type options generatedItem ;;
                       getRandomSubType t
              end ;;
  aiStats <- prop generatedItem "stats" ;;
  statsType <- requested_type options generatedItem ;;
  stats' <- transformToStructuredStats aiStats statsType (tier options) ;;
  rarity' <- roll_rarity (tier options) ;;
  LootItemSchema_parse
    (VObj (structured options generatedItem type' subType' stats' rarity')).

(** The body of the [try] block of one iteration of [generateLoot]. *)
Definition attempt (options : GenerationOptions) (model : string) : Eff value :=
  prompt <- generatePrompt options ;;
  response <- ollama_chat {| chat_model := model; chat_prompt := prompt |} ;;
  generatedItem <- JSON_parse response ;;
  reconcile options generatedItem.

(** The [for] loop of [generateLoot], [n] iterations from index [i] on. *)
Fixpoint generateLoot_loop (options : GenerationOptions) (model : string)
  (n : nat) (i : Z) (items : list value) (w : World) : list value * World :=
  match n with
  | O => (items, w)
  | S n' =>
      match attempt options model w with
      | (Returned validatedItem, w') =>
          generateLoot_loop options model n' (i + 1)%Z
            (items ++ [validatedItem]) w'
      | (Thrown error, w') =>
          generateLoot_loop options model n' (i + 1)%Z items
            (console_error (i + 1) error w')
      end
  end.

Definition enter (options : GenerationOptions) (w : World) : World :=
  {| draws := draws w; chats := chats w; orders := orders w ++ [options];
     errors := errors w |}.

Definition generateLoot (options : GenerationOptions) (w : World)
  : list value * World :=
  let model' := match given (model options) with
                | Some m => m
                | None => defaultModel
                end in
  generateLoot_loop options model' (Z.to_nat (count options)) 0%Z []
    (enter options w).

Fixpoint generateLootSet_loop (setName' : string) (tier' : LootTier)
  (itemTypes : list ItemType) (model' : option string)
  (setItems : list value) (w : World) : list value * World :=
  match itemTypes with
  | [] => (setItems, w)
  | itemType' :: rest =>
      let options := {| tier := tier'; count := 1; itemType := Some itemType';
                        subType := None; setName := Some setName';
                        model := model' |} in
      let (items, w') := generateLoot options w in
      generateLootSet_loop setName' tier' rest model' (setItems ++ items) w'
  end.

Definition generateLootSet (setName' : string) (tier' : LootTier)
  (itemTypes : list ItemType) (model' : option string) (w : World)
  : list value * World :=
  generateLootSet_loop setName' tier' itemTypes model' [] w.

End Generator.

(* ================================================================== *)
(** ** SHA-256 (FIPS 180-4), as [createHash("sha256")] of node's [crypto]
    computes it; words are integers below [2^32]. *)

Module SHA256.
Local Open Scope list_scope.
Local Open Scope Z_scope.

Definition word (x : Z) : Z := Z.land x 0xffffffff.
Definition plus (x y : Z) : Z := word (x + y).
Definition rotr (n x : Z) : Z :=
  Z.lor (Z.shiftr x n) (word (Z.shiftl x (32 - n))).
Definition xor3 (x y z : Z) : Z := Z.lxor (Z.lxor x y) z.

Definition Ch (x y z : Z) : Z :=
  Z.lxor (Z.land x y) (Z.land (Z.lxor x 0xffffffff) z).
Definition Maj (x y z : Z) : Z :=
  xor3 (Z.land x y) (Z.land x z) (Z.land y z).
Definition Sigma0 (x : Z) : Z := xor3 (rotr 2 x) (rotr 13 x) (rotr 22 x).
Definition Sigma1 (x : Z) : Z := xor3 (rotr 6 x) (rotr 11 x) (rotr 25 x).
Definition sigma0 (x : Z) : Z := xor3 (rotr 7 x) (rotr 18 x) (Z.shiftr x 3).
Definition sigma1 (x : Z) : Z := xor3 (rotr 17 x) (rotr 19 x) (Z.shiftr x 10).

(** The constants are fractional bits of roots of the first primes: the
    first 32 bits of the fractional part of the cube root of each of the
    first 64 primes, and of the square root of each of the first 8. *)
Definition is_prime (p : Z) : bool :=
  forallb (fun d => negb (p mod d =? 0))
    (map Z.of_nat (seq 2 (Z.to_nat (Z.sqrt p) - 1))).

Definition primes : list Z :=
  filter is_prime (map Z.of_nat (seq 2 310)).

(** The largest [r] in [lo, hi) whose cube is at most [n]. *)
Fixpoint cube_root (fuel : nat) (n lo hi : Z) : Z :=
  match fuel with
  | O => lo
  | S fuel' =>
      let mid := (lo + hi) / 2 in
      if mid =? lo then lo
      else if mid * mid * mid <=? n then cube_root fuel' n mid hi
      else cube_root fuel' n lo mid
  end.

Definition K : list Z :=
  Eval vm_compute in
    map (fun p => word (cube_root 40 (Z.shiftl p 96) 0 (Z.shiftl 1 35)))
      (firstn 64 primes).

Definition H0 : list Z :=
  Eval vm_compute in
    map (fun p => word (Z.sqrt (Z.shiftl p 64))) (firstn 8 primes).

Definition at_ (l : list Z) (i : nat) : Z := nth i l 0.

(** One round: the eight working variables, and the window holding the
    sixteen schedule words from the current one on. *)
Definition round (k : Z) (st : list Z * list Z) : list Z * list Z :=
  let (v, win) := st in
  let t1 := plus (plus (plus (plus (at_ v 7) (Sigma1 (at_ v 4)))
                          (Ch (at_ v 4) (at_ v 5) (at_ v 6))) k) (at_ win 0) in
  let t2 := plus (Sigma0 (at_ v 0)) (Maj (at_ v 0) (at_ v 1) (at_ v 2)) in
  let next := plus (plus (plus (sigma1 (at_ win 14)) (at_ win 9))
                      (sigma0 (at_ win 1))) (at_ win 0) in
  ([plus t1 t2; at_ v 0; at_ v 1; at_ v 2; plus (at_ v 3) t1;
    at_ v 4; at_ v 5; at_ v 6],
   tl win ++ [next]).

Definition compress (h block : list Z) : list Z :=
  let (v, _) := fold_left (fun st k => round k st) K (h, block) in
  map (fun xy => plus (fst xy) (snd xy)) (combine h v).

(** Big-endian words of a list of bytes. *)
Fixpoint words (bytes : list Z) : list Z :=
  match bytes with
  | a :: b :: c :: d :: rest =>
      (Z.shiftl a 24 + Z.shiftl b 16 + Z.shiftl c 8 + d) :: words rest
  | _ => []
  end.

Definition be_bytes (n : nat) (x : Z) : list Z :=
  map (fun i => Z.land (Z.shiftr x (8 * Z.of_nat (n - 1 - i))) 0xff) (seq 0 n).

Definition pad (bytes : list Z) : list Z :=
  let len := Z.of_nat (length bytes) in
  bytes ++ [0x80] ++ repeat 0 (Z.to_nat ((55 - len) mod 64))
        ++ be_bytes 8 (8 * len).

Fixpoint blocks (n : nat) (h ws : list Z) : list Z :=
  match n with
  | O => h
  | S n' => blocks n' (compress h (firstn 16 ws)) (skipn 16 ws)
  end.

Definition digest (bytes : list Z) : list Z :=
  let ws := words (pad bytes) in
  blocks (length ws / 16) H0 ws.

Definition hex_digit (d : Z) : ascii :=
  if d <? 10 then ascii_of_nat (48 + Z.to_nat d)
  else ascii_of_nat (87 + Z.to_nat d).

Definition hex_word (x : Z) : string :=
  fold_right (fun i s => String (hex_digit (Z.land (Z.shiftr x (4 * i)) 0xf)) s)
    EmptyString [7; 6; 5; 4; 3; 2; 1; 0].

Fixpoint bytes_of (s : string) : list Z :=
  match s with
  | EmptyString => []
  | String c rest => Z.of_nat (nat_of_ascii c) :: bytes_of rest
  end.

(** [createHash("sha256").update(content).digest("hex")] *)
Definition hex (content : string) : string :=
  String.concat "" (map hex_word (digest (bytes_of content))).
End SHA256.

(* ================================================================== *)
(** ** JSON.stringify *)

Local Open Scope string_scope.
Local Open Scope Z_scope.

Definition char (code : nat) : string := String (ascii_of_nat code) EmptyString.
Definition dquote : string := char 34.
Definition backslash : string := char 92.

Definition escape (c : ascii) : string :=
  let n := nat_of_ascii c in
  if (n =? 34)%nat then backslash ++ dquote
  else if (n =? 92)%nat then backslash ++ backslash
  else if (n =? 8)%nat then backslash ++ "b"
  else if (n =? 12)%nat then backslash ++ "f"
  else if (n =? 10)%nat then backslash ++ "n"
  else if (n =? 13)%nat then backslash ++ "r"
  else if (n =? 9)%nat then backslash ++ "t"
  else if (n <? 32)%nat then
    backslash ++ "u00"
      ++ String (SHA256.hex_digit (Z.of_nat (n / 16)))
           (String (SHA256.hex_digit (Z.of_nat (n mod 16))) EmptyString)
  else String c EmptyString.

Fixpoint escaped (s : string) : string :=
  match s with
  | EmptyString => EmptyString
  | String c rest => escape c ++ escaped rest
  end.

Definition quote (s : string) : string := dquote ++ escaped s ++ dquote.

Fixpoint fraction_digits (fuel : nat) (r d : Z) : string :=
  match fuel with
  | O => EmptyString
  | S fuel' =>
      if r =? 0 then EmptyString
      else String (digit_char (10 * r / d))
             (fraction_digits fuel' ((10 * r) mod d) d)
  end.

(** The decimal text of a number.  JavaScript prints the shortest decimal
    that reads back as the same double, a number of the model is that
    decimal; the exponent notation of very large and very small numbers is
    not modelled. *)
Definition number_string (q : Q) : string :=
  let q' := Qred q in
  let n := Z.abs (Qnum q') in
  let d := Zpos (Qden q') in
  (if Qnum q' <? 0 then "-" else "") ++ nat_digits (n / d)
  ++ (if n mod d =? 0 then "" else "." ++ fraction_digits 20 (n mod d) d).

(** [JSON.stringify(v)]; [None] is [undefined].  A property whose value is
    [undefined] is left out, an [undefined] element is written [null]. *)
Fixpoint JSON_stringify (v : value) : option string :=
  match v with
  | VUndefined => None
  | VNull => Some "null"
  | VBool b => Some (if b then "true" else "false")
  | VNum q => Some (number_string q)
  | VStr s => Some (quote s)
  | VArr l =>
      Some ("[" ++ String.concat ","
                     (map (fun x => match JSON_stringify x with
                                    | Some s => s
                                    | None => "null"
                                    end) l) ++ "]")
  | VObj props =>
      Some ("{" ++ String.concat ","
                     ((fix members (ps : list (string * value)) : list string :=
                         match ps with
                         | [] => []
                         | (k, x) :: rest =>
                             match JSON_stringify x with
                             | Some s => (quote k ++ ":" ++ s) :: members rest
                             | None => members rest
                             end
                         end) props) ++ "}")
  end.

(** [JSON.parse(JSON.stringify(v))], what a value is once it was stored as
    text and read back. *)
Fixpoint JSON_roundtrip (v : value) : value :=
  match v with
  | VArr l =>
      VArr (map (fun x => match x with
                          | VUndefined => VNull
                          | _ => JSON_roundtrip x
                          end) l)
  | VObj props =>
      VObj ((fix members (ps : list (string * value)) : list (string * value) :=
               match ps with
               | [] => []
               | (k, VUndefined) :: rest => members rest
               | (k, x) :: rest => (k, JSON_roundtrip x) :: members rest
               end) props)
  | _ => v
  end.

(* ================================================================== *)
(** ** types.ts: [LootItem] and [DatabaseItem] as typed records *)

Record MagicalProperty := {
  mp_name : string;
  mp_description : string;
  mp_magnitude : option Q
}.

Record LootItem := {
  item_name : string;
  item_type : ItemType;
  item_subType : string;
  item_tier : LootTier;
  item_description : string;
  item_stats : value;
  item_magicalProperties : option (list MagicalProperty);
  item_lore : option string;
  item_setName : option string;
  item_rarity : Q
}.

(** [interface DatabaseItem extends LootItem]: the item's fields and the
    three the store adds. *)
Record DatabaseItem := {
  id : Z;
  item : LootItem;
  hash : string;
  createdAt : string
}.

Definition opt_num (o : option Q) : value :=
  match o with Some q => VNum q | None => VUndefined end.

Definition property_value (p : MagicalProperty) : value :=
  VObj [("name", VStr (mp_name p)); ("description", VStr (mp_description p));
        ("magnitude", opt_num (mp_magnitude p))].

Definition properties_value (o : option (list MagicalProperty)) : value :=
  match o with
  | Some l => VArr (map property_value l)
  | None => VUndefined
  end.

(* ================================================================== *)
(** ** database.ts *)

(** The [items] table and the counter behind [AUTOINCREMENT].  A row is
    kept as the [DatabaseItem] that [getItemById] makes of it. *)
Record Store := {
  rows : list DatabaseItem;
  last_id : Z
}.

Definition empty_store : Store := {| rows := []; last_id := 0 |}.

Section Database.

(** [a.localeCompare(b)]: negative, zero or positive. *)
Variable localeCompare : string -> string -> Z.

Definition by_name (a b : MagicalProperty) : Z :=
  localeCompare (mp_name a) (mp_name b).

(** [Array.prototype.sort(compare)]: a stable sort, in place. *)
Fixpoint sort_insert (compare : MagicalProperty -> MagicalProperty -> Z)
  (x : MagicalProperty) (l : list MagicalProperty) : list MagicalProperty :=
  match l with
  | [] => [x]
  | y :: rest =>
      if compare x y <=? 0 then x :: y :: rest
      else y :: sort_insert compare x rest
  end.

Definition Array_sort (compare : MagicalProperty -> MagicalProperty -> Z)
  (l : list MagicalProperty) : list MagicalProperty :=
  fold_right (sort_insert compare) [] l.

(** The item once [generateHash] has run: [item.magicalProperties?.sort]
    has sorted the caller's array. *)
Definition sorted_in_place (i : LootItem) : LootItem :=
  {| item_name := item_name i;
     item_type := item_type i;
     item_subType := item_subType i;
     item_tier := item_tier i;
     item_description := item_description i;
     item_stats := item_stats i;
     item_magicalProperties :=
       option_map (Array_sort by_name) (item_magicalProperties i);
     item_lore := item_lore i;
     item_setName := item_setName i;
     item_rarity := item_rarity i |}.

(** The object [generateHash] serialises. *)
Definition hashed_content (i : LootItem) : value :=
  VObj [("name", VStr (item_name i));
        ("type", VStr (type_name (item_type i)));
        ("subType", VStr (item_subType i));
        ("tier", VStr (tier_name (item_tier i)));
        ("description", VStr (item_description i));
        ("stats", item_stats i);
        ("magicalProperties",
         properties_value
           (option_map (Array_sort by_name) (item_magicalProperties i)));
        ("lore", opt_str (item_lore i));
        ("setName", opt_str (item_setName i))].

Definition generateHash (i : LootItem) : string :=
  match JSON_stringify (hashed_content i) with
  | Some content => SHA256.hex content
  | None => EmptyString
  end.

Definition getItemById (n : Z) (db : Store) : option DatabaseItem :=
  find (fun row => id row =? n) (rows db).

Definition getItemByHash (h : string) (db : Store) : option DatabaseItem :=
  find (fun row => String.eqb (hash row) h) (rows db).

(** [SELECT COUNT( * ) FROM items], the [totalItems] of [getStats]. *)
Definition totalItems (db : Store) : Z := Z.of_nat (length (rows db)).

(** The row the [INSERT] of [saveItem] writes: the stats and the magical
    properties go through JSON text. *)
Definition stored (i : LootItem) : LootItem :=
  {| item_name := item_name i;
     item_type := item_type i;
     item_subType := item_subType i;
     item_tier := item_tier i;
     item_description := item_description i;
     item_stats := JSON_roundtrip (item_stats i);
     item_magicalProperties := item_magicalProperties i;
     item_lore := item_lore i;
     item_setName := item_setName i;
     item_rarity := item_rarity i |}.

Definition insert_row (i : LootItem) (h now : string) (db : Store) : Store :=
  let n := last_id db + 1 in
  {| rows := rows db ++ [{| id := n; item := stored i; hash := h;
                            createdAt := now |}];
     last_id := n |}.

(** [saveItem(item)] at time [now]: what it returns, the caller's item
    after the call, and the store after the call.  The [INSERT] runs only
    when no row has the hash, so the [UNIQUE] constraint on [hash] never
    rejects it. *)
Definition saveItem (now : string) (i : LootItem) (db : Store)
  : option DatabaseItem * LootItem * Store :=
  let h := generateHash i in
  let i' := sorted_in_place i in
  match getItemByHash h db with
  | Some existing => (Some existing, i', db)
  | None =>
      let db' := insert_row i' h now db in
      (getItemById (last_id db') db', i', db')
  end.

End Database.

(* ================================================================== *)
(** ** database.ts: the queries *)

Section Queries.

(** What [ORDER BY createdAt DESC] makes of the selected rows.  SQLite
    compares the texts byte by byte and does not say in which order it
    returns rows whose texts are equal, so the sorter is a parameter; the
    properties below take it to return its input rearranged, the later
    texts first. *)
Variable ORDER_BY_createdAt_DESC : list DatabaseItem -> list DatabaseItem.

(** [WHERE tier = ?] and [WHERE setName = ?] compare texts; [NULL] equals
    nothing. *)
Definition tier_is (tier : LootTier) (row : DatabaseItem) : bool :=
  String.eqb (tier_name (item_tier (item row))) (tier_name tier).

Definition setName_is (setName' : string) (row : DatabaseItem) : bool :=
  match item_setName (item row) with
  | Some s => String.eqb s setName'
  | None => false
  end.

(** [LIMIT n]: a negative [n] is no limit. *)
Definition LIMIT (n : Z) (l : list DatabaseItem) : list DatabaseItem :=
  if n <? 0 then l else firstn (Z.to_nat n) l.

Definition getItemsByTier (tier : LootTier) (db : Store) : list DatabaseItem :=
  ORDER_BY_createdAt_DESC (filter (tier_is tier) (rows db)).

Definition getItemsBySetName (setName' : string) (db : Store)
  : list DatabaseItem :=
  ORDER_BY_createdAt_DESC (filter (setName_is setName') (rows db)).

(** [getAllItems(limit)] for an integer [limit], [None] when it is left
    out.  The limit is tested for truthiness: a limit of zero selects the
    statement without [LIMIT]. *)
Definition getAllItems (limit : option Z) (db : Store) : list DatabaseItem :=
  match limit with
  | Some n =>
      if n =? 0 then ORDER_BY_createdAt_DESC (rows db)
      else LIMIT n (ORDER_BY_createdAt_DESC (rows db))
  | None => ORDER_BY_createdAt_DESC (rows db)
  end.

End Queries.

(** [SELECT COUNT( * ) ... WHERE tier = ?] *)
Definition COUNT_tier (tier : LootTier) (db : Store) : Z :=
  Z.of_nat (length (filter (tier_is tier) (rows db))).

(** What [getStats] returns; [itemsByTier] lists the tiers in the order of
    [Object.values(LootTier)], in which the loop fills it. *)
Record Stats := {
  stats_totalItems : Z;
  itemsByTier : list (LootTier * Z)
}.

Definition getStats (db : Store) : Stats :=
  {| stats_totalItems := totalItems db;
     itemsByTier := map (fun tier => (tier, COUNT_tier tier db)) all_tiers |}.

(* ================================================================== *)
(** ** The items of [generateLoot] as typed records

    [LootItemSchema.parse] returns a [LootItem]; these functions read the
    record out of the value, [None] when the value is none. *)

Definition LootTier_of_string (s : string) : option LootTier :=
  find (fun t => String.eqb s (tier_name t)) all_tiers.

Definition optional_string (v : value) : option (option string) :=
  match v with
  | VStr s => Some (Some s)
  | VUndefined => Some None
  | _ => None
  end.

Definition optional_number (v : value) : option (option Q) :=
  match v with
  | VNum q => Some (Some q)
  | VUndefined => Some None
  | _ => None
  end.

Definition MagicalProperty_of (v : value) : option MagicalProperty :=
  match get v "name", get v "description", optional_number (get v "magnitude") with
  | VStr name', VStr description', Some magnitude' =>
      Some {| mp_name := name'; mp_description := description';
              mp_magnitude := magnitude' |}
  | _, _, _ => None
  end.

Definition MagicalProperties_of (v : value)
  : option (option (list MagicalProperty)) :=
  match v with
  | VArr l => option_map Some (sequence (map MagicalProperty_of l))
  | VUndefined => Some None
  | _ => None
  end.

Definition LootItem_of (v : value) : option LootItem :=
  match get v "name", get v "type", get v "subType", get v "tier",
        get v "description", get v "rarity" with
  | VStr name', VStr type', VStr subType', VStr tier', VStr description',
    VNum rarity' =>
      match ItemType_of_string type', LootTier_of_string tier',
            MagicalProperties_of (get v "magicalProperties"),
            optional_string (get v "lore"),
            optional_string (get v "setName") with
      | Some type'', Some tier'', Some magicalProperties', Some lore',
        Some setName' =>
          Some {| item_name := name'; item_type := type'';
                  item_subType := subType'; item_tier := tier'';
                  item_description := description';
                  item_stats := get v "stats";
                  item_magicalProperties := magicalProperties';
                  item_lore := lore'; item_setName := setName';
                  item_rarity := rarity' |}
      | _, _, _, _, _ => None
      end
  | _, _, _, _, _, _ => None
  end.

(** The values of a list that are items. *)
Definition LootItems_of (items : list value) : list LootItem :=
  flat_map (fun v => match LootItem_of v with Some i => [i] | None => [] end)
    items.

(* ================================================================== *)
(** ** loot-generator.ts: [generateAndSaveLoot] *)

Record SaveReport := {
  generated : list LootItem;
  saved : Z;
  duplicates : Z
}.

Section GenerateAndSave.

Variable random : nat -> Q.
Variable chat : nat -> ChatRequest -> Reply.
Variable defaultModel : string.
Variable localeCompare : string -> string -> Z.
Variable ORDER_BY_createdAt_DESC : list DatabaseItem -> list DatabaseItem.

(** [clock k] is what [new Date().toISOString()] gives while the item of
    index [k] is saved. *)
Variable clock : nat -> string.

(** The [for] loop over the generated items, from the item of index [k]
    on.  [saveItem] sorts the magical properties of each item in place, and
    these items are the ones the report lists. *)
Fixpoint save_loop (items : list LootItem) (k : nat) (saved' duplicates' : Z)
  (db : Store) : SaveReport * Store :=
  match items with
  | [] => ({| generated := []; saved := saved'; duplicates := duplicates' |}, db)
  | item' :: rest =>
      let initialCount :=
        Z.of_nat (length (getAllItems ORDER_BY_createdAt_DESC None db)) in
      let '(savedItem, item'', db') :=
        saveItem localeCompare (clock k) item' db in
      let finalCount :=
        Z.of_nat (length (getAllItems ORDER_BY_createdAt_DESC None db')) in
      let '(saved'', duplicates'') :=
        match savedItem with
        | Some _ =>
            if initialCount <? finalCount then (saved' + 1, duplicates')
            else (saved', duplicates' + 1)
        | None => (saved', duplicates')
        end in
      let (report, db'') := save_loop rest (S k) saved'' duplicates'' db' in
      ({| generated := item'' :: generated report; saved := saved report;
          duplicates := duplicates report |}, db'')
  end.

Definition generateAndSaveLoot (options : GenerationOptions) (w : World)
  (db : Store) : SaveReport * World * Store :=
  let (generatedItems, w') := generateLoot random chat defaultModel options w in
  let (report, db') := save_loop (LootItems_of generatedItems) 0 0 0 db in
  (report, w', db').

End GenerateAndSave.

(* ================================================================== *)
(** ** loot-generator.ts: [getTypeSpecificRequirements]

    The text lists, under a heading, one line for each stat it asks the
    model for: the stat, what it means, and the bounds of its range. *)

Record Requirement := {
  req_stat : string;
  req_meaning : string;
  req_between : string;     (* what stands between the two bounds *)
  req_range : Range
}.

Definition requires (stat' meaning' between' : string) (r : Range) : Requirement :=
  {| req_stat := stat'; req_meaning := meaning'; req_between := between';
     req_range := r |}.

(** The heading and the lines of the text for an item type; the [default]
    branch has neither. *)
Definition requirements (itemType : option ItemType) (tier : LootTier)
  : option (string * list Requirement) :=
  match itemType with
  | Some WEAPON =>
      let weaponRanges := getWeaponStatRanges tier in
      Some ("WEAPON STATS REQUIRED (as flat numeric values):",
            [requires "damage" "Base damage" "-"
              (range_of "damage" weaponRanges);
             requires "attackSpeed" "Attack speed modifier" " to "
              (range_of "attackSpeed" weaponRanges);
             requires "criticalChance" "Critical hit chance" "-"
              (range_of "criticalChance" weaponRanges);
             requires "criticalDamage" "Critical damage multiplier" "-"
              (range_of "criticalDamage" weaponRanges);
             requires "range" "Weapon range in meters" "-"
              (range_of "range" weaponRanges);
             requires "accuracy" "Hit chance modifier" " to "
              (range_of "accuracy" weaponRanges);
             requires "durability" "Item durability" "-"
              (range_of "durability" weaponRanges);
             requires "weight" "Weight in kg" "-"
              (range_of "weight" weaponRanges);
             requires "value" "Gold value" "-"
              (range_of "value" weaponRanges)])
  | Some ARMOR =>
      let armorRanges := getArmorStatRanges tier in
      Some ("ARMOR STATS REQUIRED (as flat numeric values):",
            [requires "defense" "Armor rating" "-"
              (range_of "defense" armorRanges);
             requires "magicResistance" "Magic damage reduction" "-"
              (range_of "magicResistance" armorRanges);
             requires "fireResistance" "Fire damage reduction" "-"
              (range_of "elementalResistance" armorRanges);
             requires "iceResistance" "Ice damage reduction" "-"
              (range_of "elementalResistance" armorRanges);
             requires "lightningResistance" "Lightning damage reduction" "-"
              (range_of "elementalResistance" armorRanges);
             requires "poisonResistance" "Poison damage reduction" "-"
              (range_of "elementalResistance" armorRanges);
             requires "durability" "Item durability" "-"
              (range_of "durability" armorRanges);
             requires "weight" "Weight in kg" "-"
              (range_of "weight" armorRanges);
             requires "value" "Gold value" "-"
              (range_of "value" armorRanges)])
  | Some ACCESSORY =>
      let accessoryRanges := getAccessoryStatRanges tier in
      Some ("ACCESSORY STATS REQUIRED (as flat numeric values):",
            [requires "health" "Health bonus" "-"
              (range_of "health" accessoryRanges);
             requires "mana" "Mana bonus" "-"
              (range_of "mana" accessoryRanges);
             requires "stamina" "Stamina bonus" "-"
              (range_of "stamina" accessoryRanges);
             requires "strength" "Strength bonus" "-"
              (range_of "attributes" accessoryRanges);
             requires "dexterity" "Dexterity bonus" "-"
              (range_of "attributes" accessoryRanges);
             requires "intelligence" "Intelligence bonus" "-"
              (range_of "attributes" accessoryRanges);
             requires "wisdom" "Wisdom bonus" "-"
              (range_of "attributes" accessoryRanges);
             requires "constitution" "Constitution bonus" "-"
              (range_of "attributes" accessoryRanges);
             requires "luck" "Luck bonus" "-"
              (range_of "luck" accessoryRanges);
             requires "durability" "Item durability" "-"
              (range_of "durability" accessoryRanges);
             requires "weight" "Weight in kg" "-"
              (range_of "weight" accessoryRanges);
             requires "value" "Gold value" "-"
              (range_of "value" accessoryRanges)])
  | Some CONSUMABLE =>
      let consumableRanges := getConsumableStatRanges tier in
      Some ("CONSUMABLE STATS REQUIRED (as flat numeric values):",
            [requires "healingPower" "Health restored" "-"
              (range_of "healingPower" consumableRanges);
             requires "manaPower" "Mana restored" "-"
              (range_of "manaPower" consumableRanges);
             requires "duration" "Effect duration in seconds" "-"
              (range_of "duration" consumableRanges);
             requires "stackSize" "Maximum stack size" "-"
              (range_of "stackSize" consumableRanges);
             requires "value" "Gold value" "-"
              (range_of "value" consumableRanges)])
  | Some MATERIAL =>
      let materialRanges := getMaterialStatRanges tier in
      Some ("MATERIAL STATS REQUIRED (as flat numeric values):",
            [requires "purity" "Material purity percentage" "-"
              (range_of "purity" materialRanges);
             requires "stackSize" "Maximum stack size" "-"
              (range_of "stackSize" materialRanges);
             requires "craftingBonus" "Bonus to crafting success" "-"
              (range_of "craftingBonus" materialRanges);
             requires "value" "Gold value" "-"
              (range_of "value" materialRanges)])
  | _ => None
  end.

Definition newline : string := char 10.

(** [- stat: meaning (min-max)], the bounds as JavaScript prints numbers. *)
Definition requirement_line (r : Requirement) : string :=
  "- " ++ req_stat r ++ ": " ++ req_meaning r ++ " ("
  ++ number_string (min (req_range r)) ++ req_between r
  ++ number_string (max (req_range r)) ++ ")".

Definition getTypeSpecificRequirements (itemType : option ItemType)
  (subType' : value) (tier : LootTier) : string :=
  match requirements itemType tier with
  | Some (heading, lines) =>
      String.concat newline (heading :: map requirement_line lines)
  | None =>
      "Generate appropriate stats for this item type with durability, weight, and value fields."
  end.

(* ================================================================== *)
(** ** components/LootDisplay.tsx: [getRarityBar] *)

(** [s.repeat(n)] for an integer [n]: a negative count throws a
    [RangeError], for which [None] stands. *)
Definition String_repeat (s : string) (n : Z) : option string :=
  if n <? 0 then None else Some (String.concat "" (repeat s (Z.to_nat n))).

(** The two cells of the bar, U+2588 and U+2591, in UTF-8. *)
Definition full_block : string := char 226 ++ char 150 ++ char 136.
Definition light_shade : string := char 226 ++ char 150 ++ char 145.

Definition getRarityBar (rarity : Q) : option string :=
  let filled := Qfloor (rarity / 10) in
  let empty := 10 - filled in
  match String_repeat full_block filled with
  | Some blocks =>
      match String_repeat light_shade empty with
      | Some shades => Some (blocks ++ shades)
      | None => None
      end
  | None => None
  end.

(* ================================================================== *)
(** * The vocabulary of the properties

    What the statements below speak of: readings of the tables and of the
    results, the traces of the loops, and the inputs of the examples. *)

Local Open Scope Q_scope.

(* ------------------------------------------------------------------ *)
(** ** Range tables *)

(** The place of a tier in the order from Bronze to Celestial. *)
Definition tier_rank (t : LootTier) : nat :=
  match t with
  | BRONZE => 0 | SILVER => 1 | GOLD => 2
  | PLATINUM => 3 | LEGENDARY => 4 | CELESTIAL => 5
  end.

(** The range table [generateStatsForType] and [getTypeSpecificRequirements]
    pick for an item type; runes and artifacts have none. *)
Definition stat_ranges (t : ItemType) (tier : LootTier) : RangeTable :=
  match t with
  | WEAPON => getWeaponStatRanges tier
  | ARMOR => getArmorStatRanges tier
  | ACCESSORY => getAccessoryStatRanges tier
  | CONSUMABLE => getConsumableStatRanges tier
  | MATERIAL => getMaterialStatRanges tier
  | RUNE | ARTIFACT => []
  end.

(** The range a table gives a stat name, if it has the name. *)
Fixpoint find_range (k : string) (t : RangeTable) : option Range :=
  match t with
  | [] => None
  | (k', r) :: rest => if String.eqb k k' then Some r else find_range k rest
  end.

(** The comparison of one stat of a lower tier's table with the same stat
    of a higher tier's table. *)
Definition scales (higher : RangeTable) (entry : string * Range) : bool :=
  let (k, r) := entry in
  match find_range k higher with
  | Some r' =>
      Qle_bool (max r) (max r')
      && (if String.eqb k "weight" then Qle_bool (min r') (min r)
          else Qle_bool (min r) (min r'))
  | None => true
  end.

(* ------------------------------------------------------------------ *)
(** ** Schemas *)

(** The fields of an object schema, as [parse] treats them. *)
Fixpoint parse_fields (v : value) (props : list (string * value))
  (shape : list (string * schema)) : option (list (string * value)) :=
  match shape with
  | [] => Some []
  | (k, s) :: rest =>
      match parse s (get v k), parse_fields v props rest with
      | Some x, Some out =>
          Some (if has_key k props || defined x then (k, x) :: out else out)
      | _, _ => None
      end
  end.

(** The options of a union, as [parse] treats them. *)
Fixpoint parse_first (v : value) (options : list schema) : option value :=
  match options with
  | [] => None
  | s :: rest =>
      match parse s v with Some x => Some x | None => parse_first v rest end
  end.

(** A list of keys without a repetition. *)
Fixpoint distinct_keys (keys : list string) : bool :=
  match keys with
  | [] => true
  | k :: rest => negb (existsb (String.eqb k) rest) && distinct_keys rest
  end.

(** A schema none of whose object shapes repeats a key. *)
Fixpoint well_formed (s : schema) : bool :=
  match s with
  | ZOptional s' | ZArray s' => well_formed s'
  | ZObject shape =>
      distinct_keys (map fst shape)
      && (fix each (sh : list (string * schema)) : bool :=
            match sh with
            | [] => true
            | ks :: rest => well_formed (snd ks) && each rest
            end) shape
  | ZUnion options =>
      (fix each (os : list schema) : bool :=
         match os with
         | [] => true
         | s' :: rest => well_formed s' && each rest
         end) options
  | _ => true
  end.

(* ------------------------------------------------------------------ *)
(** ** Services and requests *)

(** What the service returned for one key, overwritten: the reply a model
    would have given had it claimed [x] for [k]. *)
Definition overwrite (k : string) (x : value) (r : Reply) : Reply :=
  match r with
  | Content (Some (VObj props)) => Content (Some (VObj (set_prop k x props)))
  | _ => r
  end.

(** The keys of the reply whose value the request settles. *)
Definition governed (options : GenerationOptions) (k : string) : Prop :=
  k = "rarity" \/ k = "tier"
  \/ (k = "type" /\ itemType options <> None)
  \/ (k = "subType" /\ given (subType options) <> None)
  \/ (k = "setName" /\ given (setName options) <> None).

(** A service whose replies differ from [chat]'s only in [k]. *)
Definition claiming (k : string) (x : nat -> value)
  (chat : nat -> ChatRequest -> Reply) : nat -> ChatRequest -> Reply :=
  fun n request => overwrite k (x n) (chat n request).

(** A schema that returns its input unchanged when it accepts it. *)
Fixpoint transparent (s : schema) : bool :=
  match s with
  | ZString | ZNumber _ _ | ZNativeEnum _ => true
  | ZOptional s' => transparent s'
  | ZUnion options =>
      (fix each (os : list schema) : bool :=
         match os with
         | [] => true
         | s' :: rest => transparent s' && each rest
         end) options
  | ZArray _ | ZObject _ => false
  end.

(** The shape of an object schema. *)
Definition shape_of (s : schema) : list (string * schema) :=
  match s with ZObject shape => shape | _ => [] end.

(* ------------------------------------------------------------------ *)
(** ** Runs of the generator *)

(** The scenario of the specification: a Gold sword is requested and the
    model claims a rarity of 999. *)
Definition flameheart : value :=
  VObj [("name", VStr "Flameheart"); ("type", VStr "Weapon");
        ("subType", VStr "Sword"); ("tier", VStr "Gold");
        ("description", VStr "A blade of living fire");
        ("stats", VObj [("damage", VNum 30)]); ("rarity", VNum 999)].

(** The request for one Gold sword. *)
Definition gold_sword : GenerationOptions :=
  {| tier := GOLD; count := 1; itemType := Some WEAPON; subType := Some "Sword";
     setName := None; model := None |}.

(** A random source that always draws one half. *)
Definition half : nat -> Q := fun _ => 1 # 2.

(** A service whose every reply parses as [v]. *)
Definition always (v : value) : nat -> ChatRequest -> Reply :=
  fun _ _ => Content (Some v).

(** The first item of a result. *)
Definition first_item (result : list value * World) : value :=
  nth 0 (fst result) VUndefined.

Abbreviation flameheart_run :=
  (generateLoot half (always flameheart) "llama3.1" gold_sword initial).

(** The rarity [roll_rarity] makes of the draw [x]. *)
Definition rolled (tier : LootTier) (x : Q) : Q :=
  Math_floor
    (binary64
       (binary64
          (x * (max (getRarityRange tier) - min (getRarityRange tier) + 1))
        + min (getRarityRange tier))).

(** The bound [1 - 2 ^ -50], below which no roll leaves its band. *)
Definition safe_draw : Q := 1 - / inject_Z (2 ^ 50).

(** The double [1 - 2 ^ -52], 0.9999999999999998, and a random source that
    always draws it. *)
Definition nearly_one : Q := 1 - / inject_Z (2 ^ 52).
Definition highest : nat -> Q := fun _ => nearly_one.

(** The requests for one Silver sword and for one Celestial sword. *)
Definition silver_sword : GenerationOptions :=
  {| tier := SILVER; count := 1; itemType := Some WEAPON; subType := Some "Sword";
     setName := None; model := None |}.
Definition celestial_sword : GenerationOptions :=
  {| tier := CELESTIAL; count := 1; itemType := Some WEAPON;
     subType := Some "Sword"; setName := None; model := None |}.

Abbreviation silver_run :=
  (generateLoot highest (always flameheart) "llama3.1" silver_sword initial).
Abbreviation celestial_run :=
  (generateLoot highest (always flameheart) "llama3.1" celestial_sword initial).

(** The model claims an axe of Bronze tier; a Gold sword was requested. *)
Definition bronze_axe : value :=
  VObj [("name", VStr "Flameheart"); ("type", VStr "Armor");
        ("subType", VStr "Axe"); ("tier", VStr "Bronze");
        ("description", VStr "A blade of living fire");
        ("stats", VObj [("damage", VNum 30)]); ("rarity", VNum 999)].

Abbreviation bronze_axe_run :=
  (generateLoot half (always bronze_axe) "llama3.1" gold_sword initial).

(** The outcome of each of [n] successive iterations of the loop of
    [generateLoot], from index [i] and world [w] on: what the [try] block
    returned, or what it threw into the [catch]. *)
Fixpoint outcomes (random : nat -> Q) (chat : nat -> ChatRequest -> Reply)
  (options : GenerationOptions) (model' : string) (n : nat) (i : Z) (w : World)
  : list (Outcome value) :=
  match n with
  | O => []
  | S n' =>
      match attempt random chat options model' w with
      | (Returned validatedItem, w') =>
          Returned validatedItem
            :: outcomes random chat options model' n' (i + 1)%Z w'
      | (Thrown error, w') =>
          Thrown error
            :: outcomes random chat options model' n' (i + 1)%Z
                 (console_error (i + 1) error w')
      end
  end.

(** The items of the iterations that returned, in order. *)
Fixpoint successes (trace : list (Outcome value)) : list value :=
  match trace with
  | [] => []
  | Returned item :: rest => item :: successes rest
  | Thrown _ :: rest => successes rest
  end.

(** The console lines of a trace: one per iteration that threw, with the
    number of the iteration counted from one. *)
Fixpoint logged (i : Z) (trace : list (Outcome value)) : list (Z * Failure) :=
  match trace with
  | [] => []
  | Returned _ :: rest => logged (i + 1) rest
  | Thrown e :: rest => ((i + 1)%Z, e) :: logged (i + 1) rest
  end.

(** [options.model || this.defaultModel] *)
Definition used_model (defaultModel : string) (options : GenerationOptions)
  : string :=
  match given (model options) with Some m => m | None => defaultModel end.

(** An item validates against the [LootItem] schema. *)
Definition validates (item : value) : Prop :=
  exists item', parse LootItemSchema item = Some item'.

(** The scenario of the specification: of four attempts the first is
    rejected by the service, the third gets a text that does not parse, the
    second and the fourth succeed. *)
Definition success_item (name : string) (damage : Q) : value :=
  VObj [("name", VStr name); ("type", VStr "Weapon"); ("subType", VStr "Sword");
        ("tier", VStr "Bronze"); ("description", VStr "A generated item");
        ("stats", VObj [("damage", VNum damage); ("value", VNum 80)]);
        ("magicalProperties", VArr []); ("rarity", VNum 20)].

(** The service of that scenario. *)
Definition flaky : nat -> ChatRequest -> Reply :=
  fun n _ =>
    match n with
    | 0%nat => Rejected
    | 1%nat => Content (Some (success_item "Success Item 1" 8))
    | 2%nat => Content None
    | _ => Content (Some (success_item "Success Item 2" 9))
    end.

(** The request of that scenario. *)
Definition four_weapons : GenerationOptions :=
  {| tier := BRONZE; count := 4; itemType := Some WEAPON; subType := None;
     setName := None; model := None |}.

Abbreviation flaky_run :=
  (generateLoot half flaky "llama3.1" four_weapons initial).

(** Two worlds with the same service calls, orders and console lines. *)
Definition same_logs (w w' : World) : Prop :=
  chats w' = chats w /\ orders w' = orders w /\ errors w' = errors w.

(** A computation that at most draws random numbers. *)
Definition quiet {A : Type} (m : Eff A) : Prop :=
  forall w, same_logs w (snd (m w)).

(** A request for a weapon with a subtype of armor. *)
Definition weapon_helmet : GenerationOptions :=
  {| tier := BRONZE; count := 1; itemType := Some WEAPON;
     subType := Some "Helmet"; setName := None; model := None |}.

(** A request for no item at all. *)
Definition no_item : GenerationOptions :=
  {| tier := BRONZE; count := 0; itemType := Some WEAPON;
     subType := Some "Sword"; setName := None; model := None |}.

Abbreviation helmet_run :=
  (generateLoot half (always (success_item "Iron Cap" 8)) "llama3.1"
     weapon_helmet initial).

Abbreviation no_item_run :=
  (generateLoot half (always (success_item "Iron Cap" 8)) "llama3.1"
     no_item initial).

(** The request [generateLootSet] makes for one item type. *)
Definition set_order (setName' : string) (tier' : LootTier)
  (model' : option string) (itemType' : ItemType) : GenerationOptions :=
  {| tier := tier'; count := 1; itemType := Some itemType'; subType := None;
     setName := Some setName'; model := model' |}.

(** What each call of [generateLoot] by [generateLootSet] returns, one list
    of items per item type, in the order of the calls. *)
Fixpoint set_results (random : nat -> Q) (chat : nat -> ChatRequest -> Reply)
  (defaultModel setName' : string) (tier' : LootTier)
  (itemTypes : list ItemType) (model' : option string) (w : World)
  : list (list value) :=
  match itemTypes with
  | [] => []
  | itemType' :: rest =>
      let (items, w') :=
        generateLoot random chat defaultModel
          (set_order setName' tier' model' itemType') w in
      items :: set_results random chat defaultModel setName' tier' rest model' w'
  end.

(** What holds of the result of a call for one item type. *)
Definition set_member (setName' : string) (tier' : LootTier)
  (itemType' : ItemType) (items : list value) : Prop :=
  (length items <= 1)%nat
  /\ Forall (fun item =>
               get item "type" = VStr (type_name itemType')
               /\ get item "tier" = VStr (tier_name tier')
               /\ get item "setName" = VStr setName') items.

(** The scenario of the specification: of a weapon, an armor and an
    accessory, the attempt for the armor fails. *)
Definition armor_fails : nat -> ChatRequest -> Reply :=
  fun n _ =>
    match n with
    | 1%nat => Rejected
    | _ => Content (Some (success_item "Dragon Slayer" 50))
    end.

Abbreviation dragon_set :=
  (generateLootSet half armor_fails "llama3.1" "Dragon Slayer" LEGENDARY
     [WEAPON; ARMOR; ACCESSORY] None initial).

(** A reply that names a set of its own, and the set of the empty name. *)
Definition moonlit_blade : value :=
  VObj [("name", VStr "Moonlit Blade"); ("type", VStr "Weapon");
        ("subType", VStr "Sword"); ("tier", VStr "Legendary");
        ("description", VStr "A blade of pale light");
        ("stats", VObj [("damage", VNum 50)]); ("setName", VStr "Moonlit");
        ("rarity", VNum 80)].

Abbreviation nameless_set :=
  (generateLootSet half (always moonlit_blade) "llama3.1" "" LEGENDARY
     [WEAPON] None initial).

(* ------------------------------------------------------------------ *)
(** ** Stats *)

(** A number without a fractional part, and a number of at most two
    decimal places. *)
Definition whole (q : Q) : Prop := exists z : Z, q == inject_Z z.
Definition two_decimals (q : Q) : Prop := exists z : Z, q == inject_Z z / 100.

(** The rounding of a baseline stat: two decimal places for [range] and
    [weight], none for the others. *)
Definition baseline_rounding (entry : string * value) : Prop :=
  match snd entry with
  | VNum q =>
      if String.eqb (fst entry) "range" || String.eqb (fst entry) "weight"
      then two_decimals q else whole q
  | _ => False
  end.

(** The flat names under which [transformToStructuredStats] reads the
    stats of an item type. *)
Definition stat_names (t : ItemType) : list string :=
  match t with
  | WEAPON =>
      ["damage"; "attackSpeed"; "criticalChance"; "criticalDamage"; "range";
       "accuracy"; "durability"; "weight"; "value"]
  | ARMOR =>
      ["defense"; "magicResistance"; "fireResistance"; "iceResistance";
       "lightningResistance"; "poisonResistance"; "darkResistance";
       "lightResistance"; "durability"; "weight"; "value"]
  | ACCESSORY =>
      ["health"; "mana"; "stamina"; "strength"; "dexterity"; "intelligence";
       "wisdom"; "constitution"; "luck"; "durability"; "weight"; "value"]
  | CONSUMABLE =>
      ["healingPower"; "manaPower"; "duration"; "stackSize"; "durability";
       "weight"; "value"]
  | MATERIAL =>
      ["purity"; "stackSize"; "craftingBonus"; "durability"; "weight"; "value"]
  | RUNE | ARTIFACT => ["durability"; "weight"; "value"]
  end.

(** Where the structured stats of an item type keep the stat of a flat
    name: the elemental resistances of an armor are nested. *)
Definition stat (t : ItemType) (stats : value) (k : string) : value :=
  match t with
  | ARMOR =>
      if String.eqb k "fireResistance" then
        get (get stats "elementalResistance") "fire"
      else if String.eqb k "iceResistance" then
        get (get stats "elementalResistance") "ice"
      else if String.eqb k "lightningResistance" then
        get (get stats "elementalResistance") "lightning"
      else if String.eqb k "poisonResistance" then
        get (get stats "elementalResistance") "poison"
      else if String.eqb k "darkResistance" then
        get (get stats "elementalResistance") "dark"
      else if String.eqb k "lightResistance" then
        get (get stats "elementalResistance") "light"
      else get stats k
  | _ => get stats k
  end.

(** The stats zod requires: [transformToStructuredStats] falls back to the
    baseline when the merged value of one of them is falsy. *)
Definition required (t : ItemType) (k : string) : bool :=
  match t with
  | WEAPON => String.eqb k "damage"
  | ARMOR => String.eqb k "defense"
  | _ => false
  end.

(** The merged value of a stat: the model's when it supplied the key, the
    baseline's otherwise. *)
Definition merged_stat (props baselineStats : list (string * value))
  (k : string) : value :=
  match lookup k props with
  | Some v => v
  | None => get (VObj baselineStats) k
  end.

(** A reply whose damage has a fractional part. *)
Definition fractional_damage : value :=
  VObj [("name", VStr "Flameheart"); ("type", VStr "Weapon");
        ("subType", VStr "Sword"); ("tier", VStr "Gold");
        ("description", VStr "A blade of living fire");
        ("stats", VObj [("damage", VNum 10.5)]); ("rarity", VNum 50)].

Abbreviation fractional_run :=
  (generateLoot half (always fractional_damage) "llama3.1" gold_sword initial).

(** What a computation returned, [undefined] when it threw. *)
Definition returned (result : Outcome value * World) : value :=
  match fst result with Returned v => v | Thrown _ => VUndefined end.

Abbreviation only_damage :=
  (transformToStructuredStats half (VObj [("damage", VNum 30)])
     (VStr (type_name WEAPON)) GOLD initial).

Abbreviation zero_damage_stats :=
  (returned (transformToStructuredStats half
               (VObj [("damage", VNum 0); ("attackSpeed", VNum 0)])
               (VStr "Weapon") BRONZE initial)).

(* ------------------------------------------------------------------ *)
(** ** The store *)

(** The order of code units, a collation to run the store with. *)
Definition codeunit_compare (a b : string) : Z :=
  match String_as_OT.compare a b with Lt => -1 | Eq => 0 | Gt => 1 end.

(** Two items are the same logical item: they agree on every hashed field,
    the magical properties up to their order and the stats with their keys
    in the same order.  Their rarities may differ. *)
Definition same_properties (o1 o2 : option (list MagicalProperty)) : Prop :=
  match o1, o2 with
  | Some l1, Some l2 => Permutation l1 l2
  | None, None => True
  | _, _ => False
  end.

Definition same_logical_item (i1 i2 : LootItem) : Prop :=
  item_name i1 = item_name i2
  /\ item_type i1 = item_type i2
  /\ item_subType i1 = item_subType i2
  /\ item_tier i1 = item_tier i2
  /\ item_description i1 = item_description i2
  /\ item_stats i1 = item_stats i2
  /\ same_properties (item_magicalProperties i1) (item_magicalProperties i2)
  /\ item_lore i1 = item_lore i2
  /\ item_setName i1 = item_setName i2.

(** No two different magical properties of the item have names that the
    collation ranks alike. *)
Definition untied (localeCompare : string -> string -> Z) (i : LootItem) : Prop :=
  forall l a b,
    item_magicalProperties i = Some l -> In a l -> In b l ->
    (by_name localeCompare a b <= 0)%Z -> (by_name localeCompare b a <= 0)%Z ->
    a = b.

(** The state of the [items] table: [hash] is unique, and no row has an id
    beyond the counter of [AUTOINCREMENT]. *)
Definition consistent (db : Store) : Prop :=
  NoDup (map hash (rows db))
  /\ Forall (fun row => (id row <= last_id db)%Z) (rows db).

(** The number of rows with a hash. *)
Definition rows_with (h : string) (db : Store) : nat :=
  length (filter (fun row => String.eqb (hash row) h) (rows db)).

(** Two properties of one name, and the items that list them in either
    order. *)
Definition ward_of_fire : MagicalProperty :=
  {| mp_name := "Ward"; mp_description := "Wards off fire";
     mp_magnitude := Some 5 |}.
Definition ward_of_ice : MagicalProperty :=
  {| mp_name := "Ward"; mp_description := "Wards off ice";
     mp_magnitude := Some 5 |}.

(** A cloak with the magical properties [l] and a rarity. *)
Definition warded (l : list MagicalProperty) (rarity' : Q) : LootItem :=
  {| item_name := "Twin Ward"; item_type := ARMOR; item_subType := "Cloak";
     item_tier := SILVER; item_description := "A cloak of two wards";
     item_stats := VObj [("defense", VNum 10)];
     item_magicalProperties := Some l; item_lore := None;
     item_setName := None; item_rarity := rarity' |}.

Abbreviation fire_first := (warded [ward_of_fire; ward_of_ice] 30).
Abbreviation ice_first := (warded [ward_of_ice; ward_of_fire] 30).

(** Two stat blocks hold the same stats: every key reads the same in both,
    whatever the order of their keys.  Two items agree on their stats in
    this sense, and on every other hashed field as the same logical item
    does. *)
Definition same_mapping (s1 s2 : value) : Prop :=
  forall k, get s1 k = get s2 k.

Definition same_stats_and_fields (i1 i2 : LootItem) : Prop :=
  item_name i1 = item_name i2
  /\ item_type i1 = item_type i2
  /\ item_subType i1 = item_subType i2
  /\ item_tier i1 = item_tier i2
  /\ item_description i1 = item_description i2
  /\ same_mapping (item_stats i1) (item_stats i2)
  /\ same_properties (item_magicalProperties i1) (item_magicalProperties i2)
  /\ item_lore i1 = item_lore i2
  /\ item_setName i1 = item_setName i2.

(** A shield with the stats [stats], and the shields that list the same two
    stats in either order. *)
Definition shield (stats : list (string * value)) : LootItem :=
  {| item_name := "Oak Shield"; item_type := ARMOR; item_subType := "Shield";
     item_tier := BRONZE; item_description := "A shield of old oak";
     item_stats := VObj stats; item_magicalProperties := None;
     item_lore := None; item_setName := None; item_rarity := 10 |}.

Abbreviation defense_first :=
  (shield [("defense", VNum 5); ("weight", VNum 3)]).
Abbreviation weight_first :=
  (shield [("weight", VNum 3); ("defense", VNum 5)]).

(** A property of another name. *)
Definition aura_of_light : MagicalProperty :=
  {| mp_name := "Aura"; mp_description := "Sheds light";
     mp_magnitude := None |}.

Abbreviation ward_first := (warded [ward_of_fire; aura_of_light] 25).
Abbreviation aura_first := (warded [aura_of_light; ward_of_fire] 38).

(* ------------------------------------------------------------------ *)
(** ** The queries *)

(** [a] was created no earlier than [b], by the order of their texts. *)
Definition newer_first (a b : DatabaseItem) : Prop :=
  (codeunit_compare (createdAt b) (createdAt a) <= 0)%Z.

(** What is taken of [ORDER BY createdAt DESC]: it rearranges the rows, and
    it lists no row before one with a later text. *)
Definition sorts_newest_first
  (ORDER_BY_createdAt_DESC : list DatabaseItem -> list DatabaseItem) : Prop :=
  forall l, Permutation l (ORDER_BY_createdAt_DESC l)
            /\ StronglySorted newer_first (ORDER_BY_createdAt_DESC l).

(** A sorter to run the queries with: it places each row before the first
    row that is not newer. *)
Fixpoint place (row : DatabaseItem) (l : list DatabaseItem) : list DatabaseItem :=
  match l with
  | [] => [row]
  | r :: rest =>
      if (codeunit_compare (createdAt r) (createdAt row) <=? 0)%Z
      then row :: r :: rest
      else r :: place row rest
  end.

Definition newest_first (l : list DatabaseItem) : list DatabaseItem :=
  fold_right place [] l.

(** The primary key: no two rows have the same id. *)
Definition primary_key (db : Store) : Prop := NoDup (map id (rows db)).

(** The sum of the counts of a [Record<LootTier, number>]. *)
Definition total_of (counts : list (LootTier * Z)) : Z :=
  fold_right Z.add 0%Z (map snd counts).

(** The count a [Record<LootTier, number>] has for a tier. *)
Fixpoint count_of (tier : LootTier) (counts : list (LootTier * Z)) : Z :=
  match counts with
  | [] => 0%Z
  | (t, n) :: rest =>
      if String.eqb (tier_name t) (tier_name tier) then n else count_of tier rest
  end.

(** A store of three items, saved one after the other. *)
Definition relic (name' : string) (tier' : LootTier) (setName' : option string)
  : LootItem :=
  {| item_name := name'; item_type := ARTIFACT; item_subType := "Ancient Relic";
     item_tier := tier'; item_description := "A relic";
     item_stats := VObj [("value", VNum 100)];
     item_magicalProperties := None; item_lore := None;
     item_setName := setName'; item_rarity := 30 |}.

Definition three_relics : Store :=
  Eval vm_compute in
    snd (saveItem codeunit_compare "2024-01-03T00:00:00.000Z"
           (relic "Crown" GOLD (Some "Regalia"))
      (snd (saveItem codeunit_compare "2024-01-02T00:00:00.000Z"
              (relic "Orb" BRONZE None)
         (snd (saveItem codeunit_compare "2024-01-01T00:00:00.000Z"
                 (relic "Sceptre" GOLD (Some "Regalia")) empty_store))))).

(** A clock that stands still, and the request for two Bronze swords. *)
Definition noon : nat -> string := fun _ => "2024-01-01T12:00:00.000Z".

Definition two_swords : GenerationOptions :=
  {| tier := BRONZE; count := 2; itemType := Some WEAPON;
     subType := Some "Sword"; setName := None; model := None |}.

(** The service replies twice with the same item, both times the draws are
    the same: the second item is the first again. *)
Abbreviation twice_the_same :=
  (generateAndSaveLoot half (always (success_item "Iron Blade" 8)) "llama3.1"
     codeunit_compare newest_first noon two_swords initial empty_store).

(* ------------------------------------------------------------------ *)
(** ** Requests without an item type *)

(** The console lines of [n] iterations after the [i]-th that each threw a
    [TypeError]. *)
Fixpoint type_errors (i : Z) (n : nat) : list (Z * Failure) :=
  match n with
  | O => []
  | S n' => ((i + 1)%Z, TypeError) :: type_errors (i + 1)%Z n'
  end.

(** A request for three Gold items of no type and no subtype. *)
Definition three_of_any_type : GenerationOptions :=
  {| tier := GOLD; count := 3; itemType := None; subType := None;
     setName := None; model := None |}.

Abbreviation any_type_run :=
  (generateLoot half (always flameheart) "llama3.1" three_of_any_type initial).

(** A request for a Silver helmet or other armor, the subtype left open. *)
Definition silver_armor : GenerationOptions :=
  {| tier := SILVER; count := 1; itemType := Some ARMOR; subType := None;
     setName := None; model := None |}.

(* ------------------------------------------------------------------ *)
(** ** The ranges of the baseline *)

(** The name under which the range table of an item type lists the range
    of a baseline stat: the four elemental resistances of an armor share
    one range, and so do the five attributes of an accessory. *)
Definition range_name (t : ItemType) (k : string) : string :=
  match t with
  | ARMOR =>
      if existsb (String.eqb k)
           ["fireResistance"; "iceResistance"; "lightningResistance";
            "poisonResistance"]
      then "elementalResistance" else k
  | ACCESSORY =>
      if existsb (String.eqb k)
           ["strength"; "dexterity"; "intelligence"; "wisdom"; "constitution"]
      then "attributes" else k
  | _ => k
  end.

(** The range [generateStatsForType] draws a stat from: the range of the
    item type's table for the tier, and for an item type without a table
    the three ranges of the [default] branch. *)
Definition baseline_range (t : option ItemType) (tier : LootTier) (k : string)
  : option Range :=
  match t with
  | Some RUNE | Some ARTIFACT | None =>
      find_range k
        [("durability", 50 -- 200); ("weight", 0.5 -- 5.0); ("value", 50 -- 500)]
  | Some t' => find_range (range_name t' k) (stat_ranges t' tier)
  end.

(** A stat of the baseline is a number within the range it is drawn from. *)
Definition within_its_range (t : option ItemType) (tier : LootTier)
  (entry : string * value) : Prop :=
  exists r q,
    baseline_range t tier (fst entry) = Some r
    /\ snd entry = VNum q
    /\ min r <= q <= max r.

(** A number that is an integer, and a range whose bounds are in order and
    have at most two decimal places. *)
Definition is_integer (q : Q) : bool := Qeq_bool (inject_Z (Qfloor q)) q.

Definition well_ranged (r : Range) : bool :=
  Qle_bool (min r) (max r)
  && is_integer (min r * 100) && is_integer (max r * 100).

Definition whole_ranged (r : Range) : bool :=
  well_ranged r && is_integer (min r) && is_integer (max r).

(* ------------------------------------------------------------------ *)
(** ** Validated items *)

(** The keys of a [LootItem]. *)
Definition LootItem_keys : list string :=
  ["name"; "type"; "subType"; "tier"; "description"; "stats";
   "magicalProperties"; "lore"; "setName"; "rarity"].

(** The keys an object has, those of undefined value included. *)
Definition keys (v : value) : list string :=
  match v with VObj props => map fst props | _ => [] end.

(** A reply for a potion, with the stats of a potion and a key of its
    own, and the request for one Silver potion. *)
Definition healing_draught : value :=
  VObj [("name", VStr "Healing Draught"); ("type", VStr "Consumable");
        ("subType", VStr "Potion"); ("tier", VStr "Silver");
        ("description", VStr "A vial of red liquid");
        ("stats", VObj [("healingPower", VNum 90); ("duration", VNum 12);
                        ("value", VNum 75)]);
        ("flavour", VStr "cherry"); ("rarity", VNum 30)].

Definition silver_potion : GenerationOptions :=
  {| tier := SILVER; count := 1; itemType := Some CONSUMABLE;
     subType := Some "Potion"; setName := None; model := None |}.

Abbreviation potion_run :=
  (generateLoot half (always healing_draught) "llama3.1" silver_potion initial).

(* ------------------------------------------------------------------ *)
(** ** Hashes *)

(** A character is a digit of lower-case hexadecimal notation. *)
Definition is_hex_digit (c : ascii) : bool :=
  let n := nat_of_ascii c in
  ((48 <=? n) && (n <=? 57) || (97 <=? n) && (n <=? 102))%nat.

Fixpoint all_hex (s : string) : bool :=
  match s with
  | EmptyString => true
  | String c rest => is_hex_digit c && all_hex rest
  end.

(* ------------------------------------------------------------------ *)
(** ** Stats in the store *)

(** The properties of an object once it was written as JSON and read
    again: those of undefined value are gone. *)
Fixpoint members_read_back (props : list (string * value))
  : list (string * value) :=
  match props with
  | [] => []
  | (k, VUndefined) :: rest => members_read_back rest
  | (k, x) :: rest => (k, JSON_roundtrip x) :: members_read_back rest
  end.

(** A Legendary chestpiece with resistances, as validated. *)
Definition dragon_plate : LootItem :=
  {| item_name := "Dragon Plate"; item_type := ARMOR;
     item_subType := "Chestpiece"; item_tier := LEGENDARY;
     item_description := "Scales of an elder dragon";
     item_stats :=
       VObj [("durability", VNum 300); ("weight", VUndefined);
             ("value", VNum 2000); ("defense", VNum 80);
             ("elementalResistance",
              VObj [("fire", VNum 45); ("ice", VUndefined)])];
     item_magicalProperties := None; item_lore := None;
     item_setName := None; item_rarity := 80 |}.

(* ------------------------------------------------------------------ *)
(** ** The prompt *)

(** The lines of the text [getTypeSpecificRequirements] makes for a Gold
    weapon. *)
Definition gold_weapon_lines : list Requirement :=
  match requirements (Some WEAPON) GOLD with
  | Some (_, lines) => lines
  | None => []
  end.

(* ------------------------------------------------------------------ *)
(** ** The rarity bar *)

(** A bar of [k] full cells followed by light ones, ten in all. *)
Definition bar_of (k : nat) : string :=
  String.concat "" (repeat full_block k)
  ++ String.concat "" (repeat light_shade (10 - k)).

(* ------------------------------------------------------------------ *)
(** ** The calls of the service *)

(** A call of the service follows the request: it goes to the model of the
    request, or to the default model when the request names none, and its
    prompt is made for the tier, the item type, the set name and, when the
    request names one, the subtype of the request. *)
Definition follows (defaultModel : string) (options : GenerationOptions)
  (request : ChatRequest) : Prop :=
  chat_model request = used_model defaultModel options
  /\ prompt_tier (chat_prompt request) = tier options
  /\ prompt_multiplier (chat_prompt request) = getTierMultiplier (tier options)
  /\ prompt_itemType (chat_prompt request) = itemType options
  /\ prompt_setName (chat_prompt request) = given (setName options)
  /\ (forall s, given (subType options) = Some s ->
                prompt_subType (chat_prompt request) = VStr s).

(* ------------------------------------------------------------------ *)
(** ** Replies the generator makes items of *)

Definition number_or_undefined (v : value) : Prop :=
  v = VUndefined \/ exists q, v = VNum q.

Definition string_or_undefined (v : value) : Prop :=
  v = VUndefined \/ exists s, v = VStr s.

(** A reply in the format the service is asked for, as far as the
    generator reads it: an object with a name and a description that are
    strings, stats that are numbers, and, if it has them, a subtype, a lore
    and a set name that are strings and magical properties that are an
    array of magical properties.  What it says of type, tier and rarity
    does not matter. *)
Definition well_formed_reply (g : value) : Prop :=
  exists props,
    g = VObj props
    /\ NoDup (map fst props)
    /\ (exists s, get g "name" = VStr s)
    /\ (exists s, get g "description" = VStr s)
    /\ string_or_undefined (get g "subType")
    /\ (exists stats,
          get g "stats" = VObj stats
          /\ Forall (fun entry => exists q, snd entry = VNum q) stats)
    /\ (exists properties,
          parse (ZOptional (ZArray MagicalPropertySchema))
            (get g "magicalProperties") = Some properties)
    /\ string_or_undefined (get g "lore")
    /\ string_or_undefined (get g "setName").

(** A set of three types, every reply well-formed. *)
Abbreviation ember_set :=
  (generateLootSet half (always flameheart) "llama3.1" "Ember" GOLD
     [WEAPON; ARMOR; ACCESSORY] None initial).

(* ================================================================== *)
(** * Properties *)

(** ** The stat range tables across tiers *)

Lemma find_range_In (k : string) (t : RangeTable) (r : Range) :
  find_range k t = Some r -> In (k, r) t.
Proof.
  induction t as [|[k' r'] rest IH]; simpl; [discriminate|].
  destruct (String.eqb_spec k k') as [->|_].
  - intros [= ->]. now left.
  - intros H. right. now apply IH.
Qed.

Lemma tables_scale (t : ItemType) (lower higher : LootTier) :
  (tier_rank lower <= tier_rank higher)%nat ->
  forallb (scales (stat_ranges t higher)) (stat_ranges t lower) = true.
Proof.
  destruct t, lower, higher; simpl tier_rank; intros H;
    first [ now vm_compute | exfalso; lia ].
Qed.

(** C4, as stated, fails: the least weight of a weapon falls from 1.0 at
    Bronze to 0.8 at Silver, so the lower bounds of a stat in the weapon
    table are not non-decreasing along the tiers. *)
Lemma weapon_weight_min_decreases :
  find_range "weight" (stat_ranges WEAPON BRONZE) = Some (1.0 -- 4.0)
  /\ find_range "weight" (stat_ranges WEAPON SILVER) = Some (0.8 -- 4.5)
  /\ (tier_rank BRONZE <= tier_rank SILVER)%nat
  /\ ~ (min (1.0 -- 4.0) <= min (0.8 -- 4.5)).
Proof.
  repeat split; try reflexivity.
  - simpl. lia.
  - unfold Qle. simpl. lia.
Qed.

(** C4, amended: for every stat-bearing item type and every stat name of
    its range table, along the tiers from Bronze to Celestial the upper
    bound never decreases, and the lower bound never decreases either,
    except for [weight], whose lower bound never increases (a higher tier
    allows lighter items). *)
Theorem stat_ranges_scale_with_tier
  (t : ItemType) (lower higher : LootTier) (k : string) (r r' : Range) :
  (tier_rank lower <= tier_rank higher)%nat ->
  find_range k (stat_ranges t lower) = Some r ->
  find_range k (stat_ranges t higher) = Some r' ->
  max r <= max r'
  /\ (k <> "weight" -> min r <= min r')
  /\ (k = "weight" -> min r' <= min r).
Proof.
  intros Hrank Hlow Hhigh.
  pose proof (tables_scale t lower higher Hrank) as Hall.
  rewrite forallb_forall in Hall.
  specialize (Hall (k, r) (find_range_In _ _ _ Hlow)).
  unfold scales in Hall. rewrite Hhigh in Hall.
  apply andb_true_iff in Hall as [Hmax Hmin].
  split; [now apply Qle_bool_imp_le|].
  destruct (String.eqb_spec k "weight") as [->|Hk].
  - split; [congruence|]. intros _. now apply Qle_bool_imp_le.
  - split; [|contradiction]. intros _. now apply Qle_bool_imp_le.
Qed.

Lemma stat_ranges_scale_with_tier_witness :
  (tier_rank GOLD <= tier_rank LEGENDARY)%nat
  /\ find_range "weight" (stat_ranges ARMOR GOLD) = Some (1.5 -- 18.0)
  /\ find_range "weight" (stat_ranges ARMOR LEGENDARY) = Some (1.0 -- 25.0)
  /\ max (1.5 -- 18.0) <= max (1.0 -- 25.0)
  /\ ("weight" <> "weight" -> min (1.5 -- 18.0) <= min (1.0 -- 25.0))
  /\ ("weight" = "weight" -> min (1.0 -- 25.0) <= min (1.5 -- 18.0)).
Proof.
  assert (Hrank : (tier_rank GOLD <= tier_rank LEGENDARY)%nat) by (simpl; lia).
  split; [exact Hrank|].
  split; [reflexivity|].
  split; [reflexivity|].
  exact (stat_ranges_scale_with_tier ARMOR GOLD LEGENDARY "weight"
           (1.5 -- 18.0) (1.0 -- 25.0) Hrank eq_refl eq_refl).
Defined.

(* ================================================================== *)
(** ** Objects: lookup after assignment *)

Lemma lookup_set_prop (k k' : string) (v : value) (l : list (string * value)) :
  lookup k (set_prop k' v l) = if String.eqb k k' then Some v else lookup k l.
Proof.
  induction l as [|[k1 v1] rest IH]; simpl.
  - reflexivity.
  - destruct (String.eqb_spec k' k1) as [->|Hne]; simpl.
    + destruct (String.eqb k k1); reflexivity.
    + destruct (String.eqb_spec k k1) as [->|Hne'].
      * destruct (String.eqb_spec k1 k') as [->|_]; [contradiction|reflexivity].
      * exact IH.
Qed.

Lemma lookup_app (k : string) (l1 l2 : list (string * value)) :
  lookup k (l1 ++ l2)
  = match lookup k l1 with Some v => Some v | None => lookup k l2 end.
Proof.
  induction l1 as [|[k1 v1] rest IH]; simpl; [reflexivity|].
  destruct (String.eqb k k1); [reflexivity|exact IH].
Qed.

Lemma lookup_assign (k : string) (src acc : list (string * value)) :
  lookup k (assign acc src)
  = match lookup k (rev src) with Some v => Some v | None => lookup k acc end.
Proof.
  unfold assign. revert acc.
  induction src as [|[k1 v1] rest IH]; intros acc; simpl; [reflexivity|].
  rewrite IH, lookup_app, lookup_set_prop. simpl.
  destruct (lookup k (rev rest)); [reflexivity|].
  destruct (String.eqb k k1); reflexivity.
Qed.

(** Replacing one property leaves the last binding of every other key. *)
Lemma lookup_rev_set_prop (k k' : string) (v : value) (l : list (string * value)) :
  k <> k' -> lookup k (rev (set_prop k' v l)) = lookup k (rev l).
Proof.
  intros Hne. induction l as [|[k1 v1] rest IH]; simpl.
  - destruct (String.eqb_spec k k'); [contradiction|reflexivity].
  - destruct (String.eqb_spec k' k1) as [->|Hne1]; simpl.
    + rewrite !lookup_app. simpl.
      destruct (String.eqb_spec k k1); [contradiction|reflexivity].
    + rewrite !lookup_app, IH. reflexivity.
Qed.

Lemma get_set_prop_other (k k' : string) (v : value) (l : list (string * value)) :
  k <> k' -> get (VObj (set_prop k' v l)) k = get (VObj l) k.
Proof.
  intros Hne. simpl. rewrite lookup_set_prop.
  destruct (String.eqb_spec k k'); [contradiction|reflexivity].
Qed.

(* ================================================================== *)
(** ** Schemas: induction, and what [parse] reads and returns *)

Section SchemaInduction.
Variable P : schema -> Prop.
Hypothesis P_string : P ZString.
Hypothesis P_number : forall lo hi, P (ZNumber lo hi).
Hypothesis P_enum : forall members, P (ZNativeEnum members).
Hypothesis P_optional : forall s, P s -> P (ZOptional s).
Hypothesis P_array : forall s, P s -> P (ZArray s).
Hypothesis P_object :
  forall shape, Forall (fun ks => P (snd ks)) shape -> P (ZObject shape).
Hypothesis P_union : forall options, Forall P options -> P (ZUnion options).

Fixpoint schema_induction (s : schema) : P s :=
  match s with
  | ZString => P_string
  | ZNumber lo hi => P_number lo hi
  | ZNativeEnum members => P_enum members
  | ZOptional s' => P_optional s' (schema_induction s')
  | ZArray s' => P_array s' (schema_induction s')
  | ZObject shape =>
      P_object shape
        ((fix each (sh : list (string * schema))
            : Forall (fun ks => P (snd ks)) sh :=
            match sh with
            | [] => Forall_nil _
            | ks :: rest => Forall_cons ks (schema_induction (snd ks)) (each rest)
            end) shape)
  | ZUnion options =>
      P_union options
        ((fix each (os : list schema) : Forall P os :=
            match os with
            | [] => Forall_nil _
            | s' :: rest => Forall_cons s' (schema_induction s') (each rest)
            end) options)
  end.
End SchemaInduction.

Lemma parse_object (shape : list (string * schema)) (props : list (string * value)) :
  parse (ZObject shape) (VObj props)
  = option_map VObj (parse_fields (VObj props) props shape).
Proof.
  simpl. f_equal.
  induction shape as [|[k s] rest IH]; simpl; [reflexivity|].
  rewrite IH. reflexivity.
Qed.

Lemma parse_union (options : list schema) (v : value) :
  parse (ZUnion options) v = parse_first v options.
Proof.
  simpl. induction options as [|s rest IH]; simpl; [reflexivity|].
  rewrite IH. reflexivity.
Qed.

(** [parse] reads an object through [lookup] only. *)
Lemma parse_fields_ext (p1 p2 : list (string * value)) (shape : list (string * schema)) :
  (forall k, lookup k p1 = lookup k p2) ->
  parse_fields (VObj p1) p1 shape = parse_fields (VObj p2) p2 shape.
Proof.
  intros Hsame. induction shape as [|[k s] rest IH]; simpl; [reflexivity|].
  unfold has_key. rewrite IH, (Hsame k). reflexivity.
Qed.

Lemma parse_ext (s : schema) (p1 p2 : list (string * value)) :
  (forall k, lookup k p1 = lookup k p2) ->
  parse s (VObj p1) = parse s (VObj p2).
Proof.
  intros Hsame. induction s using schema_induction; try reflexivity.
  - simpl. exact IHs.
  - rewrite !parse_object. f_equal. now apply parse_fields_ext.
  - rewrite !parse_union.
    induction H as [|s rest Hs _ IH]; simpl; [reflexivity|].
    rewrite Hs, IH. reflexivity.
Qed.

(** The keys of a parsed object are keys of the shape. *)
Lemma parse_fields_keys (v : value) (props : list (string * value))
  (shape : list (string * schema)) (out : list (string * value)) (k : string) :
  parse_fields v props shape = Some out ->
  ~ In k (map fst shape) -> lookup k out = None.
Proof.
  revert out. induction shape as [|[k1 s] rest IH]; simpl; intros out Hparse Hk.
  - injection Hparse as <-. reflexivity.
  - destruct (parse s (get v k1)) as [x|]; [|discriminate].
    destruct (parse_fields v props rest) as [out'|]; [|discriminate].
    injection Hparse as <-.
    assert (Hrest : lookup k out' = None) by (apply IH; [reflexivity|tauto]).
    destruct (has_key k1 props || defined x); [|exact Hrest].
    simpl. destruct (String.eqb_spec k k1) as [->|_]; [tauto|exact Hrest].
Qed.

(** Each field of a parsed object is the output of its field schema. *)
Lemma parse_fields_get (v : value) (props : list (string * value))
  (shape : list (string * schema)) (out : list (string * value))
  (k : string) (s : schema) :
  NoDup (map fst shape) ->
  parse_fields v props shape = Some out ->
  In (k, s) shape ->
  parse s (get v k) = Some (get (VObj out) k).
Proof.
  revert out. induction shape as [|[k1 s1] rest IH]; simpl; intros out Hnd Hparse Hin.
  - contradiction.
  - inversion Hnd as [|? ? Hfresh Hnd']; subst.
    destruct (parse s1 (get v k1)) as [x|] eqn:Hx; [|discriminate].
    destruct (parse_fields v props rest) as [out'|] eqn:Hrest; [|discriminate].
    injection Hparse as <-.
    destruct Hin as [[= -> ->]|Hin].
    + rewrite Hx. f_equal.
      pose proof (parse_fields_keys _ _ _ _ k Hrest Hfresh) as Hnone.
      destruct (has_key k props || defined x) eqn:Hkeep; simpl.
      * now rewrite String.eqb_refl.
      * rewrite Hnone. apply orb_false_iff in Hkeep as [_ Hdef].
        destruct x; simpl in Hdef; try discriminate. reflexivity.
    + assert (Hne : k <> k1).
      { intros ->. apply Hfresh. now apply (in_map fst) in Hin. }
      rewrite (IH out' Hnd' eq_refl Hin).
      destruct (has_key k1 props || defined x); [|reflexivity].
      simpl. destruct (String.eqb_spec k k1); [contradiction|reflexivity].
Qed.

Lemma parse_fields_total (v : value) (props : list (string * value))
  (shape : list (string * schema)) :
  Forall (fun ks => exists x, parse (snd ks) (get v (fst ks)) = Some x) shape ->
  exists out, parse_fields v props shape = Some out.
Proof.
  induction 1 as [|[k s] rest [x Hx] _ [out Hout]]; simpl.
  - now exists [].
  - simpl in Hx. rewrite Hx, Hout. eauto.
Qed.

Lemma parse_first_In (v x : value) (options : list schema) :
  parse_first v options = Some x -> exists s, In s options /\ parse s v = Some x.
Proof.
  induction options as [|s rest IH]; simpl; [discriminate|].
  destruct (parse s v) as [y|] eqn:Hy.
  - intros [= <-]. exists s. auto.
  - intros H. destruct (IH H) as (s' & Hin & Hs'). exists s'. auto.
Qed.

Lemma parse_first_total (v x : value) (options : list schema) (s : schema) :
  In s options -> parse s v = Some x -> exists y, parse_first v options = Some y.
Proof.
  induction options as [|s' rest IH]; simpl; [contradiction|].
  intros [->|Hin] Hs.
  - rewrite Hs. eauto.
  - destruct (parse s' v); eauto.
Qed.

Lemma sequence_Forall2 {A B : Type} (f : A -> option B) (l : list A) (l' : list B) :
  sequence (map f l) = Some l' -> Forall2 (fun a b => f a = Some b) l l'.
Proof.
  revert l'. induction l as [|a rest IH]; simpl; intros l'.
  - intros [= <-]. constructor.
  - destruct (f a) as [b|] eqn:Hb; [|discriminate].
    destruct (sequence (map f rest)) as [bs|]; [|discriminate].
    intros [= <-]. constructor; auto.
Qed.

Lemma sequence_total {A B : Type} (f : A -> option B) (l : list A) :
  Forall (fun a => exists b, f a = Some b) l ->
  exists l', sequence (map f l) = Some l'.
Proof.
  induction 1 as [|a rest [b Hb] _ [bs Hbs]]; simpl.
  - eauto.
  - rewrite Hb, Hbs. eauto.
Qed.

Lemma distinct_keys_NoDup (keys : list string) :
  distinct_keys keys = true -> NoDup keys.
Proof.
  induction keys as [|k rest IH]; simpl; intros H; constructor.
  - apply andb_true_iff in H as [H _]. intros Hin.
    apply negb_true_iff in H.
    assert (existsb (String.eqb k) rest = true); [|congruence].
    apply existsb_exists. exists k. split; [exact Hin|apply String.eqb_refl].
  - apply andb_true_iff in H as [_ H]. auto.
Qed.

(** Validation is stable: what a well-formed schema returns, it accepts. *)
Lemma parse_output_accepted (s : schema) :
  well_formed s = true ->
  forall v v', parse s v = Some v' -> exists v'', parse s v' = Some v''.
Proof.
  induction s using schema_induction; intros Hwf v v' Hparse.
  - destruct v; try discriminate. injection Hparse as <-. simpl. eauto.
  - simpl in Hparse. destruct v; try discriminate.
    destruct (within lo hi q) eqn:Hq; [|discriminate].
    injection Hparse as <-. simpl. rewrite Hq. eauto.
  - simpl in Hparse. destruct v; try discriminate.
    destruct (existsb (String.eqb s) members) eqn:Hm; [|discriminate].
    injection Hparse as <-. simpl. rewrite Hm. eauto.
  - simpl in Hparse. destruct v.
    1: { injection Hparse as <-. simpl. eauto. }
    all: destruct (IHs Hwf _ _ Hparse) as [v'' Hv''];
      destruct v'; simpl; eauto.
  - simpl in Hparse. destruct v; try discriminate.
    destruct (sequence (map (parse s) l)) as [l'|] eqn:Hl; [|discriminate].
    injection Hparse as <-. simpl.
    apply sequence_Forall2 in Hl.
    destruct (sequence_total (parse s) l') as [l'' Hl''].
    { clear - Hl IHs Hwf. induction Hl as [|a b ? ? Hab _ IH]; constructor; eauto. }
    rewrite Hl''. simpl. eauto.
  - destruct v; try discriminate.
    rewrite parse_object in Hparse.
    destruct (parse_fields (VObj props) props shape) as [out|] eqn:Hout;
      [|discriminate].
    injection Hparse as <-. rewrite parse_object.
    simpl in Hwf. apply andb_true_iff in Hwf as [Hkeys Heach].
    apply distinct_keys_NoDup in Hkeys.
    destruct (parse_fields_total (VObj out) out shape) as [out' Hout'].
    { apply Forall_forall. intros [k s] Hin. simpl.
      pose proof (parse_fields_get _ _ _ _ _ _ Hkeys Hout Hin) as Hfield.
      rewrite Forall_forall in H. apply (H (k, s) Hin) with (v := get (VObj props) k).
      - clear - Heach Hin. induction shape as [|ks rest IH]; [contradiction|].
        apply andb_true_iff in Heach as [Hks Hrest].
        destruct Hin as [->|Hin]; [exact Hks|auto].
      - exact Hfield. }
    rewrite Hout'. simpl. eauto.
  - rewrite parse_union in *.
    destruct (parse_first_In _ _ _ Hparse) as (s & Hin & Hs).
    rewrite Forall_forall in H.
    destruct (H s Hin) with (v := v) (v' := v') as [v'' Hv'']; [|exact Hs|].
    + clear - Hwf Hin. simpl in Hwf. induction options as [|s' rest IH]; [contradiction|].
      apply andb_true_iff in Hwf as [Hs' Hrest].
      destruct Hin as [->|Hin]; [exact Hs'|auto].
    + eapply parse_first_total; eauto.
Qed.

(* ================================================================== *)
(** ** Computations *)

Lemma bind_returned {A B : Type} (m : Eff A) (k : A -> Eff B)
  (w w' : World) (b : B) :
  bind m k w = (Returned b, w') ->
  exists a w1, m w = (Returned a, w1) /\ k a w1 = (Returned b, w').
Proof.
  unfold bind. destruct (m w) as [[a|e] w1]; [eauto|discriminate].
Qed.

Lemma bind_ext {A B : Type} (m : Eff A) (k1 k2 : A -> Eff B) (w : World) :
  (forall a w1, k1 a w1 = k2 a w1) -> bind m k1 w = bind m k2 w.
Proof.
  intros Hk. unfold bind. destruct (m w) as [[a|e] w1]; [apply Hk|reflexivity].
Qed.

Lemma structured_lookup (options : GenerationOptions)
  (g ty sub st rar : value) (key : string) :
  lookup key (structured options g ty sub st rar)
  = match given (setName options) with
    | Some s => if String.eqb key "setName" then Some (VStr s) else
        if String.eqb key "rarity" then Some rar else
        if String.eqb key "stats" then Some st else
        if String.eqb key "subType" then Some sub else
        if String.eqb key "tier" then Some (VStr (tier_name (tier options))) else
        if String.eqb key "type" then Some ty else
        lookup key (assign [] (own_props g))
    | None =>
        if String.eqb key "rarity" then Some rar else
        if String.eqb key "stats" then Some st else
        if String.eqb key "subType" then Some sub else
        if String.eqb key "tier" then Some (VStr (tier_name (tier options))) else
        if String.eqb key "type" then Some ty else
        lookup key (assign [] (own_props g))
    end.
Proof.
  unfold structured. destruct (given (setName options));
    rewrite !lookup_set_prop; reflexivity.
Qed.

Lemma structured_governed (options : GenerationOptions) (k : string) (x : value)
  (props : list (string * value)) (ty sub st rar : value) (key : string) :
  governed options k ->
  lookup key (structured options (VObj (set_prop k x props)) ty sub st rar)
  = lookup key (structured options (VObj props) ty sub st rar).
Proof.
  intros Hk. rewrite !structured_lookup. simpl own_props.
  rewrite !lookup_assign.
  destruct (String.eqb_spec key k) as [->|Hne].
  - destruct Hk as [->|[->|[[-> _]|[[-> _]|[-> Hset]]]]];
      destruct (given (setName options)); try reflexivity.
    now contradiction Hset.
  - rewrite (lookup_rev_set_prop _ _ _ _ Hne). reflexivity.
Qed.

Lemma reconcile_governed (random : nat -> Q) (options : GenerationOptions)
  (k : string) (x : value) (props : list (string * value)) (w : World) :
  governed options k ->
  reconcile random options (VObj (set_prop k x props)) w
  = reconcile random options (VObj props) w.
Proof.
  intros Hk.
  assert (Hstats : prop (VObj (set_prop k x props)) "stats"
                   = prop (VObj props) "stats").
  { simpl prop. f_equal. apply get_set_prop_other.
    destruct Hk as [->|[->|[[-> _]|[[-> _]|[-> _]]]]]; discriminate. }
  assert (Htype : requested_type options (VObj (set_prop k x props))
                  = requested_type options (VObj props)).
  { unfold requested_type. destruct (itemType options) eqn:Ht; [reflexivity|].
    simpl prop. f_equal. apply get_set_prop_other.
    destruct Hk as [->|[->|[[-> Hk]|[[-> _]|[-> _]]]]];
      try discriminate. now contradiction Hk. }
  unfold reconcile. rewrite Hstats, Htype.
  apply bind_ext. intros ty w1.
  destruct (given (subType options)) eqn:Hsub.
  - do 5 (apply bind_ext; intros).
    unfold LootItemSchema_parse.
    rewrite (parse_ext LootItemSchema _ _
               (fun key => structured_governed options k x props _ _ _ _ key Hk)).
    reflexivity.
  - assert (Hsubtype : prop (VObj (set_prop k x props)) "subType"
                       = prop (VObj props) "subType").
    { simpl prop. f_equal. apply get_set_prop_other.
      destruct Hk as [->|[->|[[-> _]|[[-> Hk]|[-> _]]]]];
        try discriminate. now contradiction Hk. }
    rewrite Hsubtype.
    do 5 (apply bind_ext; intros).
    unfold LootItemSchema_parse.
    rewrite (parse_ext LootItemSchema _ _
               (fun key => structured_governed options k x props _ _ _ _ key Hk)).
    reflexivity.
Qed.

Lemma attempt_governed (random : nat -> Q) (chat : nat -> ChatRequest -> Reply)
  (options : GenerationOptions) (model' : string) (k : string)
  (x : nat -> value) (w : World) :
  governed options k ->
  attempt random (claiming k x chat) options model' w
  = attempt random chat options model' w.
Proof.
  intros Hk. unfold attempt.
  apply bind_ext. intros prompt w1.
  unfold bind, ollama_chat, claiming.
  destruct (chat (length (chats w1)) _) as [|[g|]]; simpl; try reflexivity.
  destruct g; simpl; try reflexivity.
  now apply reconcile_governed.
Qed.

Lemma generateLoot_governed (random : nat -> Q)
  (chat : nat -> ChatRequest -> Reply) (defaultModel : string)
  (options : GenerationOptions) (k : string) (x : nat -> value) (w : World) :
  governed options k ->
  generateLoot random (claiming k x chat) defaultModel options w
  = generateLoot random chat defaultModel options w.
Proof.
  intros Hk. unfold generateLoot.
  generalize (enter options w) as w0, (@nil value) as items, 0%Z as i.
  induction (Z.to_nat (count options)) as [|n IH]; intros; simpl; [reflexivity|].
  rewrite (attempt_governed _ _ _ _ _ _ _ Hk).
  destruct (attempt random chat options _ w0) as [[item|e] w1]; apply IH.
Qed.

Lemma parse_transparent (s : schema) :
  transparent s = true -> forall v x, parse s v = Some x -> x = v.
Proof.
  induction s using schema_induction; intros Ht v x Hparse;
    try discriminate.
  - destruct v; try discriminate. now injection Hparse.
  - simpl in Hparse. destruct v; try discriminate.
    destruct (within lo hi q); [now injection Hparse|discriminate].
  - simpl in Hparse. destruct v; try discriminate.
    destruct (existsb _ _); [now injection Hparse|discriminate].
  - simpl in Hparse. destruct v; try (now apply IHs).
    now injection Hparse.
  - rewrite parse_union in Hparse.
    destruct (parse_first_In _ _ _ Hparse) as (s & Hin & Hs).
    rewrite Forall_forall in H. apply (H s Hin); [|exact Hs].
    clear - Ht Hin. simpl in Ht. induction options as [|s' rest IH]; [contradiction|].
    apply andb_true_iff in Ht as [Hs' Hrest].
    destruct Hin as [->|Hin]; [exact Hs'|auto].
Qed.

(** Each property of a validated item is what its field schema returns for
    the property of the same name of the validated object. *)
Lemma validated_field (st : list (string * value)) (item : value)
  (k : string) (s : schema) :
  parse LootItemSchema (VObj st) = Some item ->
  In (k, s) (shape_of LootItemSchema) ->
  parse s (get (VObj st) k) = Some (get item k).
Proof.
  unfold LootItemSchema at 1. rewrite parse_object.
  destruct (parse_fields _ _ _) as [out|] eqn:Hout; [|discriminate].
  intros [= <-] Hin.
  eapply parse_fields_get; eauto.
  apply distinct_keys_NoDup. reflexivity.
Qed.

Lemma validated_transparent (st : list (string * value)) (item : value)
  (k : string) (s : schema) :
  parse LootItemSchema (VObj st) = Some item ->
  In (k, s) (shape_of LootItemSchema) ->
  transparent s = true ->
  get item k = get (VObj st) k.
Proof.
  intros Hparse Hin Ht.
  exact (parse_transparent s Ht _ _ (validated_field _ _ _ _ Hparse Hin)).
Qed.

Lemma requested_type_returned (options : GenerationOptions) (g ty : value)
  (w w' : World) (t : ItemType) :
  requested_type options g w = (Returned ty, w') ->
  itemType options = Some t -> ty = VStr (type_name t).
Proof.
  unfold requested_type. intros H Ht. rewrite Ht in H.
  unfold ret in H. now injection H as <- _.
Qed.

(** What a successful [reconcile] returns: the validated form of a
    [structuredItem] whose type, subtype, stats and rarity come from the
    request, the baseline and a roll. *)
Lemma reconcile_returned (random : nat -> Q) (options : GenerationOptions)
  (g item : value) (w w' : World) :
  reconcile random options g w = (Returned item, w') ->
  exists ty sub st rar,
    parse LootItemSchema (VObj (structured options g ty sub st rar)) = Some item
    /\ (forall t, itemType options = Some t -> ty = VStr (type_name t))
    /\ (forall s, given (subType options) = Some s -> sub = VStr s)
    /\ (exists n, rar = VNum (rolled (tier options) (random n)))
    /\ (exists ai tyv w0 w1,
          transformToStructuredStats random ai tyv (tier options) w0
          = (Returned st, w1)
          /\ forall t, itemType options = Some t -> tyv = VStr (type_name t)).
Proof.
  unfold reconcile. intros H.
  apply bind_returned in H as (ty & w1 & Hty & H).
  apply bind_returned in H as (sub & w2 & Hsub & H).
  apply bind_returned in H as (ai & w3 & Hai & H).
  apply bind_returned in H as (tyv & w4 & Htyv & H).
  apply bind_returned in H as (st & w5 & Hst & H).
  apply bind_returned in H as (rar & w6 & Hrar & H).
  exists ty, sub, st, rar. repeat split.
  - unfold LootItemSchema_parse in H.
    destruct (parse LootItemSchema _) as [item'|]; [|discriminate].
    unfold ret in H. now injection H as -> _.
  - intros t Ht. eapply requested_type_returned; eauto.
  - intros s Hs. rewrite Hs in Hsub. unfold ret in Hsub. now injection Hsub as <- _.
  - exists (draws w5). unfold roll_rarity, bind, Math_random, ret in Hrar.
    now injection Hrar as <- _.
  - exists ai, tyv, w4, w5. split; [exact Hst|].
    intros t Ht. eapply requested_type_returned; eauto.
Qed.

Lemma attempt_returned (random : nat -> Q) (chat : nat -> ChatRequest -> Reply)
  (options : GenerationOptions) (model' : string) (item : value) (w w' : World) :
  attempt random chat options model' w = (Returned item, w') ->
  exists g w1, reconcile random options g w1 = (Returned item, w').
Proof.
  unfold attempt. intros H.
  apply bind_returned in H as (prompt & w1 & _ & H).
  apply bind_returned in H as (response & w2 & _ & H).
  apply bind_returned in H as (g & w3 & _ & H).
  eauto.
Qed.

(** What holds of every item a successful attempt returns holds of every
    item [generateLoot] returns. *)
Lemma generateLoot_loop_Forall (random : nat -> Q)
  (chat : nat -> ChatRequest -> Reply) (options : GenerationOptions)
  (model' : string) (P : value -> Prop) :
  (forall item w w', attempt random chat options model' w = (Returned item, w')
                     -> P item) ->
  forall n i items w,
    Forall P items ->
    Forall P (fst (generateLoot_loop random chat options model' n i items w)).
Proof.
  intros HP. induction n as [|n IH]; intros i items w Hitems; simpl.
  - exact Hitems.
  - destruct (attempt random chat options model' w) as [[item|e] w1] eqn:Hat.
    + apply IH. apply Forall_app. split; [exact Hitems|].
      constructor; [|constructor]. eapply HP; eauto.
    + apply IH. exact Hitems.
Qed.

Lemma generateLoot_Forall (random : nat -> Q)
  (chat : nat -> ChatRequest -> Reply) (defaultModel : string)
  (options : GenerationOptions) (P : value -> Prop) (w : World) :
  (forall g item w0 w1, reconcile random options g w0 = (Returned item, w1)
                        -> P item) ->
  Forall P (fst (generateLoot random chat defaultModel options w)).
Proof.
  intros HP. unfold generateLoot. apply generateLoot_loop_Forall; [|constructor].
  intros item w0 w1 Hat.
  destruct (attempt_returned _ _ _ _ _ _ _ Hat) as (g & w2 & Hrec). eauto.
Qed.

(* ================================================================== *)
(** ** Rounding to the nearest double *)

Lemma round_half_even_Z (z : Z) : round_half_even (inject_Z z) = z.
Proof.
  unfold round_half_even. rewrite Qfloor_Z.
  assert (H : inject_Z z - inject_Z z == 0) by ring.
  rewrite H. reflexivity.
Qed.

Lemma round_half_even_floor (q : Q) :
  (Qfloor q <= round_half_even q <= Qfloor q + 1)%Z.
Proof.
  unfold round_half_even.
  destruct (Qcompare _ _); [destruct (Z.even _)| |]; lia.
Qed.

Lemma round_half_even_le (a b : Q) :
  a <= b -> (round_half_even a <= round_half_even b)%Z.
Proof.
  intros Hab.
  pose proof (Qfloor_resp_le _ _ Hab) as Hfloor.
  pose proof (round_half_even_floor a) as Ha.
  pose proof (round_half_even_floor b) as Hb.
  destruct (Z.eq_dec (Qfloor a) (Qfloor b)) as [Heq|Hne]; [|lia].
  unfold round_half_even in *. rewrite <- Heq in *.
  destruct (Qcompare_spec (a - inject_Z (Qfloor a)) (1 # 2)) as [Ea|La|Ga];
    destruct (Qcompare_spec (b - inject_Z (Qfloor a)) (1 # 2)) as [Eb|Lb|Gb];
    try destruct (Z.even (Qfloor a)); try lia; exfalso; lra.
Qed.

Lemma floor_below_power (s : Q) (e : Z) :
  (0 <= e)%Z -> (Qfloor s < 2 ^ e)%Z -> s < inject_Z (2 ^ e).
Proof.
  intros He H.
  apply Qlt_le_trans with (inject_Z (Qfloor s + 1)); [apply Qlt_floor|].
  rewrite <- Zle_Qle. lia.
Qed.

Lemma scaled_power (e c : Z) :
  (0 <= c <= e)%Z ->
  inject_Z (2 ^ e) / inject_Z (2 ^ c) == inject_Z (2 ^ (e - c)).
Proof.
  intros H.
  assert (Hc : ~ inject_Z (2 ^ c) == 0).
  { change 0 with (inject_Z 0). rewrite inject_Z_injective. lia. }
  replace e with ((e - c) + c)%Z at 1 by lia.
  rewrite Z.pow_add_r, inject_Z_mult by lia.
  now apply Qdiv_mult_l.
Qed.

Lemma scaled_le (a b : Q) (c : Z) :
  a <= b -> a / inject_Z (2 ^ c) <= b / inject_Z (2 ^ c).
Proof.
  intros H. unfold Qdiv. apply Qmult_le_compat_r; [exact H|].
  apply Qinv_le_0_compat. change 0 with (inject_Z 0).
  rewrite <- Zle_Qle. apply Z.pow_nonneg. lia.
Qed.

(** Rounding on the grid of spacing [2 ^ c] keeps a number on the side of a
    power of two it is on. *)
Lemma round_below_power (s : Q) (e c : Z) :
  (0 <= c <= e)%Z -> s <= inject_Z (2 ^ e) ->
  (round_half_even (s / inject_Z (2 ^ c)) * 2 ^ c <= 2 ^ e)%Z.
Proof.
  intros Hc Hs.
  assert (H : (round_half_even (s / inject_Z (2 ^ c)) <= 2 ^ (e - c))%Z).
  { rewrite <- (round_half_even_Z (2 ^ (e - c))).
    apply round_half_even_le. rewrite <- scaled_power by exact Hc.
    now apply scaled_le. }
  assert (Hpow : (2 ^ e = 2 ^ (e - c) * 2 ^ c)%Z)
    by (rewrite <- Z.pow_add_r by lia; f_equal; lia).
  rewrite Hpow.
  apply Z.mul_le_mono_nonneg_r; [apply Z.pow_nonneg; lia|exact H].
Qed.

Lemma round_above_power (s : Q) (e c : Z) :
  (0 <= c <= e)%Z -> inject_Z (2 ^ e) <= s ->
  (2 ^ e <= round_half_even (s / inject_Z (2 ^ c)) * 2 ^ c)%Z.
Proof.
  intros Hc Hs.
  assert (H : (2 ^ (e - c) <= round_half_even (s / inject_Z (2 ^ c)))%Z).
  { rewrite <- (round_half_even_Z (2 ^ (e - c))) at 1.
    apply round_half_even_le. rewrite <- scaled_power by exact Hc.
    now apply scaled_le. }
  assert (Hpow : (2 ^ e = 2 ^ (e - c) * 2 ^ c)%Z)
    by (rewrite <- Z.pow_add_r by lia; f_equal; lia).
  rewrite Hpow.
  apply Z.mul_le_mono_nonneg_r; [apply Z.pow_nonneg; lia|exact H].
Qed.

(** Rounding to the nearest double is monotone. *)
Lemma binary64_le (q q' : Q) : 0 <= q -> q <= q' -> binary64 q <= binary64 q'.
Proof.
  intros H0 Hle. unfold binary64.
  assert (HP : 0 < inject_Z (2 ^ 1074)).
  { change 0 with (inject_Z 0). rewrite <- Zlt_Qlt. now apply Z.pow_pos_nonneg. }
  set (P := inject_Z (2 ^ 1074)) in *.
  assert (Hs : 0 <= q * P) by (apply Qmult_le_0_compat; [exact H0|now apply Qlt_le_weak]).
  assert (Hss : q * P <= q' * P) by (apply Qmult_le_compat_r; [exact Hle|now apply Qlt_le_weak]).
  assert (Hs' : 0 <= q' * P) by (eapply Qle_trans; eauto).
  set (s := q * P) in *. set (s' := q' * P) in *.
  rewrite (Qfloor_comp _ _ (Qabs_pos s Hs)), (Qfloor_comp _ _ (Qabs_pos s' Hs')).
  assert (Hn : (0 <= Qfloor s)%Z).
  { change 0%Z with (Qfloor 0). now apply Qfloor_resp_le. }
  pose proof (Qfloor_resp_le _ _ Hss) as Hnn.
  pose proof (Z.log2_le_mono _ _ Hnn) as Hlog.
  pose proof (Z.log2_nonneg (Qfloor s)) as Hlog0.
  set (n := Qfloor s) in *. set (n' := Qfloor s') in *.
  set (c := Z.max (Z.log2 n - 52) 0). set (c' := Z.max (Z.log2 n' - 52) 0).
  unfold Qdiv at 1 3. apply Qmult_le_compat_r;
    [|apply Qinv_le_0_compat; now apply Qlt_le_weak].
  rewrite <- Zle_Qle.
  destruct (Z.eq_dec c c') as [Heq|Hne].
  - rewrite <- Heq. apply Z.mul_le_mono_nonneg_r; [apply Z.pow_nonneg; lia|].
    apply round_half_even_le. now apply scaled_le.
  - assert (Hc' : (c' = Z.log2 n' - 52 /\ c < c' /\ 0 <= c)%Z) by lia.
    destruct Hc' as (Hc' & Hlt & Hc0).
    assert (Hpos : (0 < n')%Z).
    { destruct (Z.le_gt_cases n' 0) as [Hle0|Hgt]; [|lia].
      pose proof (Z.log2_nonpos n' Hle0). lia. }
    pose proof (Z.log2_spec n' Hpos) as [Hlow _].
    assert (Hhigh : (n < 2 ^ Z.log2 n')%Z).
    { destruct (Z.eq_dec n 0) as [->|Hn0]; [apply Z.pow_pos_nonneg; lia|].
      assert (Hnpos : (0 < n)%Z) by lia.
      pose proof (Z.log2_spec n Hnpos) as [_ Hup].
      eapply Z.lt_le_trans; [exact Hup|].
      apply Z.pow_le_mono_r; lia. }
    apply Z.le_trans with (2 ^ Z.log2 n')%Z.
    + apply round_below_power; [lia|].
      apply Qlt_le_weak, floor_below_power; [lia|exact Hhigh].
    + apply round_above_power; [lia|].
      apply Qle_trans with (inject_Z n'); [now rewrite <- Zle_Qle|].
      apply Qfloor_le.
Qed.

(** What a double bounds, it bounds after rounding. *)
Lemma binary64_below (q d : Q) :
  0 <= q -> q <= d -> binary64 d == d -> binary64 q <= d.
Proof.
  intros H0 Hle Hd. rewrite <- Hd. now apply binary64_le.
Qed.

Lemma binary64_above (q d : Q) :
  0 <= d -> d <= q -> binary64 d == d -> d <= binary64 q.
Proof.
  intros H0 Hle Hd. rewrite <- Hd at 1. now apply binary64_le.
Qed.

(* ================================================================== *)
(** ** The rarity roll *)

Lemma floor_between (a b : Z) (y : Q) :
  inject_Z a <= y -> y < inject_Z (b + 1) -> (a <= Qfloor y <= b)%Z.
Proof.
  intros Hlow Hhigh. split.
  - rewrite <- (Qfloor_Z a). now apply Qfloor_resp_le.
  - assert (H : inject_Z (Qfloor y) < inject_Z (b + 1)).
    { eapply Qle_lt_trans; [apply Qfloor_le|exact Hhigh]. }
    rewrite <- Zlt_Qlt in H. lia.
Qed.

Lemma binary64_zero : binary64 0 == 0.
Proof. vm_compute. reflexivity. Qed.

(** A higher draw rolls no lower rarity. *)
Lemma rolled_le (tier : LootTier) (x x' : Q) :
  0 <= x -> x <= x' -> rolled tier x <= rolled tier x'.
Proof.
  intros H0 Hle. unfold rolled, Math_floor.
  set (k := max (getRarityRange tier) - min (getRarityRange tier) + 1).
  set (m := min (getRarityRange tier)).
  assert (Hk : 0 <= k) by (destruct tier; vm_compute; discriminate).
  assert (Hm : 0 <= m) by (destruct tier; vm_compute; discriminate).
  assert (Hprod : 0 <= x * k) by now apply Qmult_le_0_compat.
  assert (Hp : 0 <= binary64 (x * k)).
  { rewrite <- binary64_zero. apply binary64_le; [apply Qle_refl|exact Hprod]. }
  rewrite <- Zle_Qle. apply Qfloor_resp_le. apply binary64_le.
  - rewrite <- (Qplus_0_r 0). now apply Qplus_le_compat.
  - apply Qplus_le_compat; [|apply Qle_refl].
    apply binary64_le; [exact Hprod|]. now apply Qmult_le_compat_r.
Qed.

(** The rolls at the ends of the interval, and at [1 - 2 ^ -50]. *)
Lemma rolled_ends (tier : LootTier) :
  rolled tier 0 = min (getRarityRange tier)
  /\ rolled tier safe_draw = max (getRarityRange tier)
  /\ rolled tier 1 = max (getRarityRange tier) + 1.
Proof. destruct tier; vm_compute; auto. Qed.

Lemma rolled_integer (tier : LootTier) (x : Q) :
  exists z : Z, rolled tier x = inject_Z z.
Proof. unfold rolled, Math_floor. eauto. Qed.

(** A roll is at least the [min] of its band and at most [max + 1]; from a
    draw of at most [1 - 2 ^ -50] it is at most [max]. *)
Lemma roll_near_band (tier : LootTier) (x : Q) :
  0 <= x < 1 ->
  min (getRarityRange tier) <= rolled tier x <= max (getRarityRange tier) + 1
  /\ (x <= safe_draw -> rolled tier x <= max (getRarityRange tier)).
Proof.
  intros [H0 H1].
  destruct (rolled_ends tier) as (Hmin & Hsafe & Hmax).
  repeat split.
  - rewrite <- Hmin. apply rolled_le; [apply Qle_refl|exact H0].
  - rewrite <- Hmax. apply rolled_le; [exact H0|now apply Qlt_le_weak].
  - intros Hx. rewrite <- Hsafe. now apply rolled_le.
Qed.

Lemma get_structured (options : GenerationOptions) (g ty sub st rar : value) :
  get (VObj (structured options g ty sub st rar)) "type" = ty
  /\ get (VObj (structured options g ty sub st rar)) "tier"
     = VStr (tier_name (tier options))
  /\ get (VObj (structured options g ty sub st rar)) "subType" = sub
  /\ get (VObj (structured options g ty sub st rar)) "stats" = st
  /\ get (VObj (structured options g ty sub st rar)) "rarity" = rar
  /\ (forall s, given (setName options) = Some s ->
        get (VObj (structured options g ty sub st rar)) "setName" = VStr s).
Proof.
  unfold get. rewrite !structured_lookup.
  destruct (given (setName options)); simpl; repeat split; intros;
    congruence.
Qed.

Ltac field_of_item :=
  simpl; repeat first [ left; reflexivity | right ].

Lemma half_is_random : forall n, 0 <= half n < 1.
Proof. intros n. unfold half. lra. Qed.

(** What a successful [reconcile] rolled is the rarity of its item. *)
Lemma reconcile_rarity (random : nat -> Q) (options : GenerationOptions)
  (g item : value) (w w' : World) :
  reconcile random options g w = (Returned item, w') ->
  exists n, get item "rarity" = VNum (rolled (tier options) (random n)).
Proof.
  intros Hrec.
  destruct (reconcile_returned _ _ _ _ _ _ Hrec)
    as (ty & sub & st & rar & Hparse & _ & _ & [n Hrar] & _).
  assert (Hfield : get item "rarity"
                   = get (VObj (structured options g ty sub st rar)) "rarity").
  { eapply validated_transparent; [exact Hparse|field_of_item|reflexivity]. }
  destruct (get_structured options g ty sub st rar) as (_ & _ & _ & _ & Hget & _).
  exists n. now rewrite Hfield, Hget, Hrar.
Qed.

(** C2.  The rarity roll can leave the band of the tier.  [Math.random]
    can return [1 - 2 ^ -52]; the sum [x * (max - min + 1) + min] then
    rounds up to [max + 1] for four of the six tiers, and [Math.floor]
    keeps it.  A Silver request returns an item of rarity 41, above the
    band 20-40; a Celestial request rolls 101, which the schema refuses:
    the iteration fails and no item is returned. *)
Theorem rarity_roll_leaves_the_band :
  0 <= nearly_one < 1
  /\ map getRarityRange all_tiers
     = [5 -- 25; 20 -- 40; 35 -- 60; 55 -- 75; 70 -- 90; 85 -- 100]
  /\ map (fun tier => rolled tier nearly_one) all_tiers
     = [25; 41; 60; 76; 91; 101]
  /\ length (fst silver_run) = 1%nat
  /\ get (first_item silver_run) "tier" = VStr "Silver"
  /\ get (first_item silver_run) "rarity" = VNum 41
  /\ fst celestial_run = []
  /\ errors (snd celestial_run) = [(1%Z, ZodError)].
Proof.
  split; [split; vm_compute; [discriminate|reflexivity]|].
  split; [reflexivity|].
  repeat (split; [vm_compute; reflexivity|]).
  vm_compute. reflexivity.
Qed.

(** X26.  The rarity is rolled at the band.  When the random source draws
    from the interval from 0 to 1, 1 excluded, every item [generateLoot]
    returns has an integer rarity that is at least the [min] of the band of
    the requested tier and at most its [max] plus one, and at most its
    [max] when the draws are at most [1 - 2 ^ -50]; the rarity the model
    claims has no influence: a service that claims any other value in every
    reply leads to the same result. *)
Theorem rarity_is_rolled_at_the_band
  (random : nat -> Q) (chat : nat -> ChatRequest -> Reply)
  (defaultModel : string) (options : GenerationOptions) (w : World)
  (item : value) :
  (forall n, 0 <= random n < 1) ->
  In item (fst (generateLoot random chat defaultModel options w)) ->
  (exists z : Z,
     get item "rarity" = VNum (inject_Z z)
     /\ min (getRarityRange (tier options)) <= inject_Z z
        <= max (getRarityRange (tier options)) + 1
     /\ ((forall n, random n <= safe_draw) ->
         inject_Z z <= max (getRarityRange (tier options))))
  /\ forall claimed : nat -> value,
       generateLoot random (claiming "rarity" claimed chat) defaultModel options w
       = generateLoot random chat defaultModel options w.
Proof.
  intros Hrandom Hin. split.
  - revert item Hin. apply Forall_forall. apply generateLoot_Forall.
    intros g item w0 w1 Hrec.
    destruct (reconcile_rarity _ _ _ _ _ _ Hrec) as [n Hrarity].
    destruct (rolled_integer (tier options) (random n)) as [z Hz].
    destruct (roll_near_band (tier options) (random n) (Hrandom n))
      as (Hnear & Hband).
    rewrite Hz in *. exists z. split; [exact Hrarity|].
    split; [exact Hnear|]. intros Hsafe. apply Hband, Hsafe.
  - intros claimed. apply generateLoot_governed. left. reflexivity.
Qed.

Lemma rarity_is_rolled_at_the_band_witness :
  (forall n, 0 <= half n < 1)
  /\ In (first_item flameheart_run) (fst flameheart_run)
  /\ (forall n, half n <= safe_draw)
  /\ get flameheart "rarity" = VNum 999
  /\ get (first_item flameheart_run) "rarity" = VNum 48
  /\ (exists z : Z,
        get (first_item flameheart_run) "rarity" = VNum (inject_Z z)
        /\ min (getRarityRange GOLD) <= inject_Z z
           <= max (getRarityRange GOLD) + 1
        /\ ((forall n, half n <= safe_draw) ->
            inject_Z z <= max (getRarityRange GOLD))).
Proof.
  assert (Hin : In (first_item flameheart_run) (fst flameheart_run))
    by (vm_compute; left; reflexivity).
  assert (Hsafe : forall n, half n <= safe_draw)
    by (intros n; vm_compute; discriminate).
  split; [exact half_is_random|]. split; [exact Hin|].
  split; [exact Hsafe|]. split; [reflexivity|].
  split; [vm_compute; reflexivity|].
  exact (proj1 (rarity_is_rolled_at_the_band half (always flameheart) "llama3.1"
                  gold_sword initial _ half_is_random Hin)).
Defined.

(* ================================================================== *)
(** ** The generation loop *)

Lemma outcomes_length (random : nat -> Q) (chat : nat -> ChatRequest -> Reply)
  (options : GenerationOptions) (model' : string) (n : nat) (i : Z) (w : World) :
  length (outcomes random chat options model' n i w) = n.
Proof.
  revert i w. induction n as [|n IH]; intros i w; simpl; [reflexivity|].
  destruct (attempt random chat options model' w) as [[item|e] w']; simpl;
    now rewrite IH.
Qed.

Lemma successes_length (trace : list (Outcome value)) :
  (length (successes trace) <= length trace)%nat.
Proof.
  induction trace as [|[item|e] rest IH]; simpl; lia.
Qed.

Lemma generateLoot_loop_outcomes (random : nat -> Q)
  (chat : nat -> ChatRequest -> Reply) (options : GenerationOptions)
  (model' : string) (n : nat) (i : Z) (items : list value) (w : World) :
  fst (generateLoot_loop random chat options model' n i items w)
  = (items ++ successes (outcomes random chat options model' n i w))%list.
Proof.
  revert i items w. induction n as [|n IH]; intros i items w; simpl.
  - now rewrite app_nil_r.
  - destruct (attempt random chat options model' w) as [[item|e] w']; simpl.
    + rewrite IH, <- app_assoc. reflexivity.
    + apply IH.
Qed.

Lemma reconcile_validates (random : nat -> Q) (options : GenerationOptions)
  (g item : value) (w w' : World) :
  reconcile random options g w = (Returned item, w') -> validates item.
Proof.
  intros Hrec.
  destruct (reconcile_returned _ _ _ _ _ _ Hrec)
    as (ty & sub & st & rar & Hparse & _).
  eapply parse_output_accepted; [reflexivity|exact Hparse].
Qed.

(** C3.  For a request with a count of at least zero, [generateLoot] runs
    exactly [count] iterations whatever each of them does (the service
    rejects the call, the reply does not parse, the item does not validate,
    or an item is returned); it returns exactly the items of the iterations
    that returned one, in the order of the attempts, and nothing for the
    others; so it returns at most [count] items, and each of them validates
    against the [LootItem] schema. *)
Theorem generateLoot_isolates_failures
  (random : nat -> Q) (chat : nat -> ChatRequest -> Reply)
  (defaultModel : string) (options : GenerationOptions) (w : World) :
  (0 <= count options)%Z ->
  let trace :=
    outcomes random chat options (used_model defaultModel options)
      (Z.to_nat (count options)) 0 (enter options w) in
  let items := fst (generateLoot random chat defaultModel options w) in
  Z.of_nat (length trace) = count options
  /\ items = successes trace
  /\ (Z.of_nat (length items) <= count options)%Z
  /\ Forall validates items.
Proof.
  intros Hcount trace items.
  assert (Hlen : Z.of_nat (length trace) = count options).
  { unfold trace. rewrite outcomes_length. lia. }
  assert (Hitems : items = successes trace).
  { unfold items, generateLoot. now rewrite generateLoot_loop_outcomes. }
  repeat split.
  - exact Hlen.
  - exact Hitems.
  - rewrite Hitems, <- Hlen. pose proof (successes_length trace). lia.
  - apply generateLoot_Forall. intros g item w0 w1.
    apply reconcile_validates.
Qed.

Lemma generateLoot_isolates_failures_witness :
  (0 <= count four_weapons)%Z
  /\ map (fun item => get item "name") (fst flaky_run)
     = [VStr "Success Item 1"; VStr "Success Item 2"]
  /\ map snd (errors (snd flaky_run)) = [ServiceError; SyntaxError]
  /\ (Z.of_nat (length (fst flaky_run)) <= count four_weapons)%Z
  /\ Forall validates (fst flaky_run).
Proof.
  assert (Hcount : (0 <= count four_weapons)%Z) by (simpl; lia).
  split; [exact Hcount|].
  split; [now vm_compute|]. split; [now vm_compute|].
  exact (proj2 (proj2 (generateLoot_isolates_failures half flaky "llama3.1"
                         four_weapons initial Hcount))).
Defined.

(* ================================================================== *)
(** ** What a computation leaves in the logs *)

Create HintDb quiet.

Lemma quiet_ret {A : Type} (a : A) : quiet (ret a).
Proof. intros w. repeat split. Qed.

Lemma quiet_throw {A : Type} (e : Failure) : quiet (@throw A e).
Proof. intros w. repeat split. Qed.

Lemma quiet_bind {A B : Type} (m : Eff A) (k : A -> Eff B) :
  quiet m -> (forall a, quiet (k a)) -> quiet (bind m k).
Proof.
  intros Hm Hk w. unfold bind. specialize (Hm w).
  destruct (m w) as [[a|e] w1]; simpl in Hm.
  - specialize (Hk a w1). destruct Hm as (? & ? & ?), Hk as (? & ? & ?).
    repeat split; congruence.
  - exact Hm.
Qed.

Lemma quiet_Math_random (random : nat -> Q) : quiet (Math_random random).
Proof. intros w. repeat split. Qed.

Lemma quiet_prop (v : value) (k : string) : quiet (prop v k).
Proof. destruct v; simpl; first [apply quiet_throw|apply quiet_ret]. Qed.

#[local] Hint Resolve quiet_ret quiet_throw quiet_Math_random quiet_prop : quiet.
#[local] Hint Extern 2 (quiet (bind _ _)) => apply quiet_bind; [|intros] : quiet.
#[local] Hint Extern 3 (quiet (match ?x with _ => _ end)) => destruct x : quiet.

Lemma quiet_literal (fields : list (string * Eff value)) :
  Forall (fun f => quiet (snd f)) fields -> quiet (literal fields).
Proof.
  induction 1 as [|[k m] rest Hm _ IH]; simpl; auto with quiet.
Qed.

Lemma quiet_randomInRange (random : nat -> Q) (r : Range) :
  quiet (randomInRange random r).
Proof. unfold randomInRange. auto with quiet. Qed.

#[local] Hint Resolve quiet_randomInRange : quiet.

Lemma quiet_rounded (random : nat -> Q) (r : Range) : quiet (rounded random r).
Proof. unfold rounded. auto with quiet. Qed.

Lemma quiet_unrounded (random : nat -> Q) (r : Range) : quiet (unrounded random r).
Proof. unfold unrounded. auto with quiet. Qed.

#[local] Hint Resolve quiet_rounded quiet_unrounded : quiet.

Lemma quiet_generateStatsForType (random : nat -> Q) (itemType : value)
  (tier : LootTier) : quiet (generateStatsForType random itemType tier).
Proof.
  unfold generateStatsForType.
  destruct (switch_type itemType) as [[]|]; apply quiet_literal;
    repeat constructor; simpl; auto with quiet.
Qed.

Lemma quiet_getRandomSubType (random : nat -> Q) (itemType : value) :
  quiet (getRandomSubType random itemType).
Proof. unfold getRandomSubType. auto with quiet. Qed.

Lemma quiet_requested_type (options : GenerationOptions) (g : value) :
  quiet (requested_type options g).
Proof. unfold requested_type. auto with quiet. Qed.

#[local] Hint Resolve quiet_generateStatsForType quiet_getRandomSubType
  quiet_requested_type : quiet.

Lemma quiet_transformToStructuredStats (random : nat -> Q)
  (aiStats itemType : value) (tier : LootTier) :
  quiet (transformToStructuredStats random aiStats itemType tier).
Proof. unfold transformToStructuredStats. auto with quiet. Qed.

Lemma quiet_roll_rarity (random : nat -> Q) (tier : LootTier) :
  quiet (roll_rarity random tier).
Proof. unfold roll_rarity. auto with quiet. Qed.

Lemma quiet_LootItemSchema_parse (v : value) : quiet (LootItemSchema_parse v).
Proof. unfold LootItemSchema_parse. auto with quiet. Qed.

#[local] Hint Resolve quiet_transformToStructuredStats quiet_roll_rarity
  quiet_LootItemSchema_parse : quiet.

Lemma quiet_reconcile (random : nat -> Q) (options : GenerationOptions)
  (g : value) : quiet (reconcile random options g).
Proof. unfold reconcile. auto 10 with quiet. Qed.

Lemma quiet_generatePrompt (random : nat -> Q) (options : GenerationOptions) :
  quiet (generatePrompt random options).
Proof. unfold generatePrompt. auto with quiet. Qed.

Lemma quiet_JSON_parse (parsed : option value) : quiet (JSON_parse parsed).
Proof. unfold JSON_parse. auto with quiet. Qed.

#[local] Hint Resolve quiet_reconcile quiet_generatePrompt quiet_JSON_parse : quiet.

(** One iteration adds nothing to the orders and the console, and calls the
    service at most once; it calls it exactly once when the request names a
    subtype, since [generatePrompt] cannot fail then. *)
Lemma attempt_logs (random : nat -> Q) (chat : nat -> ChatRequest -> Reply)
  (options : GenerationOptions) (model' : string) (w : World) :
  let w' := snd (attempt random chat options model' w) in
  orders w' = orders w /\ errors w' = errors w
  /\ (length (chats w') <= S (length (chats w)))%nat
  /\ (given (subType options) <> None ->
      length (chats w') = S (length (chats w))).
Proof.
  unfold attempt, bind.
  pose proof (quiet_generatePrompt random options w) as Hprompt.
  destruct (generatePrompt random options w) as [[prompt|e] w1] eqn:Hgen;
    simpl in Hprompt; destruct Hprompt as (Hc1 & Ho1 & He1).
  - unfold ollama_chat.
    destruct (chat (length (chats w1)) _) as [|parsed]; simpl.
    + rewrite length_app, Hc1. simpl. repeat split; auto; lia.
    + set (w2 := {| draws := draws w1; chats := chats w1 ++ [_];
                    orders := orders w1; errors := errors w1 |}).
      pose proof (quiet_JSON_parse parsed w2) as Hparse.
      destruct (JSON_parse parsed w2) as [[g|e] w3]; simpl in Hparse;
        destruct Hparse as (Hc3 & Ho3 & He3).
      * pose proof (quiet_reconcile random options g w3) as (Hc4 & Ho4 & He4).
        rewrite Hc4, Ho4, He4, Hc3, Ho3, He3. simpl.
        rewrite length_app, Hc1. simpl. repeat split; auto; lia.
      * simpl. rewrite Hc3, Ho3, He3. simpl.
        rewrite length_app, Hc1. simpl. repeat split; auto; lia.
  - simpl. rewrite Hc1. repeat split; auto.
    intros Hsub. unfold generatePrompt, bind in Hgen.
    destruct (given (subType options)); [discriminate|contradiction].
Qed.

Lemma generateLoot_loop_logs (random : nat -> Q)
  (chat : nat -> ChatRequest -> Reply) (options : GenerationOptions)
  (model' : string) (n : nat) (i : Z) (items : list value) (w : World) :
  let w' := snd (generateLoot_loop random chat options model' n i items w) in
  orders w' = orders w
  /\ (length (chats w') <= length (chats w) + n)%nat
  /\ (given (subType options) <> None ->
      length (chats w') = (length (chats w) + n)%nat).
Proof.
  revert i items w. induction n as [|n IH]; intros i items w; simpl.
  - repeat split; auto; lia.
  - pose proof (attempt_logs random chat options model' w) as (Ho & _ & Hle & Heq).
    destruct (attempt random chat options model' w) as [[item|e] w1];
      simpl in Ho, Hle, Heq.
    + destruct (IH (i + 1)%Z (items ++ [item])%list w1) as (Ho' & Hle' & Heq').
      repeat split; [congruence|lia|].
      intros Hsub. rewrite (Heq' Hsub), (Heq Hsub). lia.
    + destruct (IH (i + 1)%Z items (console_error (i + 1) e w1))
        as (Ho' & Hle' & Heq').
      simpl in Ho', Hle', Heq'.
      repeat split; [congruence|lia|].
      intros Hsub. rewrite (Heq' Hsub), (Heq Hsub). lia.
Qed.

(** The fields of a returned item that the request settles. *)
Lemma generateLoot_item_fields (random : nat -> Q)
  (chat : nat -> ChatRequest -> Reply) (defaultModel : string)
  (options : GenerationOptions) (w : World) :
  Forall (fun item =>
            get item "tier" = VStr (tier_name (tier options))
            /\ (forall t, itemType options = Some t ->
                  get item "type" = VStr (type_name t))
            /\ (forall s, given (subType options) = Some s ->
                  get item "subType" = VStr s)
            /\ (forall s, given (setName options) = Some s ->
                  get item "setName" = VStr s))
    (fst (generateLoot random chat defaultModel options w)).
Proof.
  apply generateLoot_Forall. intros g item w0 w1 Hrec.
  destruct (reconcile_returned _ _ _ _ _ _ Hrec)
    as (ty & sub & st & rar & Hparse & Hty & Hsub & _).
  destruct (get_structured options g ty sub st rar)
    as (Gty & Gtier & Gsub & _ & _ & Gset).
  repeat split.
  - rewrite <- Gtier.
    eapply validated_transparent; [exact Hparse|field_of_item|reflexivity].
  - intros t Ht. rewrite <- (Hty t Ht), <- Gty.
    eapply validated_transparent; [exact Hparse|field_of_item|reflexivity].
  - intros s Hs. rewrite <- (Hsub s Hs), <- Gsub.
    eapply validated_transparent; [exact Hparse|field_of_item|reflexivity].
  - intros s Hs. rewrite <- (Gset s Hs).
    eapply validated_transparent; [exact Hparse|field_of_item|reflexivity].
Qed.

(* ================================================================== *)
(** ** Requests outside the subtype domain, and counts below one *)

(** C6, as stated, fails: nothing validates the request.  A request for a
    weapon of subtype Helmet, which is no weapon subtype, calls the service
    and returns the item it makes of the reply; a request with a count of
    zero returns the empty list and nothing fails. *)
Lemma helmet_weapon_is_generated :
  existsb (String.eqb "Helmet") (subTypes WEAPON) = false
  /\ length (chats (snd helmet_run)) = 1%nat
  /\ map (fun item => (get item "type", get item "subType")) (fst helmet_run)
     = [(VStr "Weapon", VStr "Helmet")]
  /\ errors (snd helmet_run) = []
  /\ (count no_item < 1)%Z
  /\ fst no_item_run = []
  /\ errors (snd no_item_run) = [].
Proof. repeat split; now vm_compute. Qed.

(** C6, amended: [generateLoot] validates nothing of the request.  With a
    count below one it runs no iteration: it returns the empty list, calls
    the service not at all and logs no failure.  With a subtype, whether of
    the item type's domain or not, it calls the service once in each
    iteration, and every item it returns carries the requested subtype. *)
Theorem requests_are_not_validated
  (random : nat -> Q) (chat : nat -> ChatRequest -> Reply)
  (defaultModel : string) (options : GenerationOptions) (w : World) :
  ((count options < 1)%Z ->
     generateLoot random chat defaultModel options w = ([], enter options w))
  /\ (forall s, given (subType options) = Some s -> (0 <= count options)%Z ->
        Z.of_nat (length (chats (snd (generateLoot random chat defaultModel
                                        options w))))
        = (Z.of_nat (length (chats w)) + count options)%Z
        /\ Forall (fun item => get item "subType" = VStr s)
             (fst (generateLoot random chat defaultModel options w))).
Proof.
  split.
  - intros Hcount. unfold generateLoot.
    replace (Z.to_nat (count options)) with 0%nat by lia. reflexivity.
  - intros s Hs Hcount. split.
    + unfold generateLoot.
      destruct (generateLoot_loop_logs random chat options
                  (match given (model options) with
                   | Some m => m | None => defaultModel end)
                  (Z.to_nat (count options)) 0 [] (enter options w))
        as (_ & _ & Heq).
      rewrite Heq by congruence. simpl. lia.
    + eapply Forall_impl; [|apply generateLoot_item_fields].
      intros item (_ & _ & Hsub & _). now apply Hsub.
Qed.

Lemma requests_are_not_validated_witness :
  given (subType weapon_helmet) = Some "Helmet"
  /\ (0 <= count weapon_helmet)%Z
  /\ Z.of_nat (length (chats (snd helmet_run)))
     = (Z.of_nat (length (chats initial)) + count weapon_helmet)%Z
  /\ Forall (fun item => get item "subType" = VStr "Helmet") (fst helmet_run).
Proof.
  assert (Hcount : (0 <= count weapon_helmet)%Z) by (simpl; lia).
  split; [reflexivity|]. split; [exact Hcount|].
  exact (proj2 (requests_are_not_validated half
                  (always (success_item "Iron Cap" 8)) "llama3.1"
                  weapon_helmet initial) "Helmet" eq_refl Hcount).
Defined.

(* ================================================================== *)
(** ** Sets *)

Lemma generateLoot_orders (random : nat -> Q)
  (chat : nat -> ChatRequest -> Reply) (defaultModel : string)
  (options : GenerationOptions) (w : World) :
  orders (snd (generateLoot random chat defaultModel options w))
  = (orders w ++ [options])%list.
Proof.
  unfold generateLoot.
  destruct (generateLoot_loop_logs random chat options
              (match given (model options) with
               | Some m => m | None => defaultModel end)
              (Z.to_nat (count options)) 0 [] (enter options w)) as (Ho & _).
  exact Ho.
Qed.

Lemma generateLoot_at_most_count (random : nat -> Q)
  (chat : nat -> ChatRequest -> Reply) (defaultModel : string)
  (options : GenerationOptions) (w : World) :
  (length (fst (generateLoot random chat defaultModel options w))
   <= Z.to_nat (count options))%nat.
Proof.
  unfold generateLoot. rewrite generateLoot_loop_outcomes. simpl.
  etransitivity; [apply successes_length|].
  now rewrite outcomes_length.
Qed.

Lemma generateLootSet_loop_results (random : nat -> Q)
  (chat : nat -> ChatRequest -> Reply) (defaultModel setName' : string)
  (tier' : LootTier) (itemTypes : list ItemType) (model' : option string)
  (setItems : list value) (w : World) :
  let result := generateLootSet_loop random chat defaultModel setName' tier'
                  itemTypes model' setItems w in
  fst result
  = (setItems ++ concat (set_results random chat defaultModel setName' tier'
                           itemTypes model' w))%list
  /\ orders (snd result)
     = (orders w ++ map (set_order setName' tier' model') itemTypes)%list.
Proof.
  revert setItems w. induction itemTypes as [|ty rest IH]; intros setItems w; simpl.
  - now rewrite !app_nil_r.
  - fold (set_order setName' tier' model' ty).
    pose proof (generateLoot_orders random chat defaultModel
                  (set_order setName' tier' model' ty) w) as Ho.
    destruct (generateLoot random chat defaultModel
                (set_order setName' tier' model' ty) w) as [items w1].
    simpl in Ho. destruct (IH (setItems ++ items)%list w1) as [Hitems Horders].
    split.
    + rewrite Hitems. simpl. now rewrite app_assoc.
    + rewrite Horders, Ho, <- app_assoc. reflexivity.
Qed.

Lemma set_results_members (random : nat -> Q)
  (chat : nat -> ChatRequest -> Reply) (defaultModel setName' : string)
  (tier' : LootTier) (itemTypes : list ItemType) (model' : option string)
  (w : World) :
  setName' <> "" ->
  Forall2 (set_member setName' tier') itemTypes
    (set_results random chat defaultModel setName' tier' itemTypes model' w).
Proof.
  intros Hname. revert w.
  induction itemTypes as [|ty rest IH]; intros w; simpl; [constructor|].
  pose proof (generateLoot_at_most_count random chat defaultModel
                (set_order setName' tier' model' ty) w) as Hlen.
  pose proof (generateLoot_item_fields random chat defaultModel
                (set_order setName' tier' model' ty) w) as Hfields.
  destruct (generateLoot random chat defaultModel
              (set_order setName' tier' model' ty) w) as [items w1].
  simpl in Hlen, Hfields. constructor; [|apply IH].
  split; [exact Hlen|].
  eapply Forall_impl; [|exact Hfields].
  intros item (Htier & Htype & _ & Hset). repeat split.
  - now apply Htype.
  - exact Htier.
  - apply Hset. simpl. destruct (String.eqb_spec setName' ""); [contradiction|].
    reflexivity.
Qed.

(** C7, as stated, fails at the empty set name: [generateLoot] assigns the
    set name under [if (options.setName)], which the empty string does not
    pass, so the returned item carries the set name of the reply. *)
Lemma empty_set_name_is_not_carried :
  map count (orders (snd nameless_set)) = [1%Z]
  /\ map (fun item => get item "setName") (fst nameless_set) = [VStr "Moonlit"]
  /\ VStr "Moonlit" <> VStr "".
Proof.
  split; [now vm_compute|]. split; [now vm_compute|]. discriminate.
Qed.

(** C7, amended: for a set name that is not the empty string, a tier and a
    list of item types, [generateLootSet] calls [generateLoot] once per
    item type, in the order of the list, each time with a count of one, the
    item type, the set name and the tier; it returns the results of these
    calls concatenated in that order, where the call for an item type
    returns either nothing or one item of that type and tier that carries
    the set name. *)
Theorem generateLootSet_one_call_per_type
  (random : nat -> Q) (chat : nat -> ChatRequest -> Reply)
  (defaultModel setName' : string) (tier' : LootTier)
  (itemTypes : list ItemType) (model' : option string) (w : World) :
  setName' <> "" ->
  let result := generateLootSet random chat defaultModel setName' tier'
                  itemTypes model' w in
  let per_type := set_results random chat defaultModel setName' tier'
                    itemTypes model' w in
  orders (snd result)
  = (orders w
     ++ map (fun itemType' =>
               {| tier := tier'; count := 1; itemType := Some itemType';
                  subType := None; setName := Some setName';
                  model := model' |}) itemTypes)%list
  /\ fst result = concat per_type
  /\ Forall2 (set_member setName' tier') itemTypes per_type.
Proof.
  intros Hname result per_type.
  destruct (generateLootSet_loop_results random chat defaultModel setName'
              tier' itemTypes model' [] w) as [Hitems Horders].
  repeat split.
  - exact Horders.
  - exact Hitems.
  - now apply set_results_members.
Qed.

Lemma generateLootSet_one_call_per_type_witness :
  "Dragon Slayer" <> ""
  /\ map (fun item => (get item "type", get item "setName")) (fst dragon_set)
     = [(VStr "Weapon", VStr "Dragon Slayer");
        (VStr "Accessory", VStr "Dragon Slayer")]
  /\ map count (orders (snd dragon_set)) = [1; 1; 1]%Z
  /\ orders (snd dragon_set)
     = (orders initial
        ++ map (fun itemType' =>
                  {| tier := LEGENDARY; count := 1; itemType := Some itemType';
                     subType := None; setName := Some "Dragon Slayer";
                     model := None |}) [WEAPON; ARMOR; ACCESSORY])%list.
Proof.
  assert (Hname : "Dragon Slayer" <> "") by discriminate.
  split; [exact Hname|]. split; [now vm_compute|]. split; [now vm_compute|].
  exact (proj1 (generateLootSet_one_call_per_type half armor_fails "llama3.1"
                  "Dragon Slayer" LEGENDARY [WEAPON; ARMOR; ACCESSORY] None
                  initial Hname)).
Defined.

(* ================================================================== *)
(** ** Stats: the baseline, the merge and the rounding *)

Lemma literal_returns (fields : list (string * Eff value))
  (P : string * value -> Prop) (w : World) :
  Forall (fun f => forall w0, exists v w1,
            snd f w0 = (Returned v, w1) /\ P (fst f, v)) fields ->
  exists props w', literal fields w = (Returned props, w') /\ Forall P props.
Proof.
  intros H. revert w. induction H as [|[k m] rest Hm _ IH]; intros w; simpl.
  - exists [], w. split; [reflexivity|constructor].
  - destruct (Hm w) as (v & w1 & Hv & HP). simpl in Hv.
    destruct (IH w1) as (props & w2 & Hprops & Hall).
    exists ((k, v) :: props), w2. unfold bind. rewrite Hv, Hprops.
    split; [reflexivity|constructor; assumption].
Qed.

Lemma rounded_whole (random : nat -> Q) (r : Range) (k : string) (w : World) :
  String.eqb k "range" || String.eqb k "weight" = false ->
  exists v w', rounded random r w = (Returned v, w') /\ baseline_rounding (k, v).
Proof.
  intros Hk. eexists. eexists. split; [reflexivity|].
  unfold baseline_rounding. simpl. rewrite Hk.
  eexists. unfold Math_round at 1. reflexivity.
Qed.

Lemma unrounded_two_decimals (random : nat -> Q) (r : Range) (k : string)
  (w : World) :
  String.eqb k "range" || String.eqb k "weight" = true ->
  exists v w', unrounded random r w = (Returned v, w') /\ baseline_rounding (k, v).
Proof.
  intros Hk. eexists. eexists. split; [reflexivity|].
  unfold baseline_rounding. simpl. rewrite Hk.
  eexists. unfold Math_round at 1. reflexivity.
Qed.

(** Every baseline stat is a rounded number: [generateStatsForType] always
    returns, and what it returns has no fractional part, except for [range]
    and [weight], which have at most two decimal places. *)
Lemma generateStatsForType_rounded (random : nat -> Q) (itemType : value)
  (tier : LootTier) (w : World) :
  exists baselineStats w',
    generateStatsForType random itemType tier w = (Returned baselineStats, w')
    /\ Forall baseline_rounding baselineStats.
Proof.
  unfold generateStatsForType.
  destruct (switch_type itemType) as [[]|]; apply literal_returns;
    repeat constructor; intros w0; simpl fst; simpl snd;
    first [ apply rounded_whole; reflexivity
          | apply unrounded_two_decimals; reflexivity ].
Qed.

Lemma lookup_rev_NoDup (k : string) (props : list (string * value)) :
  NoDup (map fst props) -> lookup k (rev props) = lookup k props.
Proof.
  induction props as [|[k1 v1] rest IH]; simpl; intros Hnd; [reflexivity|].
  inversion Hnd as [|? ? Hfresh Hnd']; subst.
  rewrite lookup_app, (IH Hnd'). simpl.
  destruct (String.eqb_spec k k1) as [->|_].
  - destruct (lookup k1 rest) eqn:Hl; [|reflexivity].
    exfalso. apply Hfresh. clear - Hl.
    induction rest as [|[k2 v2] rest IH]; simpl in *; [discriminate|].
    destruct (String.eqb_spec k1 k2); [now left|right; auto].
  - destruct (lookup k rest); reflexivity.
Qed.

Lemma get_assign (props baselineStats : list (string * value)) (k : string) :
  NoDup (map fst props) ->
  get (VObj (assign baselineStats props)) k = merged_stat props baselineStats k.
Proof.
  intros Hnd. unfold merged_stat. simpl.
  rewrite lookup_assign, (lookup_rev_NoDup _ _ Hnd).
  destruct (lookup k props); reflexivity.
Qed.

Lemma switch_type_name (t : ItemType) :
  switch_type (VStr (type_name t)) = Some t.
Proof. destruct t; reflexivity. Qed.

(** The per-field merge of [transformToStructuredStats]: each stat of the
    structured block is the merged value of its name, except that a falsy
    merged value of a required stat gives way to the baseline. *)
Lemma transformToStructuredStats_field (random : nat -> Q)
  (props : list (string * value)) (t : ItemType) (tier : LootTier)
  (w : World) (k : string) :
  NoDup (map fst props) ->
  In k (stat_names t) ->
  exists baselineStats stats' w',
    generateStatsForType random (VStr (type_name t)) tier w
    = (Returned baselineStats, w')
    /\ transformToStructuredStats random (VObj props) (VStr (type_name t)) tier w
       = (Returned stats', w')
    /\ stat t stats' k
       = if required t k
         then js_or (merged_stat props baselineStats k)
                (get (VObj baselineStats) k)
         else merged_stat props baselineStats k.
Proof.
  intros Hnd Hk.
  destruct (generateStatsForType_rounded random (VStr (type_name t)) tier w)
    as (baselineStats & w' & Hbase & _).
  exists baselineStats. eexists. exists w'.
  split; [exact Hbase|].
  unfold transformToStructuredStats, bind. rewrite Hbase, switch_type_name.
  split; [reflexivity|].
  cbv zeta. simpl own_props.
  pose proof (get_assign props baselineStats) as Hmerged.
  specialize (fun k => Hmerged k Hnd).
  set (merged := get (VObj (assign baselineStats props))) in *.
  set (baseline := get (VObj baselineStats)) in *.
  unfold merged_stat in *. fold baseline in Hmerged |- *.
  destruct t; simpl in Hk;
    repeat (destruct Hk as [<-|Hk];
            [simpl; first [now rewrite ?Hmerged|apply Hmerged]|]);
    contradiction.
Qed.

(** C9, as stated, fails: a stat the model supplies is not rounded.  The
    damage 10.5 of the reply is the damage of the returned item. *)
Lemma model_damage_is_not_rounded :
  length (fst fractional_run) = 1%nat
  /\ get (get (first_item fractional_run) "stats") "damage" = VNum 10.5
  /\ ~ whole 10.5.
Proof.
  split; [now vm_compute|]. split; [now vm_compute|].
  intros [z Hz]. unfold Qeq in Hz. simpl in Hz. lia.
Qed.

(** C9, amended: every stat of the baseline is rounded to the nearest
    integer, except [range] and [weight], which keep two decimal places; a
    stat the model supplies is taken into the structured stats as the model
    gave it, without rounding (for the required stats [damage] and
    [defense], when it is truthy). *)
Theorem baseline_is_rounded_model_stats_are_kept (random : nat -> Q) :
  (forall (itemType : value) (tier : LootTier) (w : World),
     exists baselineStats w',
       generateStatsForType random itemType tier w = (Returned baselineStats, w')
       /\ Forall baseline_rounding baselineStats)
  /\ (forall (props : list (string * value)) (t : ItemType) (tier : LootTier)
        (w : World) (k : string) (v : value),
        NoDup (map fst props) ->
        In k (stat_names t) ->
        lookup k props = Some v ->
        required t k = false \/ truthy v = true ->
        exists stats' w',
          transformToStructuredStats random (VObj props) (VStr (type_name t))
            tier w = (Returned stats', w')
          /\ stat t stats' k = v).
Proof.
  split.
  - intros itemType tier w. apply generateStatsForType_rounded.
  - intros props t tier w k v Hnd Hk Hv Hkept.
    destruct (transformToStructuredStats_field random props t tier w k Hnd Hk)
      as (baselineStats & stats' & w' & _ & Htrans & Hstat).
    exists stats', w'. split; [exact Htrans|].
    rewrite Hstat. unfold merged_stat, js_or. rewrite Hv.
    destruct Hkept as [-> | ->]; [reflexivity|].
    destruct (required t k); reflexivity.
Qed.

(** C5 at a damage of zero: the model supplies a damage and an attack speed
    of 0 for a Bronze weapon; the structured stats keep the attack speed 0,
    but their damage is the baseline's 12, not the model's 0. *)
Lemma zero_damage_gives_way_to_baseline :
  get zero_damage_stats "attackSpeed" = VNum 0
  /\ get zero_damage_stats "damage" = VNum 12
  /\ VNum 12 <> VNum 0.
Proof.
  split; [now vm_compute|]. split; [now vm_compute|]. discriminate.
Qed.

(* ================================================================== *)
(** ** Sorting by a comparator *)

Section Sorting.

Variable compare : MagicalProperty -> MagicalProperty -> Z.

(** [a] may stand before [b]. *)
Definition before (a b : MagicalProperty) : Prop := (compare a b <= 0)%Z.

Hypothesis compare_total : forall a b, before a b \/ before b a.

Lemma sort_insert_Permutation (x : MagicalProperty) (l : list MagicalProperty) :
  Permutation (x :: l) (sort_insert compare x l).
Proof.
  induction l as [|y rest IH]; simpl; [reflexivity|].
  destruct (compare x y <=? 0)%Z; [reflexivity|].
  rewrite perm_swap. now constructor.
Qed.

Lemma Array_sort_Permutation (l : list MagicalProperty) :
  Permutation l (Array_sort compare l).
Proof.
  induction l as [|x rest IH]; simpl; [constructor|].
  rewrite <- sort_insert_Permutation. now constructor.
Qed.

Lemma sort_insert_HdRel (a x : MagicalProperty) (l : list MagicalProperty) :
  before a x -> HdRel before a l -> HdRel before a (sort_insert compare x l).
Proof.
  intros Hax Hal. destruct l as [|y rest]; simpl.
  - now constructor.
  - destruct (compare x y <=? 0)%Z; constructor; [exact Hax|].
    now inversion Hal.
Qed.

Lemma sort_insert_Sorted (x : MagicalProperty) (l : list MagicalProperty) :
  Sorted before l -> Sorted before (sort_insert compare x l).
Proof.
  induction 1 as [|y rest Hrest IH Hhd]; simpl.
  - repeat constructor.
  - destruct (Z.leb_spec (compare x y) 0) as [Hle|Hgt].
    + constructor; [now constructor|now constructor].
    + constructor; [exact IH|].
      apply sort_insert_HdRel; [|exact Hhd].
      destruct (compare_total y x) as [H|H]; [exact H|].
      unfold before in H. lia.
Qed.

Lemma Array_sort_Sorted (l : list MagicalProperty) :
  Sorted before (Array_sort compare l).
Proof.
  induction l as [|x rest IH]; simpl; [constructor|].
  now apply sort_insert_Sorted.
Qed.

Hypothesis compare_trans :
  forall a b c, before a b -> before b c -> before a c.

Lemma Array_sort_StronglySorted (l : list MagicalProperty) :
  StronglySorted before (Array_sort compare l).
Proof.
  apply Sorted_StronglySorted; [|apply Array_sort_Sorted].
  intros a b c. apply compare_trans.
Qed.

(** Two sorted lists with the same elements are the same list when no two
    different elements tie. *)
Lemma sorted_unique (l1 l2 : list MagicalProperty) :
  StronglySorted before l1 ->
  StronglySorted before l2 ->
  Permutation l1 l2 ->
  (forall a b, In a l1 -> In b l1 -> before a b -> before b a -> a = b) ->
  l1 = l2.
Proof.
  intros H1. revert l2.
  induction H1 as [|a1 rest1 Hs1 IH Hall1]; intros l2 H2 Hperm Huntied.
  - now apply Permutation_nil in Hperm.
  - destruct H2 as [|a2 rest2 Hs2 Hall2].
    + apply Permutation_sym, Permutation_nil in Hperm. discriminate.
    + assert (Heq : a1 = a2).
      { assert (Hin2 : In a2 (a1 :: rest1))
          by (eapply Permutation_in; [apply Permutation_sym, Hperm|now left]).
        assert (Hin1 : In a1 (a2 :: rest2))
          by (eapply Permutation_in; [apply Hperm|now left]).
        destruct Hin2 as [->|Hin2]; [reflexivity|].
        destruct Hin1 as [->|Hin1]; [reflexivity|].
        rewrite Forall_forall in Hall1, Hall2.
        apply Huntied; [now left|now right|now apply Hall1|now apply Hall2]. }
      subst a2. f_equal. apply IH.
      * exact Hs2.
      * now apply Permutation_cons_inv in Hperm.
      * intros a b Ha Hb. apply Huntied; now right.
Qed.

Lemma Array_sort_unique (l1 l2 : list MagicalProperty) :
  Permutation l1 l2 ->
  (forall a b, In a l1 -> In b l1 -> before a b -> before b a -> a = b) ->
  Array_sort compare l1 = Array_sort compare l2.
Proof.
  intros Hperm Huntied. apply sorted_unique.
  - apply Array_sort_StronglySorted.
  - apply Array_sort_StronglySorted.
  - rewrite <- !Array_sort_Permutation. exact Hperm.
  - intros a b Ha Hb. apply Huntied;
      eapply Permutation_in; try apply Permutation_sym, Array_sort_Permutation;
      assumption.
Qed.

End Sorting.

(* ================================================================== *)
(** ** The order of code units is a total preorder *)

Lemma codeunit_compare_le (a b : string) :
  (codeunit_compare a b <= 0)%Z <-> a = b \/ String_as_OT.lt a b.
Proof.
  unfold codeunit_compare.
  destruct (String_as_OT.compare_spec a b) as [Heq|Hlt|Hgt].
  - split; [now left|lia].
  - split; [now right|lia].
  - split; [lia|]. intros [->|Hlt].
    + now apply (StrictOrder_Irreflexive b) in Hgt.
    + exfalso. apply (StrictOrder_Irreflexive a).
      now transitivity b.
Qed.

Lemma codeunit_compare_total (a b : string) :
  (codeunit_compare a b <= 0)%Z \/ (codeunit_compare b a <= 0)%Z.
Proof.
  rewrite !codeunit_compare_le.
  destruct (String_as_OT.compare_spec a b) as [Heq|Hlt|Hgt]; auto.
Qed.

Lemma codeunit_compare_trans (a b c : string) :
  (codeunit_compare a b <= 0)%Z -> (codeunit_compare b c <= 0)%Z ->
  (codeunit_compare a c <= 0)%Z.
Proof.
  rewrite !codeunit_compare_le.
  intros [->|Hab] [->|Hbc]; auto.
  right. now transitivity b.
Qed.

(* ================================================================== *)
(** ** Identity and deduplication *)

Lemma find_none_filter {A : Type} (f : A -> bool) (l : list A) :
  find f l = None -> filter f l = [].
Proof.
  induction l as [|x rest IH]; simpl; [reflexivity|].
  destruct (f x); [discriminate|exact IH].
Qed.

Lemma filter_none {A : Type} (f : A -> bool) (l : list A) :
  (forall x, In x l -> f x = false) -> filter f l = [].
Proof.
  induction l as [|x rest IH]; simpl; intros H; [reflexivity|].
  rewrite (H x (or_introl eq_refl)). apply IH. auto.
Qed.

Lemma find_app_none {A : Type} (f : A -> bool) (l1 l2 : list A) :
  find f l1 = None -> find f (l1 ++ l2) = find f l2.
Proof.
  induction l1 as [|x rest IH]; simpl; [reflexivity|].
  destruct (f x); [discriminate|exact IH].
Qed.

Lemma find_id_beyond (n : Z) (l : list DatabaseItem) :
  Forall (fun row => (id row < n)%Z) l -> find (fun row => id row =? n)%Z l = None.
Proof.
  induction 1 as [|row rest Hrow _ IH]; simpl; [reflexivity|].
  destruct (Z.eqb_spec (id row) n); [lia|exact IH].
Qed.

Lemma unique_hash_filter (h : string) (l : list DatabaseItem) (row : DatabaseItem) :
  NoDup (map hash l) ->
  find (fun r => String.eqb (hash r) h) l = Some row ->
  length (filter (fun r => String.eqb (hash r) h) l) = 1%nat.
Proof.
  induction l as [|r rest IH]; simpl; [discriminate|].
  intros Hnd Hfind. inversion Hnd as [|? ? Hfresh Hnd']; subst.
  destruct (String.eqb_spec (hash r) h) as [Hh|Hh].
  - simpl. f_equal.
    rewrite filter_none; [reflexivity|].
    intros r' Hin. apply String.eqb_neq. intros Hr'.
    apply Hfresh. rewrite Hh, <- Hr'. now apply in_map.
  - now apply IH.
Qed.

(** With equal content [generateHash] gives equal hashes. *)
Lemma generateHash_same (localeCompare : string -> string -> Z)
  (i1 i2 : LootItem) :
  (forall a b, (localeCompare a b <= 0)%Z \/ (localeCompare b a <= 0)%Z) ->
  (forall a b c, (localeCompare a b <= 0)%Z -> (localeCompare b c <= 0)%Z ->
                 (localeCompare a c <= 0)%Z) ->
  same_logical_item i1 i2 -> untied localeCompare i1 ->
  generateHash localeCompare i1 = generateHash localeCompare i2.
Proof.
  intros Htotal Htrans (Hn & Hty & Hsub & Htier & Hd & Hst & Hmp & Hl & Hset) Hu.
  unfold generateHash, hashed_content.
  rewrite Hn, Hty, Hsub, Htier, Hd, Hst, Hl, Hset.
  replace (option_map (Array_sort (by_name localeCompare))
             (item_magicalProperties i1))
    with (option_map (Array_sort (by_name localeCompare))
            (item_magicalProperties i2)); [reflexivity|].
  unfold same_properties in Hmp.
  destruct (item_magicalProperties i1) as [l1|] eqn:H1,
           (item_magicalProperties i2) as [l2|]; try contradiction;
    [|reflexivity].
  simpl. f_equal. symmetry. apply Array_sort_unique.
  - intros a b. apply Htotal.
  - intros a b c. apply Htrans.
  - exact Hmp.
  - intros a b Ha Hb. now apply (Hu l1).
Qed.

(** [saveItem] keeps the table consistent. *)
Lemma saveItem_consistent (localeCompare : string -> string -> Z)
  (now : string) (i : LootItem) (db : Store) :
  consistent db -> consistent (snd (saveItem localeCompare now i db)).
Proof.
  intros [Hnd Hids]. unfold saveItem.
  destruct (getItemByHash (generateHash localeCompare i) db) eqn:Hfind; simpl.
  - now split.
  - unfold consistent, insert_row. simpl. split.
    + rewrite map_app. simpl.
      apply Permutation_NoDup with (l := generateHash localeCompare i
                                          :: map hash (rows db)).
      * apply Permutation_cons_append.
      * constructor; [|exact Hnd]. intros Hin.
        apply in_map_iff in Hin as (row & Hrow & Hin).
        unfold getItemByHash in Hfind.
        apply (find_none _ _ Hfind) in Hin.
        rewrite Hrow, String.eqb_refl in Hin. discriminate.
    + apply Forall_app. split.
      * eapply Forall_impl; [|exact Hids]. simpl. intros row Hrow. lia.
      * constructor; [simpl; lia|constructor].
Qed.

(** What [saveItem] does with an item whose hash the table may or may not
    have: it returns the one row with the hash, which the table then has. *)
Lemma saveItem_returns_row (localeCompare : string -> string -> Z)
  (now : string) (i : LootItem) (db : Store) :
  consistent db ->
  let h := generateHash localeCompare i in
  let db' := snd (saveItem localeCompare now i db) in
  exists row,
    fst (fst (saveItem localeCompare now i db)) = Some row
    /\ getItemByHash h db' = Some row
    /\ rows_with h db' = 1%nat.
Proof.
  intros [Hnd Hids] h db'. unfold db', saveItem. fold h.
  destruct (getItemByHash h db) as [existing|] eqn:Hfind; simpl.
  - exists existing. repeat split; [exact Hfind|].
    unfold rows_with. eapply unique_hash_filter; eauto.
  - set (row := {| id := last_id db + 1; item := stored (sorted_in_place localeCompare i);
                   hash := h; createdAt := now |}).
    exists row. unfold getItemById, getItemByHash, rows_with. simpl.
    repeat split.
    + rewrite find_app_none.
      * simpl. now rewrite Z.eqb_refl.
      * apply find_id_beyond. eapply Forall_impl; [|exact Hids].
        simpl. intros r Hr. lia.
    + rewrite find_app_none; [|exact Hfind].
      simpl. now rewrite String.eqb_refl.
    + rewrite filter_app, (find_none_filter _ _ Hfind). simpl.
      now rewrite String.eqb_refl.
Qed.



Lemma ward_first_untied : untied codeunit_compare ward_first.
Proof.
  intros l a b [= <-] Ha Hb Hab Hba.
  destruct Ha as [<-|[<-|[]]], Hb as [<-|[<-|[]]]; try reflexivity;
    vm_compute in Hab, Hba; exfalso; auto.
Qed.


(* ================================================================== *)
(** ** What [saveItem] does to the item it is given *)

(** C10.  [saveItem] sorts the magical properties of the item it is given
    in place: after the call the caller's item lists them sorted by name,
    a stable rearrangement of the list it had, and its other fields are
    what they were. *)
Theorem saveItem_sorts_the_item_in_place
  (localeCompare : string -> string -> Z) (now : string) (i : LootItem)
  (db : Store) (l : list MagicalProperty) :
  (forall a b, (localeCompare a b <= 0)%Z \/ (localeCompare b a <= 0)%Z) ->
  item_magicalProperties i = Some l ->
  let i' := snd (fst (saveItem localeCompare now i db)) in
  (exists l',
     item_magicalProperties i' = Some l'
     /\ l' = Array_sort (by_name localeCompare) l
     /\ Sorted (fun a b => (localeCompare (mp_name a) (mp_name b) <= 0)%Z) l'
     /\ Permutation l l')
  /\ item_name i' = item_name i
  /\ item_type i' = item_type i
  /\ item_subType i' = item_subType i
  /\ item_tier i' = item_tier i
  /\ item_description i' = item_description i
  /\ item_stats i' = item_stats i
  /\ item_lore i' = item_lore i
  /\ item_setName i' = item_setName i
  /\ item_rarity i' = item_rarity i.
Proof.
  intros Htotal Hl i'.
  assert (Hi' : i' = sorted_in_place localeCompare i).
  { unfold i', saveItem.
    destruct (getItemByHash (generateHash localeCompare i) db); reflexivity. }
  rewrite Hi'. simpl. rewrite Hl. simpl.
  repeat split; try reflexivity.
  eexists. split; [reflexivity|]. split; [reflexivity|]. split.
  - apply (Array_sort_Sorted (by_name localeCompare)).
    intros a b. apply Htotal.
  - apply Array_sort_Permutation.
Qed.

Lemma saveItem_sorts_the_item_in_place_witness :
  item_magicalProperties ward_first = Some [ward_of_fire; aura_of_light]
  /\ item_magicalProperties
       (snd (fst (saveItem codeunit_compare "2024-01-01T00:00:00.000Z"
                    ward_first empty_store)))
     = Some [aura_of_light; ward_of_fire]
  /\ item_rarity
       (snd (fst (saveItem codeunit_compare "2024-01-01T00:00:00.000Z"
                    ward_first empty_store)))
     = item_rarity ward_first.
Proof.
  pose proof (saveItem_sorts_the_item_in_place codeunit_compare
                "2024-01-01T00:00:00.000Z" ward_first empty_store
                [ward_of_fire; aura_of_light] codeunit_compare_total eq_refl)
    as (_ & H).
  split; [reflexivity|]. split; [now vm_compute|]. apply H.
Defined.

(* ================================================================== *)
(** ** Further properties of the pipeline *)

Lemma generateLoot_loop_errors (random : nat -> Q)
  (chat : nat -> ChatRequest -> Reply) (options : GenerationOptions)
  (model' : string) (n : nat) (i : Z) (items : list value) (w : World) :
  errors (snd (generateLoot_loop random chat options model' n i items w))
  = (errors w ++ logged i (outcomes random chat options model' n i w))%list.
Proof.
  revert i items w. induction n as [|n IH]; intros i items w; simpl.
  - now rewrite app_nil_r.
  - pose proof (attempt_logs random chat options model' w) as (_ & He & _).
    destruct (attempt random chat options model' w) as [[item|e] w1];
      simpl in He; simpl.
    + now rewrite IH, He.
    + rewrite IH. simpl. rewrite He, <- app_assoc. reflexivity.
Qed.

(** X1.  Every iteration of [generateLoot] that fails writes one line to the
    console, with its number and what was thrown, and nothing else does. *)
Theorem failures_are_logged
  (random : nat -> Q) (chat : nat -> ChatRequest -> Reply)
  (defaultModel : string) (options : GenerationOptions) (w : World) :
  errors (snd (generateLoot random chat defaultModel options w))
  = (errors w
     ++ logged 0
          (outcomes random chat options (used_model defaultModel options)
             (Z.to_nat (count options)) 0 (enter options w)))%list.
Proof.
  unfold generateLoot. now rewrite generateLoot_loop_errors.
Qed.

(** X2.  The stats are merged per field: for a model's stats with distinct
    keys, each stat of the structured block that the model supplied carries
    the model's value, and each stat it did not supply carries the
    baseline's (for the required [damage] and [defense]: when that value is
    truthy). *)
Theorem stats_are_merged_per_field
  (random : nat -> Q) (props : list (string * value)) (t : ItemType)
  (tier : LootTier) (w : World) (k : string) :
  NoDup (map fst props) ->
  In k (stat_names t) ->
  exists baselineStats stats' w',
    generateStatsForType random (VStr (type_name t)) tier w
    = (Returned baselineStats, w')
    /\ transformToStructuredStats random (VObj props) (VStr (type_name t)) tier w
       = (Returned stats', w')
    /\ (required t k = false
        \/ truthy (merged_stat props baselineStats k) = true ->
        stat t stats' k
        = match lookup k props with
          | Some v => v
          | None => get (VObj baselineStats) k
          end).
Proof.
  intros Hnd Hk.
  destruct (transformToStructuredStats_field random props t tier w k Hnd Hk)
    as (baselineStats & stats' & w' & Hbase & Htrans & Hstat).
  exists baselineStats, stats', w'. repeat split; [exact Hbase|exact Htrans|].
  intros Hkept. rewrite Hstat. unfold js_or.
  destruct Hkept as [-> | ->]; [reflexivity|].
  fold (merged_stat props baselineStats k).
  destruct (required t k); reflexivity.
Qed.

Lemma stats_are_merged_per_field_witness :
  NoDup (map fst [("damage", VNum 30)])
  /\ In "attackSpeed" (stat_names WEAPON)
  /\ get (returned only_damage) "damage" = VNum 30
  /\ get (returned only_damage) "attackSpeed" = VNum 15
  /\ exists baselineStats stats' w',
       generateStatsForType half (VStr (type_name WEAPON)) GOLD initial
       = (Returned baselineStats, w')
       /\ only_damage = (Returned stats', w').
Proof.
  assert (Hnd : NoDup (map fst [("damage", VNum 30)]))
    by (repeat constructor; simpl; tauto).
  assert (Hk : In "attackSpeed" (stat_names WEAPON)) by (simpl; tauto).
  split; [exact Hnd|]. split; [exact Hk|].
  split; [now vm_compute|]. split; [now vm_compute|].
  destruct (stats_are_merged_per_field half [("damage", VNum 30)] WEAPON GOLD
              initial "attackSpeed" Hnd Hk)
    as (baselineStats & stats' & w' & Hbase & Htrans & _).
  exists baselineStats, stats', w'. split; [exact Hbase|exact Htrans].
Defined.

(** X3.  [saveItem] keeps the [items] table consistent: after it no two rows
    have the same hash, and no row has an id the counter has not reached. *)
Theorem saveItem_keeps_hashes_unique
  (localeCompare : string -> string -> Z) (now : string) (i : LootItem)
  (db : Store) :
  consistent db -> consistent (snd (saveItem localeCompare now i db)).
Proof. apply saveItem_consistent. Qed.

Lemma saveItem_keeps_hashes_unique_witness :
  consistent empty_store
  /\ consistent (snd (saveItem codeunit_compare "2024-01-01T00:00:00.000Z"
                        ward_first empty_store)).
Proof.
  assert (Hdb : consistent empty_store) by (split; simpl; constructor).
  split; [exact Hdb|].
  exact (saveItem_keeps_hashes_unique codeunit_compare
           "2024-01-01T00:00:00.000Z" ward_first empty_store Hdb).
Defined.

(* ================================================================== *)
(** ** The store: reading back, and what a save leaves alone *)

Lemma find_app_some {A : Type} (f : A -> bool) (l1 l2 : list A) (x : A) :
  find f l1 = Some x -> find f (l1 ++ l2) = Some x.
Proof.
  induction l1 as [|y rest IH]; simpl; [discriminate|].
  destruct (f y); [trivial|exact IH].
Qed.

Lemma find_unique_id (l : list DatabaseItem) (row : DatabaseItem) :
  NoDup (map id l) -> In row l ->
  find (fun r => id r =? id row)%Z l = Some row.
Proof.
  induction l as [|r rest IH]; simpl; intros Hnd Hin; [contradiction|].
  inversion Hnd as [|? ? Hfresh Hnd']; subst.
  destruct Hin as [->|Hin]; [now rewrite Z.eqb_refl|].
  destruct (Z.eqb_spec (id r) (id row)) as [Heq|_]; [|now apply IH].
  exfalso. apply Hfresh. rewrite Heq. now apply in_map.
Qed.

Lemma saveItem_rows (localeCompare : string -> string -> Z)
  (now : string) (i : LootItem) (db : Store) :
  let h := generateHash localeCompare i in
  match getItemByHash h db with
  | Some existing =>
      saveItem localeCompare now i db
      = (Some existing, sorted_in_place localeCompare i, db)
  | None =>
      snd (saveItem localeCompare now i db)
      = {| rows := rows db
                   ++ [{| id := last_id db + 1;
                          item := stored (sorted_in_place localeCompare i);
                          hash := h; createdAt := now |}];
           last_id := last_id db + 1 |}
  end.
Proof.
  intros h. unfold saveItem. fold h.
  destruct (getItemByHash h db); reflexivity.
Qed.

Lemma saveItem_primary_key (localeCompare : string -> string -> Z)
  (now : string) (i : LootItem) (db : Store) :
  consistent db -> primary_key db ->
  primary_key (snd (saveItem localeCompare now i db)).
Proof.
  intros [_ Hids] Hkey.
  pose proof (saveItem_rows localeCompare now i db) as Hrows. simpl in Hrows.
  destruct (getItemByHash (generateHash localeCompare i) db).
  - now rewrite Hrows.
  - rewrite Hrows. unfold primary_key. simpl. rewrite map_app. simpl.
    apply Permutation_NoDup with (l := (last_id db + 1)%Z :: map id (rows db)).
    + apply Permutation_cons_append.
    + constructor; [|exact Hkey]. intros Hin.
      apply in_map_iff in Hin as (row & Hrow & Hin).
      rewrite Forall_forall in Hids. specialize (Hids row Hin). lia.
Qed.

(** X4.  A saved item is read back.  [saveItem] returns a row of the store
    after it, the row that both [getItemById] with its id and
    [getItemByHash] with the hash of the item then return.  A row made by
    this call has the next id and the time of the call, and its item is the
    one given, with the magical properties sorted by name and the stats as
    they are once written as JSON and read again. *)
Theorem saved_item_is_read_back
  (localeCompare : string -> string -> Z) (now : string) (i : LootItem)
  (db : Store) :
  consistent db -> primary_key db ->
  let result := saveItem localeCompare now i db in
  exists row,
    fst (fst result) = Some row
    /\ hash row = generateHash localeCompare i
    /\ getItemById (id row) (snd result) = Some row
    /\ getItemByHash (generateHash localeCompare i) (snd result) = Some row
    /\ (getItemByHash (generateHash localeCompare i) db = None ->
        id row = (last_id db + 1)%Z
        /\ createdAt row = now
        /\ item_name (item row) = item_name i
        /\ item_type (item row) = item_type i
        /\ item_subType (item row) = item_subType i
        /\ item_tier (item row) = item_tier i
        /\ item_description (item row) = item_description i
        /\ item_stats (item row) = JSON_roundtrip (item_stats i)
        /\ item_magicalProperties (item row)
           = option_map (Array_sort (by_name localeCompare))
               (item_magicalProperties i)
        /\ item_lore (item row) = item_lore i
        /\ item_setName (item row) = item_setName i
        /\ item_rarity (item row) = item_rarity i).
Proof.
  intros Hdb Hkey result.
  destruct (saveItem_returns_row localeCompare now i db Hdb)
    as (row & Hrow & Hfound & _).
  fold result in Hrow, Hfound.
  pose proof (saveItem_primary_key localeCompare now i db Hdb Hkey) as Hkey'.
  fold result in Hkey'.
  assert (Hin : In row (rows (snd result))).
  { unfold getItemByHash in Hfound. now apply find_some in Hfound. }
  assert (Hhash : hash row = generateHash localeCompare i).
  { unfold getItemByHash in Hfound. apply find_some in Hfound as [_ H].
    now apply String.eqb_eq in H. }
  exists row. split; [exact Hrow|]. split; [exact Hhash|].
  split; [unfold getItemById; now apply find_unique_id|].
  split; [exact Hfound|].
  intros Hnew. clear Hfound Hin Hhash Hkey'. unfold result, saveItem in Hrow. rewrite Hnew in Hrow.
    simpl in Hrow. unfold getItemById, insert_row in Hrow. simpl in Hrow.
    rewrite find_app_none in Hrow.
  - simpl in Hrow. rewrite Z.eqb_refl in Hrow. injection Hrow as <-.
    simpl. repeat split; reflexivity.
  - apply find_id_beyond. destruct Hdb as [_ Hids].
    eapply Forall_impl; [|exact Hids]. simpl. intros r Hr. lia.
Qed.

Lemma empty_store_consistent : consistent empty_store.
Proof. split; simpl; constructor. Qed.

Lemma empty_store_primary_key : primary_key empty_store.
Proof. constructor. Qed.

Lemma saved_item_is_read_back_witness :
  consistent empty_store
  /\ primary_key empty_store
  /\ exists row,
       fst (fst (saveItem codeunit_compare "2024-01-01T00:00:00.000Z"
                   ward_first empty_store)) = Some row
       /\ id row = 1%Z
       /\ item_magicalProperties (item row)
          = Some [aura_of_light; ward_of_fire].
Proof.
  split; [exact empty_store_consistent|].
  split; [exact empty_store_primary_key|].
  destruct (saved_item_is_read_back codeunit_compare
              "2024-01-01T00:00:00.000Z" ward_first empty_store
              empty_store_consistent empty_store_primary_key)
    as (row & Hrow & _ & _ & _ & Hnew).
  exists row. split; [exact Hrow|].
  destruct (Hnew eq_refl) as (Hid & _ & _ & _ & _ & _ & _ & _ & Hmp & _).
  split; [exact Hid|]. rewrite Hmp. now vm_compute.
Defined.

Lemma saveItem_adds_at_most_one (localeCompare : string -> string -> Z)
  (now : string) (i : LootItem) (db : Store) :
  exists added,
    rows (snd (saveItem localeCompare now i db)) = (rows db ++ added)%list
    /\ (length added <= 1)%nat.
Proof.
  pose proof (saveItem_rows localeCompare now i db) as Hrows.
  simpl in Hrows.
  destruct (getItemByHash (generateHash localeCompare i) db).
  - rewrite Hrows. exists []. simpl. rewrite app_nil_r. split; [reflexivity|lia].
  - rewrite Hrows. simpl. eexists. split; [reflexivity|]. simpl. lia.
Qed.

Lemma saveItem_keeps_hashes (localeCompare : string -> string -> Z)
  (now : string) (i : LootItem) (db : Store) (h : string) (row : DatabaseItem) :
  getItemByHash h db = Some row ->
  getItemByHash h (snd (saveItem localeCompare now i db)) = Some row.
Proof.
  destruct (saveItem_adds_at_most_one localeCompare now i db)
    as (added & Hrows & _).
  unfold getItemByHash. rewrite Hrows. apply find_app_some.
Qed.

(** X5.  A save leaves the rows of the store alone: the rows after it are
    the rows before it, followed by at most one row, and whatever
    [getItemById] or [getItemByHash] returned before the save they return
    after it. *)
Theorem saveItem_keeps_the_rows
  (localeCompare : string -> string -> Z) (now : string) (i : LootItem)
  (db : Store) :
  let db' := snd (saveItem localeCompare now i db) in
  (exists added, rows db' = (rows db ++ added)%list /\ (length added <= 1)%nat)
  /\ (forall n row, getItemById n db = Some row -> getItemById n db' = Some row)
  /\ (forall h row,
        getItemByHash h db = Some row -> getItemByHash h db' = Some row).
Proof.
  intros db'.
  split; [apply saveItem_adds_at_most_one|].
  split; [|intros h row; apply saveItem_keeps_hashes].
  destruct (saveItem_adds_at_most_one localeCompare now i db)
    as (added & Hrows & _).
  intros n row. unfold getItemById, db'. rewrite Hrows. apply find_app_some.
Qed.

(* ================================================================== *)
(** ** The queries *)

Lemma newer_first_trans (a b c : DatabaseItem) :
  newer_first a b -> newer_first b c -> newer_first a c.
Proof.
  unfold newer_first. intros Hab Hbc.
  exact (codeunit_compare_trans _ _ _ Hbc Hab).
Qed.

Lemma place_Permutation (row : DatabaseItem) (l : list DatabaseItem) :
  Permutation (row :: l) (place row l).
Proof.
  induction l as [|r rest IH]; simpl; [reflexivity|].
  destruct (codeunit_compare (createdAt r) (createdAt row) <=? 0)%Z;
    [reflexivity|].
  rewrite perm_swap. now constructor.
Qed.

Lemma place_Sorted (row : DatabaseItem) (l : list DatabaseItem) :
  Sorted newer_first l -> Sorted newer_first (place row l).
Proof.
  induction 1 as [|r rest Hrest IH Hhd]; simpl.
  - repeat constructor.
  - destruct (Z.leb_spec (codeunit_compare (createdAt r) (createdAt row)) 0)
      as [Hle|Hgt].
    + constructor; [now constructor|now constructor].
    + assert (Hr : newer_first r row).
      { destruct (codeunit_compare_total (createdAt row) (createdAt r))
          as [H|H]; [exact H|lia]. }
      constructor; [exact IH|].
      destruct rest as [|r' rest']; simpl.
      * now constructor.
      * destruct (codeunit_compare (createdAt r') (createdAt row) <=? 0)%Z;
          constructor; [exact Hr|now inversion Hhd].
Qed.

Lemma newest_first_sorts : sorts_newest_first newest_first.
Proof.
  intros l. split.
  - induction l as [|row rest IH]; simpl; [constructor|].
    rewrite <- place_Permutation. now constructor.
  - apply Sorted_StronglySorted; [exact newer_first_trans|].
    induction l as [|row rest IH]; simpl; [constructor|].
    now apply place_Sorted.
Qed.

Lemma tier_name_injective (a b : LootTier) : tier_name a = tier_name b -> a = b.
Proof. destruct a, b; simpl; intros H; first [reflexivity|discriminate]. Qed.

Lemma tier_is_spec (tier : LootTier) (row : DatabaseItem) :
  tier_is tier row = true <-> item_tier (item row) = tier.
Proof.
  unfold tier_is. rewrite String.eqb_eq. split.
  - apply tier_name_injective.
  - now intros ->.
Qed.

Lemma setName_is_spec (setName' : string) (row : DatabaseItem) :
  setName_is setName' row = true <-> item_setName (item row) = Some setName'.
Proof.
  unfold setName_is. destruct (item_setName (item row)) as [s|].
  - rewrite String.eqb_eq. split; [now intros ->|now intros [= ->]].
  - split; discriminate.
Qed.

Lemma StronglySorted_firstn {A : Type} (R : A -> A -> Prop) (n : nat)
  (l : list A) :
  StronglySorted R l -> StronglySorted R (firstn n l).
Proof.
  intros H. revert n. induction H as [|a rest Hrest IH Hall]; intros [|n]; simpl;
    try constructor.
  - apply IH.
  - rewrite Forall_forall in *. intros x Hx. apply Hall.
    eapply (In_nth_error) in Hx as [k Hk].
    clear - Hk. revert n k Hk.
    induction rest as [|y rest IH]; intros [|n] [|k]; simpl; try discriminate.
    + intros [= ->]. now left.
    + intros H. right. eapply IH. exact H.
Qed.

Lemma StronglySorted_split {A : Type} (R : A -> A -> Prop) (l1 l2 : list A) :
  StronglySorted R (l1 ++ l2) -> forall a b, In a l1 -> In b l2 -> R a b.
Proof.
  induction l1 as [|x rest IH]; simpl; intros H a b Ha Hb; [contradiction|].
  inversion H as [|? ? Hrest Hall]; subst.
  destruct Ha as [<-|Ha].
  - rewrite Forall_forall in Hall. apply Hall, in_or_app. now right.
  - now apply IH.
Qed.

(** X6.  [getAllItems] returns the rows of the table, the newest first.
    Without a limit, and with a limit of zero or below, it returns all of
    them: a zero is falsy and selects the statement without [LIMIT], and a
    negative [LIMIT] is none.  With a limit [n] above zero it returns [n]
    rows, or all when there are fewer, and none of the rows it leaves out is
    newer than one it returns. *)
Theorem getAllItems_returns_the_newest
  (ORDER_BY_createdAt_DESC : list DatabaseItem -> list DatabaseItem)
  (db : Store) (n : Z) :
  sorts_newest_first ORDER_BY_createdAt_DESC ->
  Permutation (rows db) (getAllItems ORDER_BY_createdAt_DESC None db)
  /\ StronglySorted newer_first (getAllItems ORDER_BY_createdAt_DESC (Some n) db)
  /\ ((n <= 0)%Z ->
      getAllItems ORDER_BY_createdAt_DESC (Some n) db
      = getAllItems ORDER_BY_createdAt_DESC None db)
  /\ ((0 < n)%Z ->
      Z.of_nat (length (getAllItems ORDER_BY_createdAt_DESC (Some n) db))
      = Z.min n (totalItems db)
      /\ exists rest,
           Permutation (rows db)
             (getAllItems ORDER_BY_createdAt_DESC (Some n) db ++ rest)
           /\ forall a b,
                In a (getAllItems ORDER_BY_createdAt_DESC (Some n) db) ->
                In b rest -> newer_first a b).
Proof.
  intros Hsorts. destruct (Hsorts (rows db)) as [Hperm Hsorted].
  unfold getAllItems, LIMIT, totalItems.
  split; [exact Hperm|]. split; [|split].
  - destruct (n =? 0)%Z; [exact Hsorted|].
    destruct (n <? 0)%Z; [exact Hsorted|].
    now apply StronglySorted_firstn.
  - intros Hn. destruct (Z.eqb_spec n 0); [reflexivity|].
    destruct (Z.ltb_spec n 0); [reflexivity|lia].
  - intros Hn. destruct (Z.eqb_spec n 0); [lia|].
    destruct (Z.ltb_spec n 0); [lia|]. split.
    + rewrite length_firstn, <- (Permutation_length Hperm). lia.
    + exists (skipn (Z.to_nat n) (ORDER_BY_createdAt_DESC (rows db))). split.
      * now rewrite firstn_skipn.
      * apply StronglySorted_split. now rewrite firstn_skipn.
Qed.

Lemma getAllItems_returns_the_newest_witness :
  sorts_newest_first newest_first
  /\ map (fun row => item_name (item row))
       (getAllItems newest_first (Some 2%Z) three_relics)
     = ["Crown"; "Orb"]
  /\ map (fun row => item_name (item row))
       (getAllItems newest_first (Some 0%Z) three_relics)
     = ["Crown"; "Orb"; "Sceptre"]
  /\ StronglySorted newer_first (getAllItems newest_first (Some 2%Z) three_relics).
Proof.
  split; [exact newest_first_sorts|].
  split; [now vm_compute|]. split; [now vm_compute|].
  exact (proj1 (proj2 (getAllItems_returns_the_newest newest_first three_relics
                         2 newest_first_sorts))).
Defined.

Lemma count_of_getStats (tier' : LootTier) (db : Store) :
  count_of tier' (itemsByTier (getStats db)) = COUNT_tier tier' db.
Proof. destruct tier'; reflexivity. Qed.

(** X7.  [getItemsByTier] returns the rows of the tier and no other, the
    newest first, as many as [getStats] counts for the tier. *)
Theorem getItemsByTier_selects_the_tier
  (ORDER_BY_createdAt_DESC : list DatabaseItem -> list DatabaseItem)
  (db : Store) (tier' : LootTier) :
  sorts_newest_first ORDER_BY_createdAt_DESC ->
  let selected := getItemsByTier ORDER_BY_createdAt_DESC tier' db in
  (forall row,
     In row selected <-> In row (rows db) /\ item_tier (item row) = tier')
  /\ Z.of_nat (length selected) = count_of tier' (itemsByTier (getStats db))
  /\ StronglySorted newer_first selected.
Proof.
  intros Hsorts selected.
  destruct (Hsorts (filter (tier_is tier') (rows db))) as [Hperm Hsorted].
  fold (getItemsByTier ORDER_BY_createdAt_DESC tier' db) in Hperm, Hsorted.
  fold selected in Hperm, Hsorted.
  split; [|split].
  - intros row. rewrite <- tier_is_spec, <- filter_In. split; intros Hin.
    + eapply Permutation_in; [symmetry; exact Hperm|exact Hin].
    + eapply Permutation_in; [exact Hperm|exact Hin].
  - rewrite count_of_getStats. unfold COUNT_tier.
    now rewrite (Permutation_length Hperm).
  - exact Hsorted.
Qed.

Lemma getItemsByTier_selects_the_tier_witness :
  sorts_newest_first newest_first
  /\ map (fun row => item_name (item row))
       (getItemsByTier newest_first GOLD three_relics)
     = ["Crown"; "Sceptre"]
  /\ Z.of_nat (length (getItemsByTier newest_first GOLD three_relics))
     = count_of GOLD (itemsByTier (getStats three_relics)).
Proof.
  split; [exact newest_first_sorts|]. split; [now vm_compute|].
  exact (proj1 (proj2 (getItemsByTier_selects_the_tier newest_first
                         three_relics GOLD newest_first_sorts))).
Defined.

(** X8.  [getItemsBySetName] returns the rows of the set and no other, the
    newest first.  A row without a set name is in no set: no name selects
    it, not the empty one either. *)
Theorem getItemsBySetName_selects_the_set
  (ORDER_BY_createdAt_DESC : list DatabaseItem -> list DatabaseItem)
  (db : Store) (setName' : string) :
  sorts_newest_first ORDER_BY_createdAt_DESC ->
  let selected := getItemsBySetName ORDER_BY_createdAt_DESC setName' db in
  (forall row,
     In row selected
     <-> In row (rows db) /\ item_setName (item row) = Some setName')
  /\ length selected = length (filter (setName_is setName') (rows db))
  /\ StronglySorted newer_first selected.
Proof.
  intros Hsorts selected.
  destruct (Hsorts (filter (setName_is setName') (rows db))) as [Hperm Hsorted].
  fold (getItemsBySetName ORDER_BY_createdAt_DESC setName' db) in Hperm, Hsorted.
  fold selected in Hperm, Hsorted.
  split; [|split].
  - intros row. rewrite <- setName_is_spec, <- filter_In. split; intros Hin.
    + eapply Permutation_in; [symmetry; exact Hperm|exact Hin].
    + eapply Permutation_in; [exact Hperm|exact Hin].
  - now rewrite (Permutation_length Hperm).
  - exact Hsorted.
Qed.

Lemma getItemsBySetName_selects_the_set_witness :
  sorts_newest_first newest_first
  /\ map (fun row => item_name (item row))
       (getItemsBySetName newest_first "Regalia" three_relics)
     = ["Crown"; "Sceptre"]
  /\ getItemsBySetName newest_first "" three_relics = []
  /\ StronglySorted newer_first
       (getItemsBySetName newest_first "Regalia" three_relics).
Proof.
  split; [exact newest_first_sorts|]. split; [now vm_compute|].
  split; [now vm_compute|].
  exact (proj2 (proj2 (getItemsBySetName_selects_the_set newest_first
                         three_relics "Regalia" newest_first_sorts))).
Defined.

Lemma filter_cons_length {A : Type} (f : A -> bool) (x : A) (l : list A) :
  length (filter f (x :: l))
  = ((if f x then 1 else 0) + length (filter f l))%nat.
Proof. simpl. destruct (f x); reflexivity. Qed.

Lemma tiers_partition (l : list DatabaseItem) :
  fold_right Z.add 0%Z
    (map (fun tier => Z.of_nat (length (filter (tier_is tier) l))) all_tiers)
  = Z.of_nat (length l).
Proof.
  induction l as [|row rest IH]; [reflexivity|].
  cbn [all_tiers map fold_right] in *.
  rewrite !filter_cons_length. unfold tier_is at 1 3 5 7 9 11.
  destruct (item_tier (item row));
    cbn [tier_name String.eqb Ascii.eqb Bool.eqb length]; lia.
Qed.

(** X9.  [getStats] counts every item once: it lists a count for each of the
    six tiers, in their order, and the six counts add up to [totalItems]. *)
Theorem getStats_counts_every_item_once (db : Store) :
  map fst (itemsByTier (getStats db)) = all_tiers
  /\ total_of (itemsByTier (getStats db)) = stats_totalItems (getStats db)
  /\ (forall tier',
        (0 <= count_of tier' (itemsByTier (getStats db))
         <= stats_totalItems (getStats db))%Z).
Proof.
  split; [reflexivity|]. split.
  - unfold total_of, getStats, totalItems. cbn [itemsByTier stats_totalItems].
    rewrite map_map. cbn [snd]. unfold COUNT_tier. apply tiers_partition.
  - intros tier'. rewrite count_of_getStats.
    unfold COUNT_tier, getStats, totalItems. cbn [stats_totalItems].
    pose proof (filter_length_le (tier_is tier') (rows db)). lia.
Qed.

(** X10.  What a save does to the counts: saving an item the store has
    changes no count; saving one it has not adds one to the total and one to
    the count of the item's tier, and leaves the other tiers as they were. *)
Theorem saveItem_counts_the_item
  (localeCompare : string -> string -> Z) (now : string) (i : LootItem)
  (db : Store) :
  let db' := snd (saveItem localeCompare now i db) in
  match getItemByHash (generateHash localeCompare i) db with
  | Some _ => getStats db' = getStats db
  | None =>
      stats_totalItems (getStats db') = (stats_totalItems (getStats db) + 1)%Z
      /\ forall tier',
           count_of tier' (itemsByTier (getStats db'))
           = (count_of tier' (itemsByTier (getStats db))
              + if String.eqb (tier_name (item_tier i)) (tier_name tier')
                then 1 else 0)%Z
  end.
Proof.
  intros db'. pose proof (saveItem_rows localeCompare now i db) as Hrows.
  simpl in Hrows. unfold db'.
  destruct (getItemByHash (generateHash localeCompare i) db).
  - now rewrite Hrows.
  - rewrite Hrows. split.
    + unfold getStats, totalItems. cbn [stats_totalItems rows].
      rewrite length_app. simpl. lia.
    + intros tier'. rewrite !count_of_getStats. unfold COUNT_tier.
      cbn [rows]. rewrite filter_app, length_app. cbn [filter].
      unfold tier_is at 2. cbn [item stored item_tier sorted_in_place].
      destruct (String.eqb (tier_name (item_tier i)) (tier_name tier'));
        simpl; lia.
Qed.

(* ================================================================== *)
(** ** The items of [generateLoot] are [LootItem]s *)

Lemma parse_string (x y : value) :
  parse ZString x = Some y -> exists s, y = VStr s.
Proof. destruct x; simpl; intros [= <-]. eauto. Qed.

Lemma parse_optional_string (x y : value) :
  parse (ZOptional ZString) x = Some y ->
  exists o, optional_string y = Some o.
Proof. destruct x; simpl; intros [= <-]; simpl; eauto. Qed.

Lemma parse_optional_number (x y : value) :
  parse z_number_optional x = Some y ->
  exists o, optional_number y = Some o.
Proof. destruct x; simpl; intros [= <-]; simpl; eauto. Qed.

Lemma parse_type (x y : value) :
  parse (ZNativeEnum (map type_name all_types)) x = Some y ->
  exists s t, y = VStr s /\ ItemType_of_string s = Some t.
Proof.
  destruct x as [| | | |s| |]; simpl; try discriminate.
  destruct (_ || _) eqn:He; [|discriminate].
  intros [= <-]. exists s. unfold ItemType_of_string. simpl.
  repeat (destruct (String.eqb s _); [eexists; split; reflexivity|]).
  discriminate.
Qed.

Lemma parse_tier (x y : value) :
  parse (ZNativeEnum (map tier_name all_tiers)) x = Some y ->
  exists s t, y = VStr s /\ LootTier_of_string s = Some t.
Proof.
  destruct x as [| | | |s| |]; simpl; try discriminate.
  destruct (_ || _) eqn:He; [|discriminate].
  intros [= <-]. exists s. unfold LootTier_of_string. simpl.
  repeat (destruct (String.eqb s _); [eexists; split; reflexivity|]).
  discriminate.
Qed.

Lemma parse_subType (s : schema) (x y : value) :
  In ("subType", s) (shape_of LootItemSchema) ->
  parse s x = Some y -> exists sub, y = VStr sub.
Proof.
  intros Hin. simpl in Hin.
  repeat (destruct Hin as [[= <-]|Hin]; try discriminate); [|contradiction].
  intros H. assert (Hy : y = x) by (eapply parse_transparent; [|exact H]; reflexivity).
  subst y. destruct x as [| | | |sub| |]; try discriminate. eauto.
Qed.

Lemma parse_rarity (lo hi : option Q) (x y : value) :
  parse (ZNumber lo hi) x = Some y -> exists q, y = VNum q.
Proof.
  destruct x as [| | |q| | |]; simpl; try discriminate.
  destruct (within lo hi q); intros [= <-]. eauto.
Qed.

Lemma parse_MagicalProperty (x y : value) :
  parse MagicalPropertySchema x = Some y ->
  exists p, MagicalProperty_of y = Some p.
Proof.
  destruct x as [| | | | | |props]; try discriminate.
  unfold MagicalPropertySchema. rewrite parse_object.
  destruct (parse_fields _ _ _) as [out|] eqn:Hout; [|discriminate].
  intros [= <-].
  assert (Hnd : NoDup (map fst (shape_of MagicalPropertySchema)))
    by (apply distinct_keys_NoDup; reflexivity).
  pose proof (parse_fields_get _ _ _ _ "name" ZString Hnd Hout
                ltac:(field_of_item)) as Hname.
  pose proof (parse_fields_get _ _ _ _ "description" ZString Hnd Hout
                ltac:(field_of_item)) as Hdescription.
  pose proof (parse_fields_get _ _ _ _ "magnitude" z_number_optional Hnd Hout
                ltac:(field_of_item)) as Hmagnitude.
  apply parse_string in Hname as [n Hn].
  apply parse_string in Hdescription as [d Hd].
  apply parse_optional_number in Hmagnitude as [m Hm].
  unfold MagicalProperty_of. rewrite Hn, Hd, Hm. eauto.
Qed.

Lemma parse_magicalProperties (x y : value) :
  parse (ZOptional (ZArray MagicalPropertySchema)) x = Some y ->
  exists o, MagicalProperties_of y = Some o.
Proof.
  destruct x as [| | | | |l|]; try discriminate.
  - intros [= <-]. simpl. eauto.
  - change (parse (ZOptional (ZArray MagicalPropertySchema)) (VArr l))
      with (option_map VArr (sequence (map (parse MagicalPropertySchema) l))).
    destruct (sequence (map (parse MagicalPropertySchema) l)) as [l'|] eqn:Hl;
      [|discriminate].
    intros [= <-]. simpl.
    apply sequence_Forall2 in Hl.
    destruct (sequence_total MagicalProperty_of l') as [ps Hps].
    + clear - Hl. induction Hl as [|a b l l' Hab _ IH]; constructor; [|exact IH].
      eapply parse_MagicalProperty. exact Hab.
    + rewrite Hps. simpl. eauto.
Qed.

(** What [LootItemSchema.parse] returns is a [LootItem]. *)
Lemma validated_LootItem (v item : value) :
  parse LootItemSchema v = Some item -> exists i, LootItem_of item = Some i.
Proof.
  destruct v as [| | | | | |st]; try discriminate. intros Hparse.
  pose proof (fun k s => validated_field st item k s Hparse) as Hfield.
  pose proof (Hfield "name" _ ltac:(field_of_item)) as Hname.
  pose proof (Hfield "type" _ ltac:(field_of_item)) as Htype.
  pose proof (Hfield "subType" _ ltac:(field_of_item)) as HsubType.
  pose proof (Hfield "tier" _ ltac:(field_of_item)) as Htier.
  pose proof (Hfield "description" _ ltac:(field_of_item)) as Hdescription.
  pose proof (Hfield "magicalProperties" _ ltac:(field_of_item)) as Hmp.
  pose proof (Hfield "lore" _ ltac:(field_of_item)) as Hlore.
  pose proof (Hfield "setName" _ ltac:(field_of_item)) as HsetName.
  pose proof (Hfield "rarity" _ ltac:(field_of_item)) as Hrarity.
  apply parse_string in Hname as [n Hn].
  apply parse_type in Htype as (ty & t & Hty & Ht).
  apply parse_subType in HsubType as [sub Hsub]; [|field_of_item].
  apply parse_tier in Htier as (ti & tier' & Hti & Htier').
  apply parse_string in Hdescription as [d Hd].
  apply parse_magicalProperties in Hmp as [mp Hmp].
  apply parse_optional_string in Hlore as [lore' Hlore].
  apply parse_optional_string in HsetName as [setName' HsetName].
  apply parse_rarity in Hrarity as [q Hq].
  unfold LootItem_of.
  rewrite Hn, Hty, Hsub, Hti, Hd, Hq, Ht, Htier', Hmp, Hlore, HsetName.
  eauto.
Qed.

Lemma generateLoot_LootItems (random : nat -> Q)
  (chat : nat -> ChatRequest -> Reply) (defaultModel : string)
  (options : GenerationOptions) (w : World) :
  Forall (fun item => exists i, LootItem_of item = Some i)
    (fst (generateLoot random chat defaultModel options w)).
Proof.
  apply generateLoot_Forall. intros g item w0 w1 Hrec.
  destruct (reconcile_returned _ _ _ _ _ _ Hrec)
    as (ty & sub & st & rar & Hparse & _).
  eapply validated_LootItem. exact Hparse.
Qed.

Lemma LootItems_of_length (items : list value) :
  Forall (fun item => exists i, LootItem_of item = Some i) items ->
  length (LootItems_of items) = length items.
Proof.
  induction 1 as [|v rest [i Hi] _ IH]; [reflexivity|].
  unfold LootItems_of in *. simpl. rewrite Hi. simpl. now f_equal.
Qed.

(* ================================================================== *)
(** ** Generating and saving *)

Lemma saveItem_new (localeCompare : string -> string -> Z)
  (now : string) (i : LootItem) (db : Store) :
  consistent db ->
  getItemByHash (generateHash localeCompare i) db = None ->
  saveItem localeCompare now i db
  = (Some {| id := last_id db + 1;
             item := stored (sorted_in_place localeCompare i);
             hash := generateHash localeCompare i; createdAt := now |},
     sorted_in_place localeCompare i,
     insert_row (sorted_in_place localeCompare i)
       (generateHash localeCompare i) now db).
Proof.
  intros [_ Hids] Hnew. unfold saveItem. rewrite Hnew.
  unfold getItemById, insert_row. simpl.
  rewrite find_app_none.
  - simpl. now rewrite Z.eqb_refl.
  - apply find_id_beyond. eapply Forall_impl; [|exact Hids].
    simpl. intros r Hr. lia.
Qed.

Lemma save_loop_accounts (localeCompare : string -> string -> Z)
  (ORDER_BY_createdAt_DESC : list DatabaseItem -> list DatabaseItem)
  (clock : nat -> string) (items : list LootItem) :
  sorts_newest_first ORDER_BY_createdAt_DESC ->
  forall (k : nat) (saved' duplicates' : Z) (db : Store),
    consistent db ->
    let result := save_loop localeCompare ORDER_BY_createdAt_DESC clock items k
                    saved' duplicates' db in
    generated (fst result) = map (sorted_in_place localeCompare) items
    /\ (saved' <= saved (fst result))%Z
    /\ (duplicates' <= duplicates (fst result))%Z
    /\ (saved (fst result) + duplicates (fst result)
        = saved' + duplicates' + Z.of_nat (length items))%Z
    /\ totalItems (snd result)
       = (totalItems db + (saved (fst result) - saved'))%Z
    /\ consistent (snd result)
    /\ (forall h row, getItemByHash h db = Some row ->
                      getItemByHash h (snd result) = Some row)
    /\ Forall (fun i => exists row,
                 getItemByHash (generateHash localeCompare i) (snd result)
                 = Some row) items.
Proof.
  intros Hsorts.
  assert (Hlen : forall db, length (getAllItems ORDER_BY_createdAt_DESC None db)
                            = length (rows db)).
  { intros db. simpl. symmetry. apply Permutation_length, Hsorts. }
  induction items as [|i rest IH]; intros k saved' duplicates' db Hdb result.
  - simpl. repeat split; try lia; auto; apply Hdb.
  - unfold result. cbn [save_loop]. rewrite !Hlen.
    pose proof (saveItem_consistent localeCompare (clock k) i db Hdb) as Hdb'.
    pose proof (saveItem_keeps_hashes localeCompare (clock k) i db) as Hkept.
    pose proof (saveItem_returns_row localeCompare (clock k) i db Hdb)
      as (row & _ & Hfound & _).
    destruct (getItemByHash (generateHash localeCompare i) db)
      as [existing|] eqn:Hfind.
    + assert (Hsave : saveItem localeCompare (clock k) i db
                      = (Some existing, sorted_in_place localeCompare i, db)).
      { unfold saveItem. now rewrite Hfind. }
      rewrite Hsave in *. simpl in Hdb', Hkept, Hfound. rewrite Hlen.
      rewrite Z.ltb_irrefl.
      specialize (IH (S k) saved' (duplicates' + 1)%Z db Hdb).
      destruct (save_loop localeCompare ORDER_BY_createdAt_DESC clock rest (S k)
                  saved' (duplicates' + 1)%Z db) as [report db''].
      simpl in IH |- *.
      destruct IH as (Hgen & Hs & Hd & Hsum & Htotal & Hcons & Hkeep & Hall).
      repeat split; try assumption; try lia; try apply Hcons.
      * now rewrite Hgen.
      * constructor; [|exact Hall]. exists existing. now apply Hkeep.
    + rewrite (saveItem_new localeCompare (clock k) i db Hdb Hfind) in *.
      simpl in Hdb', Hkept, Hfound. rewrite Hlen.
      set (db1 := insert_row (sorted_in_place localeCompare i)
                    (generateHash localeCompare i) (clock k) db) in *.
      assert (Hgrow : totalItems db1 = (totalItems db + 1)%Z).
      { unfold totalItems, db1, insert_row. simpl. rewrite length_app. simpl. lia. }
      unfold totalItems in Hgrow.
      destruct (Z.ltb_spec (Z.of_nat (length (rows db)))
                  (Z.of_nat (length (rows db1)))) as [_|Hle]; [|lia].
      specialize (IH (S k) (saved' + 1)%Z duplicates' db1 Hdb').
      destruct (save_loop localeCompare ORDER_BY_createdAt_DESC clock rest (S k)
                  (saved' + 1)%Z duplicates' db1) as [report db''].
      simpl in IH |- *.
      destruct IH as (Hgen & Hs & Hd & Hsum & Htotal & Hcons & Hkeep & Hall).
      repeat split; try assumption; try lia; try apply Hcons.
      * now rewrite Hgen.
      * unfold totalItems in *. lia.
      * intros h r Hr. apply Hkeep, Hkept, Hr.
      * constructor; [|exact Hall]. exists row. now apply Hkeep.
Qed.

(** X11.  [generateAndSaveLoot] accounts for every item.  It generates as
    [generateLoot] does and saves each item; every item counts either as
    saved or as a duplicate, the table grows by the number of saved items,
    and afterwards it has a row with the hash of each generated item.  The
    items it reports are the generated ones after [saveItem] sorted their
    magical properties. *)
Theorem generateAndSaveLoot_accounts_for_every_item
  (random : nat -> Q) (chat : nat -> ChatRequest -> Reply)
  (defaultModel : string) (localeCompare : string -> string -> Z)
  (ORDER_BY_createdAt_DESC : list DatabaseItem -> list DatabaseItem)
  (clock : nat -> string) (options : GenerationOptions) (w : World)
  (db : Store) :
  sorts_newest_first ORDER_BY_createdAt_DESC ->
  consistent db ->
  let items := fst (generateLoot random chat defaultModel options w) in
  let result := generateAndSaveLoot random chat defaultModel localeCompare
                  ORDER_BY_createdAt_DESC clock options w db in
  let report := fst (fst result) in
  snd (fst result) = snd (generateLoot random chat defaultModel options w)
  /\ length (generated report) = length items
  /\ generated report
     = map (sorted_in_place localeCompare) (LootItems_of items)
  /\ (0 <= saved report)%Z
  /\ (0 <= duplicates report)%Z
  /\ (saved report + duplicates report)%Z = Z.of_nat (length items)
  /\ totalItems (snd result) = (totalItems db + saved report)%Z
  /\ consistent (snd result)
  /\ Forall (fun i => exists row,
               getItemByHash (generateHash localeCompare i) (snd result)
               = Some row) (LootItems_of items).
Proof.
  intros Hsorts Hdb items result report.
  pose proof (generateLoot_LootItems random chat defaultModel options w) as Htyped.
  apply LootItems_of_length in Htyped. fold items in Htyped.
  unfold report, result, generateAndSaveLoot.
  destruct (generateLoot random chat defaultModel options w) as [generatedItems w']
    eqn:Hgen.
  subst items. simpl fst in *. simpl snd.
  pose proof (save_loop_accounts localeCompare ORDER_BY_createdAt_DESC clock
                (LootItems_of generatedItems) Hsorts 0%nat 0%Z 0%Z db Hdb)
    as (Hg & Hs & Hd & Hsum & Htotal & Hcons & _ & Hall).
  destruct (save_loop localeCompare ORDER_BY_createdAt_DESC clock
              (LootItems_of generatedItems) 0 0 0 db) as [rep db'].
  simpl in *.
  repeat split; try assumption; try lia; try apply Hcons.
  now rewrite Hg, length_map.
Qed.

Lemma generateAndSaveLoot_accounts_for_every_item_witness :
  sorts_newest_first newest_first
  /\ consistent empty_store
  /\ length (generated (fst (fst twice_the_same))) = 2%nat
  /\ saved (fst (fst twice_the_same)) = 1%Z
  /\ duplicates (fst (fst twice_the_same)) = 1%Z
  /\ totalItems (snd twice_the_same)
     = (totalItems empty_store + saved (fst (fst twice_the_same)))%Z.
Proof.
  split; [exact newest_first_sorts|]. split; [exact empty_store_consistent|].
  split; [now vm_compute|]. split; [now vm_compute|]. split; [now vm_compute|].
  pose proof (generateAndSaveLoot_accounts_for_every_item half
                (always (success_item "Iron Blade" 8)) "llama3.1"
                codeunit_compare newest_first noon two_swords initial
                empty_store newest_first_sorts empty_store_consistent) as H.
  cbv zeta in H. apply H.
Defined.

(* ================================================================== *)
(** ** Requests without an item type, and random subtypes *)

Lemma attempt_untyped (random : nat -> Q) (chat : nat -> ChatRequest -> Reply)
  (options : GenerationOptions) (model' : string) (w : World) :
  itemType options = None -> given (subType options) = None ->
  attempt random chat options model' w
  = (Thrown TypeError,
     {| draws := S (draws w); chats := chats w; orders := orders w;
        errors := errors w |}).
Proof.
  intros Htype Hsub. unfold attempt, generatePrompt, bind.
  rewrite Hsub, Htype. reflexivity.
Qed.

Lemma untyped_loop (random : nat -> Q) (chat : nat -> ChatRequest -> Reply)
  (options : GenerationOptions) (model' : string) :
  itemType options = None -> given (subType options) = None ->
  forall (n : nat) (i : Z) (items : list value) (w : World),
    generateLoot_loop random chat options model' n i items w
    = (items,
       {| draws := (draws w + n)%nat; chats := chats w; orders := orders w;
          errors := (errors w ++ type_errors i n)%list |}).
Proof.
  intros Htype Hsub. induction n as [|n IH]; intros i items w; simpl.
  - rewrite Nat.add_0_r, app_nil_r. now destruct w.
  - rewrite (attempt_untyped random chat options model' w Htype Hsub), IH.
    simpl. rewrite <- app_assoc, Nat.add_succ_r. reflexivity.
Qed.

(** X12.  A request that names neither an item type nor a subtype generates
    nothing.  Every iteration fails before the service is called:
    [generatePrompt] asks [getRandomSubType] for a subtype of no type, which
    draws a random number and throws a [TypeError].  The result is empty,
    the service is never called, and each iteration logs its failure. *)
Theorem request_without_type_generates_nothing
  (random : nat -> Q) (chat : nat -> ChatRequest -> Reply)
  (defaultModel : string) (options : GenerationOptions) (w : World) :
  itemType options = None ->
  given (subType options) = None ->
  let result := generateLoot random chat defaultModel options w in
  fst result = []
  /\ chats (snd result) = chats w
  /\ errors (snd result)
     = (errors w ++ type_errors 0%Z (Z.to_nat (count options)))%list
  /\ draws (snd result) = (draws w + Z.to_nat (count options))%nat.
Proof.
  intros Htype Hsub result. unfold result, generateLoot.
  rewrite (untyped_loop random chat options _ Htype Hsub).
  repeat split.
Qed.

Lemma request_without_type_generates_nothing_witness :
  itemType three_of_any_type = None
  /\ given (subType three_of_any_type) = None
  /\ fst any_type_run = []
  /\ chats (snd any_type_run) = chats initial
  /\ errors (snd any_type_run)
     = [(1, TypeError); (2, TypeError); (3, TypeError)]%Z.
Proof.
  split; [reflexivity|]. split; [reflexivity|].
  destruct (request_without_type_generates_nothing half (always flameheart)
              "llama3.1" three_of_any_type initial eq_refl eq_refl)
    as (Hitems & Hchats & Herrors & _).
  split; [exact Hitems|]. split; [exact Hchats|]. exact Herrors.
Defined.

Lemma element_member (options : list string) (k : Z) :
  (0 <= k < Z.of_nat (length options))%Z ->
  exists s, element options (inject_Z k) = VStr s /\ In s options.
Proof.
  intros Hk. unfold element. rewrite Qfloor_Z.
  assert (H0 : Qle_bool 0 (inject_Z k) = true).
  { apply Qle_bool_iff. change 0%Q with (inject_Z 0). rewrite <- Zle_Qle. lia. }
  assert (H1 : Qeq_bool (inject_Z k) (inject_Z k) = true)
    by (apply Qeq_bool_iff; reflexivity).
  rewrite H0, H1. simpl.
  destruct (nth_error options (Z.to_nat k)) as [s|] eqn:Hnth.
  - exists s. split; [reflexivity|]. eapply nth_error_In. exact Hnth.
  - apply nth_error_None in Hnth. lia.
Qed.

Lemma floor_scaled (x : Q) (n : Z) :
  (0 <= x < 1)%Q -> (0 < n)%Z -> (0 <= Qfloor (x * inject_Z n) < n)%Z.
Proof.
  intros [Hx0 Hx1] Hn.
  assert (HnQ : (0 < inject_Z n)%Q).
  { change 0%Q with (inject_Z 0). rewrite <- Zlt_Qlt. exact Hn. }
  split.
  - rewrite <- (Qfloor_Z 0). apply Qfloor_resp_le.
    change (inject_Z 0) with 0%Q. nra.
  - apply Z.lt_nge. intros Hge.
    assert (Hle : (inject_Z n <= x * inject_Z n)%Q).
    { eapply Qle_trans; [|apply Qfloor_le].
      rewrite <- Zle_Qle. exact Hge. }
    nra.
Qed.

Lemma getRandomSubType_member (random : nat -> Q) (t : ItemType) (w : World) :
  (forall n, (0 <= random n < 1)%Q) ->
  exists s w',
    getRandomSubType random (VStr (type_name t)) w = (Returned (VStr s), w')
    /\ In s (subTypes t).
Proof.
  intros Hrandom. unfold getRandomSubType, bind, Math_random.
  rewrite switch_type_name. unfold Math_floor.
  destruct (element_member (subTypes t)
              (Qfloor (random (draws w)
                       * inject_Z (Z.of_nat (length (subTypes t))))))
    as (s & Hs & Hin).
  - apply floor_scaled; [apply Hrandom|]. destruct t; simpl; lia.
  - exists s. eexists. unfold ret. rewrite Hs. split; [reflexivity|exact Hin].
Qed.

(** X13.  A random subtype is one of the item type.  When the random source
    draws from the interval from 0 to 1, 1 excluded, [getRandomSubType]
    returns one of the subtypes of the item type it is asked for; so the
    prompt of a request for an item type names the requested subtype or one
    of the subtypes of that type. *)
Theorem random_subtype_is_of_the_type
  (random : nat -> Q) (t : ItemType) (options : GenerationOptions) (w : World) :
  (forall n, (0 <= random n < 1)%Q) ->
  (exists s w',
     getRandomSubType random (VStr (type_name t)) w = (Returned (VStr s), w')
     /\ In s (subTypes t))
  /\ (itemType options = Some t ->
      exists prompt w',
        generatePrompt random options w = (Returned prompt, w')
        /\ match given (subType options) with
           | Some s => prompt_subType prompt = VStr s
           | None => exists s, prompt_subType prompt = VStr s /\ In s (subTypes t)
           end).
Proof.
  intros Hrandom.
  split; [now apply getRandomSubType_member|].
  intros Htype. unfold generatePrompt, bind. rewrite Htype.
  destruct (given (subType options)) as [s|].
  - eexists. eexists. split; reflexivity.
  - simpl type_value.
    destruct (getRandomSubType_member random t w Hrandom) as (s & w' & Hs & Hin).
    rewrite Hs. eexists. eexists. split; [reflexivity|]. simpl. eauto.
Qed.

Lemma random_subtype_is_of_the_type_witness :
  (forall n, (0 <= half n < 1)%Q)
  /\ itemType silver_armor = Some ARMOR
  /\ exists s w',
       getRandomSubType half (VStr (type_name ARMOR)) initial
       = (Returned (VStr s), w')
       /\ In s (subTypes ARMOR).
Proof.
  split; [exact half_is_random|]. split; [reflexivity|].
  exact (proj1 (random_subtype_is_of_the_type half ARMOR silver_armor initial
                  half_is_random)).
Defined.

(* ================================================================== *)
(** ** The baseline stays within the ranges *)

Lemma round_between (a b : Z) (y : Q) :
  inject_Z a <= y <= inject_Z b ->
  inject_Z a <= Math_round y <= inject_Z b.
Proof.
  intros [Ha Hb]. unfold Math_round. rewrite <- !Zle_Qle.
  apply floor_between.
  - lra.
  - rewrite inject_Z_plus. change (inject_Z 1) with 1. lra.
Qed.

Lemma is_integer_spec (q : Q) : is_integer q = true -> q == inject_Z (Qfloor q).
Proof. unfold is_integer. intros H. apply Qeq_bool_iff in H. now symmetry. Qed.

Lemma randomInRange_within (random : nat -> Q) (r : Range) (w : World) :
  0 <= random (draws w) < 1 ->
  well_ranged r = true ->
  exists q w',
    randomInRange random r w = (Returned q, w') /\ min r <= q <= max r.
Proof.
  intros [Hx0 Hx1] Hr. unfold well_ranged in Hr.
  apply andb_true_iff in Hr as [Hr Hmax]. apply andb_true_iff in Hr as [Hle Hmin].
  apply Qle_bool_iff in Hle.
  apply is_integer_spec in Hmin, Hmax.
  eexists. eexists. split; [reflexivity|].
  set (x := random (draws w)) in *.
  set (y := (x * (max r - min r) + min r) * 100).
  assert (Hy : inject_Z (Qfloor (min r * 100)) <= Math_round y
               <= inject_Z (Qfloor (max r * 100))).
  { apply round_between. rewrite <- Hmin, <- Hmax. unfold y. nra. }
  rewrite <- Hmin, <- Hmax in Hy.
  split.
  - apply Qle_shift_div_l; [reflexivity|tauto].
  - apply Qle_shift_div_r; [reflexivity|tauto].
Qed.

Lemma unrounded_within (random : nat -> Q) (t : option ItemType)
  (tier : LootTier) (k : string) (r : Range) (w : World) :
  0 <= random (draws w) < 1 ->
  baseline_range t tier k = Some r ->
  well_ranged r = true ->
  exists v w',
    unrounded random r w = (Returned v, w') /\ within_its_range t tier (k, v).
Proof.
  intros Hx Hrange Hr.
  destruct (randomInRange_within random r w Hx Hr) as (q & w' & Hq & Hin).
  exists (VNum q), w'. unfold unrounded, bind. rewrite Hq.
  split; [reflexivity|]. exists r, q. auto.
Qed.

Lemma rounded_within (random : nat -> Q) (t : option ItemType)
  (tier : LootTier) (k : string) (r : Range) (w : World) :
  0 <= random (draws w) < 1 ->
  baseline_range t tier k = Some r ->
  whole_ranged r = true ->
  exists v w',
    rounded random r w = (Returned v, w') /\ within_its_range t tier (k, v).
Proof.
  intros Hx Hrange Hr. unfold whole_ranged in Hr.
  apply andb_true_iff in Hr as [Hr Hmax]. apply andb_true_iff in Hr as [Hr Hmin].
  apply is_integer_spec in Hmin, Hmax.
  destruct (randomInRange_within random r w Hx Hr) as (q & w' & Hq & Hin).
  exists (VNum (Math_round q)), w'. unfold rounded, bind. rewrite Hq.
  split; [reflexivity|]. exists r, (Math_round q).
  split; [exact Hrange|]. split; [reflexivity|].
  rewrite Hmin, Hmax. apply round_between. now rewrite <- Hmin, <- Hmax.
Qed.

(** X14.  Every stat of the baseline lies within the range it is drawn from.
    When the random source draws from the interval from 0 to 1, 1 excluded,
    [generateStatsForType] returns, for every item type and tier, stats that
    each are a number between the [min] and the [max] of the range the
    tables give the stat for that type and tier. *)
Theorem baseline_stats_are_within_their_ranges
  (random : nat -> Q) (itemType : value) (tier : LootTier) (w : World) :
  (forall n, 0 <= random n < 1) ->
  exists baselineStats w',
    generateStatsForType random itemType tier w = (Returned baselineStats, w')
    /\ Forall (within_its_range (switch_type itemType) tier) baselineStats.
Proof.
  intros Hrandom. unfold generateStatsForType.
  destruct (switch_type itemType) as [[]|]; destruct tier;
    apply literal_returns; repeat constructor; intros w0; simpl fst; simpl snd;
    first [ apply rounded_within; [apply Hrandom|reflexivity|reflexivity]
          | apply unrounded_within; [apply Hrandom|reflexivity|reflexivity] ].
Qed.

Lemma baseline_stats_are_within_their_ranges_witness :
  (forall n, 0 <= half n < 1)
  /\ exists baselineStats w',
       generateStatsForType half (VStr "Weapon") GOLD initial
       = (Returned baselineStats, w')
       /\ Forall (within_its_range (Some WEAPON) GOLD) baselineStats.
Proof.
  split; [exact half_is_random|].
  exact (baseline_stats_are_within_their_ranges half (VStr "Weapon") GOLD
           initial half_is_random).
Defined.

(* ================================================================== *)
(** ** What validation lets through *)

Lemma lookup_keys (k : string) (props : list (string * value)) :
  lookup k props <> None -> In k (map fst props).
Proof.
  induction props as [|[k' v] rest IH]; simpl; [congruence|].
  destruct (String.eqb_spec k k') as [->|_]; [now left|].
  intros H. right. now apply IH.
Qed.

Lemma parse_fields_subset (v : value) (props : list (string * value))
  (shape : list (string * schema)) (out : list (string * value)) :
  parse_fields v props shape = Some out -> incl (map fst out) (map fst shape).
Proof.
  revert out. induction shape as [|[k s] rest IH]; simpl; intros out.
  - intros [= <-]. apply incl_nil_l.
  - destruct (parse s (get v k)) as [x|]; [|discriminate].
    destruct (parse_fields v props rest) as [out'|]; [|discriminate].
    specialize (IH out' eq_refl).
    intros [= <-]. destruct (has_key k props || defined x); simpl.
    + apply incl_cons; [now left|]. now apply incl_tl.
    + now apply incl_tl.
Qed.

(** X15.  The items [generateLoot] returns are [LootItem]s and nothing more:
    each is an object with keys of the schema only, whatever other keys the
    reply of the model had, and their values are of the types of a
    [LootItem]. *)
Theorem returned_items_are_LootItems
  (random : nat -> Q) (chat : nat -> ChatRequest -> Reply)
  (defaultModel : string) (options : GenerationOptions) (w : World)
  (item : value) :
  In item (fst (generateLoot random chat defaultModel options w)) ->
  incl (keys item) LootItem_keys
  /\ (forall k, ~ In k LootItem_keys -> get item k = VUndefined)
  /\ exists i, LootItem_of item = Some i.
Proof.
  intros Hin.
  assert (Hall : Forall (fun item =>
                           exists v, parse LootItemSchema v = Some item)
                   (fst (generateLoot random chat defaultModel options w))).
  { apply generateLoot_Forall. intros g item' w0 w1 Hrec.
    destruct (reconcile_returned _ _ _ _ _ _ Hrec)
      as (ty & sub & st & rar & Hparse & _). eauto. }
  rewrite Forall_forall in Hall. destruct (Hall item Hin) as [v Hparse].
  split; [|split].
  - destruct v as [| | | | | |st]; try discriminate.
    unfold LootItemSchema in Hparse. rewrite parse_object in Hparse.
    destruct (parse_fields _ _ _) as [out|] eqn:Hout; [|discriminate].
    injection Hparse as <-. simpl.
    exact (parse_fields_subset _ _ _ _ Hout).
  - intros k Hk.
    destruct v as [| | | | | |st]; try discriminate.
    unfold LootItemSchema in Hparse. rewrite parse_object in Hparse.
    destruct (parse_fields _ _ _) as [out|] eqn:Hout; [|discriminate].
    injection Hparse as <-. simpl.
    now rewrite (parse_fields_keys _ _ _ _ k Hout Hk).
  - eapply validated_LootItem. exact Hparse.
Qed.

Lemma returned_items_are_LootItems_witness :
  In (first_item potion_run) (fst potion_run)
  /\ get healing_draught "flavour" = VStr "cherry"
  /\ get (first_item potion_run) "flavour" = VUndefined
  /\ incl (keys (first_item potion_run)) LootItem_keys.
Proof.
  assert (Hin : In (first_item potion_run) (fst potion_run))
    by (vm_compute; left; reflexivity).
  split; [exact Hin|]. split; [reflexivity|].
  split; [vm_compute; reflexivity|].
  exact (proj1 (returned_items_are_LootItems half (always healing_draught)
                  "llama3.1" silver_potion initial _ Hin)).
Defined.

Lemma base_stats_only (a b c : value) (k : string) :
  get (VObj [("durability", a); ("weight", b); ("value", c)]) k <> VUndefined ->
  In k ["durability"; "weight"; "value"].
Proof.
  simpl.
  destruct (String.eqb_spec k "durability") as [->|_]; [simpl; tauto|].
  destruct (String.eqb_spec k "weight") as [->|_]; [simpl; tauto|].
  destruct (String.eqb_spec k "value") as [->|_]; [simpl; tauto|].
  congruence.
Qed.

Lemma consumable_stats_validated (m1 m2 m3 m4 m5 m6 m7 stats' : value) :
  parse ItemStatsSchema
    (VObj [("healingPower", m1); ("manaPower", m2); ("duration", m3);
           ("stackSize", m4); ("durability", m5); ("weight", m6);
           ("value", m7)]) = Some stats' ->
  stats' = VObj [("durability", m5); ("weight", m6); ("value", m7)].
Proof.
  destruct m5, m6, m7; vm_compute; intros H;
    solve [discriminate H | now injection H as <-].
Qed.

Lemma material_stats_validated (m1 m2 m3 m5 m6 m7 stats' : value) :
  parse ItemStatsSchema
    (VObj [("purity", m1); ("stackSize", m2); ("craftingBonus", m3);
           ("durability", m5); ("weight", m6); ("value", m7)]) = Some stats' ->
  stats' = VObj [("durability", m5); ("weight", m6); ("value", m7)].
Proof.
  destruct m5, m6, m7; vm_compute; intros H;
    solve [discriminate H | now injection H as <-].
Qed.

Lemma reconcile_stats (random : nat -> Q) (options : GenerationOptions)
  (g item : value) (w w' : World) (t : ItemType) :
  itemType options = Some t ->
  reconcile random options g w = (Returned item, w') ->
  exists aiStats w0 w1 stats',
    transformToStructuredStats random aiStats (VStr (type_name t))
      (tier options) w0 = (Returned stats', w1)
    /\ parse ItemStatsSchema stats' = Some (get item "stats").
Proof.
  intros Htype Hrec.
  destruct (reconcile_returned _ _ _ _ _ _ Hrec)
    as (ty & sub & st & rar & Hparse & _ & _ & _ & ai & tyv & w0 & w1 & Htrans & Htyv).
  rewrite (Htyv t Htype) in Htrans.
  exists ai, w0, w1, st. split; [exact Htrans|].
  destruct (get_structured options g ty sub st rar) as (_ & _ & _ & Gst & _).
  rewrite <- Gst at 1.
  eapply validated_field; [exact Hparse|field_of_item].
Qed.

(** X16.  The stats of a consumable or of a material do not survive
    validation.  An item [generateLoot] returns for a request of the type
    Consumable or Material has stats with the keys durability, weight and
    value and no other: of the schemas of the union [ItemStatsSchema] the
    one of an accessory comes before theirs, it accepts their stats, and it
    strips [healingPower], [manaPower], [duration], [stackSize], [purity]
    and [craftingBonus]. *)
Theorem consumable_and_material_stats_are_stripped
  (random : nat -> Q) (chat : nat -> ChatRequest -> Reply)
  (defaultModel : string) (options : GenerationOptions) (w : World)
  (item : value) :
  itemType options = Some CONSUMABLE \/ itemType options = Some MATERIAL ->
  In item (fst (generateLoot random chat defaultModel options w)) ->
  keys (get item "stats") = ["durability"; "weight"; "value"]
  /\ forall k,
       In k ["healingPower"; "manaPower"; "duration"; "stackSize"; "purity";
             "craftingBonus"] ->
       get (get item "stats") k = VUndefined.
Proof.
  intros Htype Hin.
  assert (Hall : Forall (fun item =>
                           exists a b c,
                             get item "stats"
                             = VObj [("durability", a); ("weight", b);
                                     ("value", c)])
                   (fst (generateLoot random chat defaultModel options w))).
  { apply generateLoot_Forall. intros g item' w0 w1 Hrec.
    destruct Htype as [Htype|Htype];
      destruct (reconcile_stats _ _ _ _ _ _ _ Htype Hrec)
        as (ai & w2 & w3 & st & Htrans & Hparse);
      unfold transformToStructuredStats, bind in Htrans;
      destruct (generateStatsForType random _ (tier options) w2)
        as [[baselineStats|e] w4]; try discriminate;
      unfold ret in Htrans; injection Htrans as <- _;
      cbv beta iota zeta delta [switch_type ItemType_of_string type_name
                                find all_types String.eqb Ascii.eqb Bool.eqb]
        in Hparse.
    - apply consumable_stats_validated in Hparse. eauto.
    - apply material_stats_validated in Hparse. eauto. }
  rewrite Forall_forall in Hall. destruct (Hall item Hin) as (a & b & c & ->).
  split; [reflexivity|].
  intros k Hk. simpl in Hk.
  repeat (destruct Hk as [<-|Hk]; [reflexivity|]). contradiction.
Qed.

Lemma consumable_and_material_stats_are_stripped_witness :
  (itemType silver_potion = Some CONSUMABLE
   \/ itemType silver_potion = Some MATERIAL)
  /\ In (first_item potion_run) (fst potion_run)
  /\ get (get healing_draught "stats") "healingPower" = VNum 90
  /\ get (get (first_item potion_run) "stats") "healingPower" = VUndefined
  /\ keys (get (first_item potion_run) "stats")
     = ["durability"; "weight"; "value"].
Proof.
  assert (Htype : itemType silver_potion = Some CONSUMABLE
                  \/ itemType silver_potion = Some MATERIAL) by (left; reflexivity).
  assert (Hin : In (first_item potion_run) (fst potion_run))
    by (vm_compute; left; reflexivity).
  split; [exact Htype|]. split; [exact Hin|]. split; [reflexivity|].
  split; [vm_compute; reflexivity|].
  exact (proj1 (consumable_and_material_stats_are_stripped half
                  (always healing_draught) "llama3.1" silver_potion initial _
                  Htype Hin)).
Defined.

(* ================================================================== *)
(** ** The form of a hash *)

Lemma round_length (k : Z) (st : list Z * list Z) :
  length (fst (SHA256.round k st)) = 8%nat.
Proof. destruct st as [v win]. reflexivity. Qed.

Lemma rounds_length (ks : list Z) (st : list Z * list Z) :
  length (fst st) = 8%nat ->
  length (fst (fold_left (fun st k => SHA256.round k st) ks st)) = 8%nat.
Proof.
  revert st. induction ks as [|k rest IH]; intros st Hst; simpl; [exact Hst|].
  apply IH, round_length.
Qed.

Lemma compress_length (h block : list Z) :
  length h = 8%nat -> length (SHA256.compress h block) = 8%nat.
Proof.
  intros Hh. unfold SHA256.compress.
  pose proof (rounds_length SHA256.K (h, block) Hh) as Hv.
  destruct (fold_left _ SHA256.K (h, block)) as [v win]. simpl in Hv.
  rewrite length_map, length_combine, Hh, Hv. reflexivity.
Qed.

Lemma blocks_length (n : nat) (h ws : list Z) :
  length h = 8%nat -> length (SHA256.blocks n h ws) = 8%nat.
Proof.
  revert h ws. induction n as [|n IH]; intros h ws Hh; simpl; [exact Hh|].
  apply IH, compress_length, Hh.
Qed.

Lemma hex_digit_hex (d : Z) :
  (0 <= d < 16)%Z -> is_hex_digit (SHA256.hex_digit d) = true.
Proof.
  intros Hd.
  assert (H : In d (map Z.of_nat (seq 0 16))).
  { apply in_map_iff. exists (Z.to_nat d). split; [lia|]. apply in_seq. lia. }
  simpl in H.
  repeat (destruct H as [<-|H]; [reflexivity|]). contradiction.
Qed.

Lemma hex_word_hex (x : Z) :
  String.length (SHA256.hex_word x) = 8%nat
  /\ all_hex (SHA256.hex_word x) = true.
Proof.
  split; [reflexivity|].
  unfold SHA256.hex_word. cbn [fold_right all_hex].
  rewrite !hex_digit_hex; [reflexivity| | | | | | | |];
    change 15%Z with (Z.ones 4); rewrite Z.land_ones by lia;
    apply Z.mod_pos_bound; lia.
Qed.

Lemma all_hex_app (a b : string) :
  all_hex (a ++ b) = all_hex a && all_hex b.
Proof.
  induction a as [|c a IH]; simpl; [reflexivity|].
  now rewrite IH, andb_assoc.
Qed.

Lemma length_append (a b : string) :
  String.length (a ++ b) = (String.length a + String.length b)%nat.
Proof. induction a as [|c a IH]; simpl; [reflexivity|now rewrite IH]. Qed.

Lemma hex_words_hex (ws : list Z) :
  String.length (String.concat "" (map SHA256.hex_word ws))
  = (8 * length ws)%nat
  /\ all_hex (String.concat "" (map SHA256.hex_word ws)) = true.
Proof.
  induction ws as [|x rest [IHlen IHhex]]; [split; reflexivity|].
  destruct (hex_word_hex x) as [Hlen Hhex].
  cbn [map]. destruct rest as [|y rest'].
  - cbn [map String.concat]. split; [exact Hlen|exact Hhex].
  - change (String.concat "" (SHA256.hex_word x :: map SHA256.hex_word (y :: rest')))
      with (SHA256.hex_word x ++ ""
            ++ String.concat "" (map SHA256.hex_word (y :: rest'))).
    cbn [append] in *. split.
    + rewrite length_append, Hlen, IHlen. simpl length. lia.
    + now rewrite all_hex_app, Hhex, IHhex.
Qed.

(** X17.  A hash is 64 digits of lower-case hexadecimal notation, for every
    item and under every collation. *)
Theorem generateHash_is_64_hex_digits
  (localeCompare : string -> string -> Z) (i : LootItem) :
  String.length (generateHash localeCompare i) = 64%nat
  /\ all_hex (generateHash localeCompare i) = true.
Proof.
  unfold generateHash. cbn [hashed_content JSON_stringify].
  unfold SHA256.hex, SHA256.digest.
  match goal with
  | |- context [SHA256.blocks ?n SHA256.H0 ?ws] =>
      pose proof (blocks_length n SHA256.H0 ws eq_refl) as Hlen;
      destruct (hex_words_hex (SHA256.blocks n SHA256.H0 ws)) as [Hl Hh]
  end.
  rewrite Hlen in Hl. split; [exact Hl|exact Hh].
Qed.

(* ================================================================== *)
(** ** Stats in the store *)

Lemma JSON_roundtrip_object (props : list (string * value)) :
  JSON_roundtrip (VObj props) = VObj (members_read_back props).
Proof. reflexivity. Qed.

Lemma lookup_In (k : string) (x : value) (props : list (string * value)) :
  lookup k props = Some x -> In (k, x) props.
Proof.
  induction props as [|[k' v] rest IH]; simpl; [discriminate|].
  destruct (String.eqb_spec k k') as [->|_].
  - intros [= ->]. now left.
  - intros H. right. now apply IH.
Qed.

Lemma lookup_read_back (k : string) (props : list (string * value)) :
  NoDup (map fst props) ->
  lookup k (members_read_back props)
  = match lookup k props with
    | Some VUndefined | None => None
    | Some x => Some (JSON_roundtrip x)
    end.
Proof.
  induction props as [|[k' x] rest IH]; simpl; intros Hnd; [reflexivity|].
  inversion Hnd as [|? ? Hfresh Hnd']; subst.
  assert (Hrest : k = k' -> lookup k (members_read_back rest) = None).
  { intros ->. rewrite (IH Hnd').
    destruct (lookup k' rest) as [y|] eqn:Hy; [|reflexivity].
    exfalso. apply Hfresh. apply lookup_In in Hy.
    change k' with (fst (k', y)). now apply in_map. }
  destruct x; simpl; destruct (String.eqb_spec k k') as [Heq|_];
    auto using IH.
Qed.

(** Reading a property of an object with distinct keys after the object
    went through JSON gives what the property makes through JSON. *)
Lemma get_read_back (props : list (string * value)) (k : string) :
  NoDup (map fst props) ->
  get (JSON_roundtrip (VObj props)) k = JSON_roundtrip (get (VObj props) k).
Proof.
  intros Hnd. rewrite JSON_roundtrip_object. simpl.
  rewrite (lookup_read_back k props Hnd).
  destruct (lookup k props) as [[]|]; reflexivity.
Qed.

Lemma parse_fields_NoDup (v : value) (props : list (string * value))
  (shape : list (string * schema)) (out : list (string * value)) :
  NoDup (map fst shape) ->
  parse_fields v props shape = Some out -> NoDup (map fst out).
Proof.
  revert out. induction shape as [|[k s] rest IH]; simpl; intros out Hnd.
  - intros [= <-]. constructor.
  - inversion Hnd as [|? ? Hfresh Hnd']; subst.
    destruct (parse s (get v k)) as [x|]; [|discriminate].
    destruct (parse_fields v props rest) as [out'|] eqn:Hout; [|discriminate].
    intros [= <-]. specialize (IH out' Hnd' eq_refl).
    destruct (has_key k props || defined x); [|exact IH].
    simpl. constructor; [|exact IH].
    intros Hin. apply Hfresh. exact (parse_fields_subset _ _ _ _ Hout k Hin).
Qed.

Lemma parse_number_flat (s : schema) (x y : value) :
  s = z_number \/ s = z_number_optional ->
  parse s x = Some y -> JSON_roundtrip y = y.
Proof.
  intros [->| ->]; destruct x; simpl; intros [= <-]; reflexivity.
Qed.

(** An object of optional numbers reads the same before and after JSON. *)
Lemma numbers_read_back (shape : list (string * schema)) (v stats : value)
  (k : string) :
  distinct_keys (map fst shape) = true ->
  (forall s, In (k, s) shape -> s = z_number \/ s = z_number_optional) ->
  parse (ZObject shape) v = Some stats ->
  get (JSON_roundtrip stats) k = get stats k.
Proof.
  intros Hkeys Hflat Hparse. apply distinct_keys_NoDup in Hkeys.
  destruct v as [| | | | | |props]; try discriminate.
  rewrite parse_object in Hparse.
  destruct (parse_fields _ _ _) as [out|] eqn:Hout; [|discriminate].
  injection Hparse as <-.
  rewrite get_read_back by (eapply parse_fields_NoDup; eauto).
  destruct (in_dec string_dec k (map fst shape)) as [Hin|Hout'].
  - apply in_map_iff in Hin as ([k' s] & Hk & Hin). simpl in Hk. subst k'.
    eapply parse_number_flat; [exact (Hflat s Hin)|].
    eapply parse_fields_get; eauto.
  - simpl. now rewrite (parse_fields_keys _ _ _ _ k Hout Hout').
Qed.

Ltac field_schema Hin :=
  simpl in Hin;
  repeat (destruct Hin as [Hin|Hin];
          [first [ discriminate Hin
                 | injection Hin as <- <-; auto; try congruence
                 | injection Hin as <-; auto ]|]);
  try contradiction.

Lemma optional_object_reads_back (shape : list (string * schema))
  (x y : value) (e : string) :
  distinct_keys (map fst shape) = true ->
  (forall s, In (e, s) shape -> s = z_number \/ s = z_number_optional) ->
  parse (ZOptional (ZObject shape)) x = Some y ->
  get (JSON_roundtrip y) e = get y e.
Proof.
  intros Hkeys Hflat Hparse.
  destruct x as [| | | | | |props]; try discriminate.
  - injection Hparse as <-. reflexivity.
  - change (parse (ZOptional (ZObject shape)) (VObj props))
      with (parse (ZObject shape) (VObj props)) in Hparse.
    eapply numbers_read_back; eauto.
Qed.

Lemma stats_read_back (v stats : value) :
  parse ItemStatsSchema v = Some stats ->
  (forall k, k <> "elementalResistance" ->
             get (JSON_roundtrip stats) k = get stats k)
  /\ (forall e,
        get (get (JSON_roundtrip stats) "elementalResistance") e
        = get (get stats "elementalResistance") e).
Proof.
  unfold ItemStatsSchema. rewrite parse_union. intros Hparse.
  apply parse_first_In in Hparse as (s & Hs & Hparse).
  assert (Hnested : forall shape,
             s = ZObject shape ->
             distinct_keys (map fst shape) = true ->
             (forall s', In ("elementalResistance", s') shape ->
                s' = ZOptional (ZObject
                       [("fire", z_number_optional); ("ice", z_number_optional);
                        ("lightning", z_number_optional);
                        ("poison", z_number_optional);
                        ("dark", z_number_optional);
                        ("light", z_number_optional)])) ->
             forall e,
               get (get (JSON_roundtrip stats) "elementalResistance") e
               = get (get stats "elementalResistance") e).
  { intros shape -> Hkeys Hschema e.
    destruct v as [| | | | | |props]; try discriminate.
    rewrite parse_object in Hparse.
    destruct (parse_fields _ _ _) as [out|] eqn:Hout; [|discriminate].
    injection Hparse as <-.
    rewrite get_read_back
      by (eapply parse_fields_NoDup; eauto using distinct_keys_NoDup).
    destruct (in_dec string_dec "elementalResistance" (map fst shape))
      as [Hin|Hnone].
    - apply in_map_iff in Hin as ([k' s'] & Hk & Hin). simpl in Hk. subst k'.
      pose proof (parse_fields_get _ _ _ _ _ _ (distinct_keys_NoDup _ Hkeys)
                    Hout Hin) as Hfield.
      rewrite (Hschema s' Hin) in Hfield.
      eapply optional_object_reads_back; [| |exact Hfield]; [reflexivity|].
      intros s0 Hin0. field_schema Hin0.
    - simpl. now rewrite (parse_fields_keys _ _ _ _ _ Hout Hnone). }
  simpl in Hs.
  destruct Hs as [<-|[<-|[<-|[<-|[<-|[]]]]]]; split;
    try (intros k Hk; eapply numbers_read_back; [| |exact Hparse];
         [reflexivity|intros s0 Hin0; field_schema Hin0]);
    try (eapply Hnested; [reflexivity|reflexivity|];
         intros s0 Hin0; field_schema Hin0).
Qed.

(** X18.  The stats of a stored item read as those of the item saved.  The
    store keeps the stats as JSON text, which has no place for a key without
    a value; yet every stat of a validated item, and every elemental
    resistance of an armor, reads from the stored row as it reads from the
    item. *)
Theorem stored_stats_read_the_same
  (localeCompare : string -> string -> Z) (i : LootItem) (v : value) :
  parse ItemStatsSchema v = Some (item_stats i) ->
  let kept := stored (sorted_in_place localeCompare i) in
  (forall k, k <> "elementalResistance" ->
             get (item_stats kept) k = get (item_stats i) k)
  /\ (forall e,
        get (get (item_stats kept) "elementalResistance") e
        = get (get (item_stats i) "elementalResistance") e).
Proof.
  intros Hparse kept. exact (stats_read_back v (item_stats i) Hparse).
Qed.

Lemma stored_stats_read_the_same_witness :
  parse ItemStatsSchema (item_stats dragon_plate)
  = Some (item_stats dragon_plate)
  /\ keys (item_stats (stored (sorted_in_place codeunit_compare dragon_plate)))
     = ["durability"; "value"; "defense"; "elementalResistance"]
  /\ forall e,
       get (get (item_stats (stored (sorted_in_place codeunit_compare
                                       dragon_plate)))
              "elementalResistance") e
       = get (get (item_stats dragon_plate) "elementalResistance") e.
Proof.
  assert (Hparse : parse ItemStatsSchema (item_stats dragon_plate)
                   = Some (item_stats dragon_plate)) by (vm_compute; reflexivity).
  split; [exact Hparse|]. split; [reflexivity|].
  exact (proj2 (stored_stats_read_the_same codeunit_compare dragon_plate
                  (item_stats dragon_plate) Hparse)).
Defined.

(* ================================================================== *)
(** ** What the prompt asks for *)

Lemma literal_keys (fields : list (string * Eff value))
  (props : list (string * value)) (w w' : World) :
  literal fields w = (Returned props, w') -> map fst props = map fst fields.
Proof.
  revert props w w'.
  induction fields as [|[k m] rest IH]; intros props w w'; simpl.
  - intros [= <- _]. reflexivity.
  - unfold bind. destruct (m w) as [[v|e] w1]; [|discriminate].
    destruct (literal rest w1) as [[props'|e] w2] eqn:Hrest; [|discriminate].
    intros [= <- _]. simpl. f_equal. eapply IH. exact Hrest.
Qed.

(** X19.  The prompt asks the model for the stats of the baseline.  For an
    item type with a range table the text of [getTypeSpecificRequirements]
    is a heading and one line per stat; the stats of these lines are the
    stats [generateStatsForType] generates, in the same order, and each line
    quotes the range the baseline of its stat is drawn from. *)
Theorem prompt_asks_for_the_baseline_stats
  (random : nat -> Q) (t : ItemType) (subType' : value) (tier : LootTier)
  (w : World) (heading : string) (lines : list Requirement) :
  requirements (Some t) tier = Some (heading, lines) ->
  getTypeSpecificRequirements (Some t) subType' tier
  = String.concat newline (heading :: map requirement_line lines)
  /\ Forall (fun line =>
               baseline_range (Some t) tier (req_stat line)
               = Some (req_range line)) lines
  /\ exists baselineStats w',
       generateStatsForType random (VStr (type_name t)) tier w
       = (Returned baselineStats, w')
       /\ map fst baselineStats = map req_stat lines.
Proof.
  intros Hreq. split; [|split].
  - unfold getTypeSpecificRequirements. now rewrite Hreq.
  - destruct t; try discriminate Hreq; destruct tier;
      injection Hreq as <- <-; repeat constructor.
  - destruct (generateStatsForType_rounded random (VStr (type_name t)) tier w)
      as (baselineStats & w' & Hbase & _).
    exists baselineStats, w'. split; [exact Hbase|].
    unfold generateStatsForType in Hbase. rewrite switch_type_name in Hbase.
    destruct t; try discriminate Hreq; injection Hreq as <- <-;
      apply literal_keys in Hbase; rewrite Hbase; reflexivity.
Qed.

Lemma prompt_asks_for_the_baseline_stats_witness :
  requirements (Some WEAPON) GOLD
  = Some ("WEAPON STATS REQUIRED (as flat numeric values):", gold_weapon_lines)
  /\ nth 0 (map requirement_line gold_weapon_lines) ""
     = "- damage: Base damage (18-35)"
  /\ nth 7 (map requirement_line gold_weapon_lines) ""
     = "- weight: Weight in kg (0.6-5)"
  /\ Forall (fun line =>
               baseline_range (Some WEAPON) GOLD (req_stat line)
               = Some (req_range line)) gold_weapon_lines.
Proof.
  split; [reflexivity|]. split; [vm_compute; reflexivity|].
  split; [vm_compute; reflexivity|].
  exact (proj1 (proj2 (prompt_asks_for_the_baseline_stats half WEAPON
                         (VStr "Sword") GOLD initial _ _ eq_refl))).
Defined.

(* ================================================================== *)
(** ** The calls of the service *)

Lemma generatePrompt_follows (random : nat -> Q) (options : GenerationOptions)
  (defaultModel : string) (prompt : Prompt) (w w' : World) :
  generatePrompt random options w = (Returned prompt, w') ->
  follows defaultModel options
    {| chat_model := used_model defaultModel options; chat_prompt := prompt |}.
Proof.
  unfold generatePrompt, bind, follows.
  destruct (given (subType options)) as [s|] eqn:Hsub.
  - intros [= <- _]. simpl.
    do 5 (split; [reflexivity|]). now intros s' [= <-].
  - destruct (getRandomSubType random _ w) as [[sub|e] w1]; [|discriminate].
    intros [= <- _]. simpl.
    do 5 (split; [reflexivity|]). discriminate.
Qed.

Lemma attempt_calls (random : nat -> Q) (chat : nat -> ChatRequest -> Reply)
  (options : GenerationOptions) (defaultModel : string) (w : World) :
  exists calls,
    chats (snd (attempt random chat options (used_model defaultModel options) w))
    = (chats w ++ calls)%list
    /\ (length calls <= 1)%nat
    /\ Forall (follows defaultModel options) calls.
Proof.
  unfold attempt, bind.
  pose proof (quiet_generatePrompt random options w) as (Hchats & _).
  destruct (generatePrompt random options w) as [[prompt|e] w1] eqn:Hprompt;
    simpl in Hchats.
  - exists [{| chat_model := used_model defaultModel options;
               chat_prompt := prompt |}].
    split; [|split; [simpl; lia|]].
    + unfold ollama_chat.
      destruct (chat (length (chats w1)) _) as [|parsed]; simpl.
      * now rewrite Hchats.
      * unfold JSON_parse. destruct parsed as [g|]; simpl; [|now rewrite Hchats].
        match goal with
        | |- context [reconcile random options g ?w2] =>
            pose proof (quiet_reconcile random options g w2) as (Hrec & _)
        end.
        rewrite Hrec. simpl. now rewrite Hchats.
    + constructor; [|constructor].
      eapply generatePrompt_follows. exact Hprompt.
  - exists []. simpl. rewrite Hchats, app_nil_r.
    split; [reflexivity|split; [simpl; lia|constructor]].
Qed.

Lemma generateLoot_loop_calls (random : nat -> Q)
  (chat : nat -> ChatRequest -> Reply) (options : GenerationOptions)
  (defaultModel : string) (n : nat) (i : Z) (items : list value) (w : World) :
  exists calls,
    chats (snd (generateLoot_loop random chat options
                  (used_model defaultModel options) n i items w))
    = (chats w ++ calls)%list
    /\ (length calls <= n)%nat
    /\ Forall (follows defaultModel options) calls.
Proof.
  revert i items w. induction n as [|n IH]; intros i items w; simpl.
  - exists []. rewrite app_nil_r.
    split; [reflexivity|split; [simpl; lia|constructor]].
  - destruct (attempt_calls random chat options defaultModel w)
      as (first & Hfirst & Hlen & Hall).
    destruct (attempt random chat options (used_model defaultModel options) w)
      as [[item|e] w1]; simpl in Hfirst.
    + destruct (IH (i + 1)%Z (items ++ [item])%list w1)
        as (rest & Hrest & Hlen' & Hall').
      exists (first ++ rest)%list. rewrite Hrest, Hfirst, <- app_assoc.
      split; [reflexivity|].
      split; [rewrite length_app; lia|now apply Forall_app].
    + destruct (IH (i + 1)%Z items (console_error (i + 1) e w1))
        as (rest & Hrest & Hlen' & Hall').
      exists (first ++ rest)%list. rewrite Hrest. simpl.
      rewrite Hfirst, <- app_assoc.
      split; [reflexivity|].
      split; [rewrite length_app; lia|now apply Forall_app].
Qed.

(** X20.  Every call of the service follows the request.  [generateLoot]
    calls the service at most once in each iteration; each call goes to the
    model the request names, or to the default model when it names none or
    the empty string, with a prompt made for the tier, the item type, the
    set name and the subtype of the request. *)
Theorem service_calls_follow_the_request
  (random : nat -> Q) (chat : nat -> ChatRequest -> Reply)
  (defaultModel : string) (options : GenerationOptions) (w : World) :
  exists calls,
    chats (snd (generateLoot random chat defaultModel options w))
    = (chats w ++ calls)%list
    /\ (length calls <= Z.to_nat (count options))%nat
    /\ Forall (follows defaultModel options) calls.
Proof.
  unfold generateLoot. fold (used_model defaultModel options).
  destruct (generateLoot_loop_calls random chat options defaultModel
              (Z.to_nat (count options)) 0 [] (enter options w))
    as (calls & Hcalls & Hlen & Hall).
  exists calls. split; [exact Hcalls|]. split; [exact Hlen|exact Hall].
Qed.

(* ================================================================== *)
(** ** The rarity bar *)

Lemma String_repeat_cells (s : string) (k : Z) :
  (0 <= k)%Z ->
  String_repeat s k = Some (String.concat "" (repeat s (Z.to_nat k))).
Proof.
  intros Hk. unfold String_repeat.
  destruct (Z.ltb_spec k 0); [lia|reflexivity].
Qed.

(** X21.  The rarity bar has ten cells for every rarity the schema admits.
    For a rarity from 0 to 100, and up to 110 excluded, [getRarityBar]
    returns ten cells of which it fills one for every full ten of the
    rarity; below 0 and from 110 on one of the two counts is negative and
    [repeat] throws. *)
Theorem getRarityBar_has_ten_cells (rarity : Q) :
  (0 <= rarity < 110 ->
   exists k : nat,
     (k <= 10)%nat
     /\ getRarityBar rarity = Some (bar_of k)
     /\ inject_Z (Z.of_nat k) * 10 <= rarity < (inject_Z (Z.of_nat k) + 1) * 10)
  /\ (rarity < 0 \/ 110 <= rarity -> getRarityBar rarity = None).
Proof.
  unfold getRarityBar.
  pose proof (Qfloor_le (rarity / 10)) as Hle.
  pose proof (Qlt_floor (rarity / 10)) as Hlt.
  rewrite inject_Z_plus in Hlt. change (inject_Z 1) with 1 in Hlt.
  assert (Hdiv : rarity == rarity / 10 * 10) by (field).
  split.
  - intros [H0 H110].
    assert (Hk : (0 <= Qfloor (rarity / 10) <= 10)%Z).
    { split.
      - rewrite <- (Qfloor_Z 0). apply Qfloor_resp_le.
        change (inject_Z 0) with 0. lra.
      - apply Z.lt_succ_r. rewrite Zlt_Qlt.
        eapply Qle_lt_trans; [exact Hle|]. change (inject_Z (Z.succ 10)) with 11.
        lra. }
    exists (Z.to_nat (Qfloor (rarity / 10))).
    split; [lia|]. split.
    + rewrite !String_repeat_cells by lia. unfold bar_of.
      replace (Z.to_nat (10 - Qfloor (rarity / 10)))
        with (10 - Z.to_nat (Qfloor (rarity / 10)))%nat by lia.
      reflexivity.
    + rewrite Z2Nat.id by lia. lra.
  - intros [Hneg|Hbig]; unfold String_repeat.
    + assert (Hk : (Qfloor (rarity / 10) < 0)%Z).
      { rewrite Zlt_Qlt. eapply Qle_lt_trans; [exact Hle|].
        change (inject_Z 0) with 0. lra. }
      destruct (Z.ltb_spec (Qfloor (rarity / 10)) 0); [reflexivity|lia].
    + assert (Hk : (11 <= Qfloor (rarity / 10))%Z).
      { rewrite <- (Qfloor_Z 11). apply Qfloor_resp_le.
        change (inject_Z 11) with 11. lra. }
      destruct (Z.ltb_spec (Qfloor (rarity / 10)) 0); [lia|].
      destruct (Z.ltb_spec (10 - Qfloor (rarity / 10)) 0); [reflexivity|lia].
Qed.

(* ================================================================== *)
(** ** Replies the generator makes items of *)

Lemma object_accepts (shape : list (string * schema))
  (props : list (string * value)) :
  Forall (fun ks => exists x, parse (snd ks) (get (VObj props) (fst ks)) = Some x)
    shape ->
  exists x, parse (ZObject shape) (VObj props) = Some x.
Proof.
  intros Hall. rewrite parse_object.
  destruct (parse_fields_total (VObj props) props shape Hall) as [out Hout].
  rewrite Hout. simpl. eauto.
Qed.

Lemma optional_number_accepts (v : value) :
  number_or_undefined v -> exists x, parse z_number_optional v = Some x.
Proof. intros [->|[q ->]]; simpl; eauto. Qed.

Lemma optional_string_accepts (v : value) :
  string_or_undefined v -> exists x, parse (ZOptional ZString) v = Some x.
Proof. intros [->|[s ->]]; simpl; eauto. Qed.

Lemma lookup_Forall (P : value -> Prop) (k : string) (v : value)
  (props : list (string * value)) :
  Forall (fun entry => P (snd entry)) props -> lookup k props = Some v -> P v.
Proof.
  intros Hall Hk. apply lookup_In in Hk.
  rewrite Forall_forall in Hall. exact (Hall (k, v) Hk).
Qed.

Lemma baseline_numbers (random : nat -> Q) (itemType : value) (tier : LootTier)
  (w w' : World) (baselineStats : list (string * value)) :
  generateStatsForType random itemType tier w = (Returned baselineStats, w') ->
  Forall (fun entry => exists q, snd entry = VNum q) baselineStats.
Proof.
  intros Hbase.
  destruct (generateStatsForType_rounded random itemType tier w)
    as (b & w1 & Hb & Hrounded).
  rewrite Hb in Hbase. injection Hbase as <- _.
  eapply Forall_impl; [|exact Hrounded].
  intros [k x]. unfold baseline_rounding. simpl.
  destruct x; try contradiction. eauto.
Qed.

(** The merged stats of numbers are numbers. *)
Lemma merged_numbers (baselineStats stats : list (string * value)) (k : string) :
  Forall (fun entry => exists q, snd entry = VNum q) baselineStats ->
  Forall (fun entry => exists q, snd entry = VNum q) stats ->
  number_or_undefined (get (VObj (assign baselineStats stats)) k).
Proof.
  intros Hbase Hstats. simpl. rewrite lookup_assign.
  destruct (lookup k (rev stats)) as [v|] eqn:Hv.
  - right.
    apply (lookup_Forall (fun v => exists q, v = VNum q) k v (rev stats));
      [apply Forall_rev; exact Hstats|exact Hv].
  - destruct (lookup k baselineStats) as [v|] eqn:Hb; [|now left].
    right.
    exact (lookup_Forall (fun v => exists q, v = VNum q) k v baselineStats
             Hbase Hb).
Qed.

Lemma required_number (merged baseline : value) :
  number_or_undefined merged -> (exists q, baseline = VNum q) ->
  exists x, parse z_number (js_or merged baseline) = Some x.
Proof.
  intros [->|[q ->]] [q' ->]; unfold js_or; simpl; eauto.
  destruct (negb (Qeq_bool q 0)); simpl; eauto.
Qed.

Lemma baseline_has (random : nat -> Q) (t : ItemType) (tier : LootTier)
  (w w' : World) (baselineStats : list (string * value)) (k : string) :
  generateStatsForType random (VStr (type_name t)) tier w
  = (Returned baselineStats, w') ->
  (t = WEAPON /\ k = "damage") \/ (t = ARMOR /\ k = "defense") ->
  exists q, get (VObj baselineStats) k = VNum q.
Proof.
  intros Hbase Hk.
  pose proof (baseline_numbers _ _ _ _ _ _ Hbase) as Hnum.
  unfold generateStatsForType in Hbase. rewrite switch_type_name in Hbase.
  assert (Hin : In k (map fst baselineStats)).
  { destruct Hk as [[-> ->]|[-> ->]]; apply literal_keys in Hbase;
      rewrite Hbase; simpl; tauto. }
  simpl. destruct (lookup k baselineStats) as [v|] eqn:Hv.
  - exact (lookup_Forall (fun v => exists q, v = VNum q) k v baselineStats
             Hnum Hv).
  - exfalso. clear - Hin Hv.
    induction baselineStats as [|[k' x] rest IH]; simpl in *; [contradiction|].
    destruct (String.eqb_spec k k') as [->|Hne]; [discriminate|].
    destruct Hin as [Heq|Hin]; [congruence|auto].
Qed.

(** The structured stats of a reply whose stats are numbers validate. *)
Lemma numbers_validate (random : nat -> Q) (stats : list (string * value))
  (t : ItemType) (tier : LootTier) (w : World) :
  Forall (fun entry => exists q, snd entry = VNum q) stats ->
  exists stats' validated w',
    transformToStructuredStats random (VObj stats) (VStr (type_name t)) tier w
    = (Returned stats', w')
    /\ parse ItemStatsSchema stats' = Some validated.
Proof.
  intros Hstats.
  destruct (generateStatsForType_rounded random (VStr (type_name t)) tier w)
    as (baselineStats & w' & Hbase & _).
  pose proof (baseline_numbers _ _ _ _ _ _ Hbase) as Hnum.
  pose proof (merged_numbers baselineStats stats) as Hmerged.
  specialize (fun k => Hmerged k Hnum Hstats).
  pose proof (baseline_has random t tier w w' baselineStats) as Hhas.
  specialize (fun k => Hhas k Hbase).
  unfold transformToStructuredStats, bind. rewrite Hbase, switch_type_name.
  cbv zeta. simpl own_props.
  set (merged := get (VObj (assign baselineStats stats))) in *.
  set (baseline := get (VObj baselineStats)) in *.
  assert (Hunion : forall st x s,
             In s [WeaponStatsSchema; ArmorStatsSchema; AccessoryStatsSchema;
                   ConsumableStatsSchema; MaterialStatsSchema] ->
             parse s st = Some x ->
             exists validated, parse ItemStatsSchema st = Some validated).
  { intros st x s Hs Hx. unfold ItemStatsSchema. rewrite parse_union.
    eapply parse_first_total; eauto. }
  assert (Hopt : forall k, exists x, parse z_number_optional (merged k) = Some x)
    by (intros k; apply optional_number_accepts, Hmerged).
  destruct t.
  - destruct (object_accepts (shape_of WeaponStatsSchema)
                [("damage", js_or (merged "damage") (baseline "damage"));
                 ("attackSpeed", merged "attackSpeed");
                 ("criticalChance", merged "criticalChance");
                 ("criticalDamage", merged "criticalDamage");
                 ("range", merged "range"); ("accuracy", merged "accuracy");
                 ("durability", merged "durability");
                 ("weight", merged "weight"); ("value", merged "value")])
      as [x Hx].
    { repeat constructor; simpl; try apply Hopt.
      apply required_number; [apply Hmerged|apply Hhas; auto]. }
    destruct (Hunion _ x WeaponStatsSchema ltac:(simpl; tauto) Hx) as [y Hy].
    eexists. exists y, w'. split; [reflexivity|exact Hy].
  - destruct (object_accepts (shape_of ArmorStatsSchema)
                [("defense", js_or (merged "defense") (baseline "defense"));
                 ("magicResistance", merged "magicResistance");
                 ("elementalResistance",
                  VObj [("fire", merged "fireResistance");
                        ("ice", merged "iceResistance");
                        ("lightning", merged "lightningResistance");
                        ("poison", merged "poisonResistance");
                        ("dark", merged "darkResistance");
                        ("light", merged "lightResistance")]);
                 ("durability", merged "durability");
                 ("weight", merged "weight"); ("value", merged "value")])
      as [x Hx].
    { repeat constructor; simpl get; simpl fst; simpl snd; try apply Hopt.
      - apply required_number; [apply Hmerged|apply Hhas; auto].
      - apply (object_accepts
                 [("fire", z_number_optional); ("ice", z_number_optional);
                  ("lightning", z_number_optional);
                  ("poison", z_number_optional); ("dark", z_number_optional);
                  ("light", z_number_optional)]).
        repeat constructor; simpl; apply Hopt. }
    destruct (Hunion _ x ArmorStatsSchema ltac:(simpl; tauto) Hx) as [y Hy].
    eexists. exists y, w'. split; [reflexivity|exact Hy].
  - destruct (object_accepts (shape_of AccessoryStatsSchema)
                [("health", merged "health"); ("mana", merged "mana");
                 ("stamina", merged "stamina"); ("strength", merged "strength");
                 ("dexterity", merged "dexterity");
                 ("intelligence", merged "intelligence");
                 ("wisdom", merged "wisdom");
                 ("constitution", merged "constitution");
                 ("luck", merged "luck"); ("durability", merged "durability");
                 ("weight", merged "weight"); ("value", merged "value")])
      as [x Hx]; [repeat constructor; simpl; apply Hopt|].
    destruct (Hunion _ x AccessoryStatsSchema ltac:(simpl; tauto) Hx) as [y Hy].
    eexists. exists y, w'. split; [reflexivity|exact Hy].
  - destruct (object_accepts (shape_of AccessoryStatsSchema)
                [("healingPower", merged "healingPower");
                 ("manaPower", merged "manaPower");
                 ("duration", merged "duration");
                 ("stackSize", merged "stackSize");
                 ("durability", merged "durability");
                 ("weight", merged "weight"); ("value", merged "value")])
      as [x Hx];
      [repeat constructor; simpl;
       first [apply Hopt|exists VUndefined; reflexivity]|].
    destruct (Hunion _ x AccessoryStatsSchema ltac:(simpl; tauto) Hx) as [y Hy].
    eexists. exists y, w'. split; [reflexivity|exact Hy].
  - destruct (object_accepts (shape_of AccessoryStatsSchema)
                [("purity", merged "purity"); ("stackSize", merged "stackSize");
                 ("craftingBonus", merged "craftingBonus");
                 ("durability", merged "durability");
                 ("weight", merged "weight"); ("value", merged "value")])
      as [x Hx];
      [repeat constructor; simpl;
       first [apply Hopt|exists VUndefined; reflexivity]|].
    destruct (Hunion _ x AccessoryStatsSchema ltac:(simpl; tauto) Hx) as [y Hy].
    eexists. exists y, w'. split; [reflexivity|exact Hy].
  - destruct (object_accepts (shape_of AccessoryStatsSchema)
                (assign baselineStats stats)) as [x Hx];
      [repeat constructor; apply Hopt|].
    destruct (Hunion _ x AccessoryStatsSchema ltac:(simpl; tauto) Hx) as [y Hy].
    eexists. exists y, w'. split; [reflexivity|exact Hy].
  - destruct (object_accepts (shape_of AccessoryStatsSchema)
                (assign baselineStats stats)) as [x Hx];
      [repeat constructor; apply Hopt|].
    destruct (Hunion _ x AccessoryStatsSchema ltac:(simpl; tauto) Hx) as [y Hy].
    eexists. exists y, w'. split; [reflexivity|exact Hy].
Qed.

Lemma structured_keeps (options : GenerationOptions)
  (props : list (string * value)) (ty sub st rar : value) (key : string) :
  NoDup (map fst props) ->
  ~ In key ["type"; "tier"; "subType"; "stats"; "rarity"] ->
  (key = "setName" -> given (setName options) = None) ->
  get (VObj (structured options (VObj props) ty sub st rar)) key
  = get (VObj props) key.
Proof.
  intros Hnd Hkey Hset. unfold get. rewrite structured_lookup.
  assert (Hrest : lookup key (assign [] (own_props (VObj props)))
                  = lookup key props).
  { simpl own_props. rewrite lookup_assign, (lookup_rev_NoDup _ _ Hnd).
    destruct (lookup key props); reflexivity. }
  simpl in Hkey.
  destruct (String.eqb_spec key "rarity") as [->|_]; [tauto|].
  destruct (String.eqb_spec key "stats") as [->|_]; [tauto|].
  destruct (String.eqb_spec key "subType") as [->|_]; [tauto|].
  destruct (String.eqb_spec key "tier") as [->|_]; [tauto|].
  destruct (String.eqb_spec key "type") as [->|_]; [tauto|].
  destruct (given (setName options)) as [s|].
  - destruct (String.eqb_spec key "setName") as [->|_];
      [now discriminate Hset|].
    now rewrite Hrest.
  - now rewrite Hrest.
Qed.

Lemma type_accepted (t : ItemType) :
  exists x, parse (ZNativeEnum (map type_name all_types)) (VStr (type_name t))
            = Some x.
Proof. destruct t; simpl; eauto. Qed.

Lemma tier_accepted (tier : LootTier) :
  exists x, parse (ZNativeEnum (map tier_name all_tiers)) (VStr (tier_name tier))
            = Some x.
Proof. destruct tier; simpl; eauto. Qed.

Lemma subType_accepted (s : string) :
  exists x,
    parse (ZUnion [ZNativeEnum WeaponSubType; ZNativeEnum ArmorSubType;
                   ZNativeEnum AccessorySubType; ZNativeEnum ConsumableSubType;
                   ZNativeEnum MaterialSubType; ZString]) (VStr s) = Some x.
Proof.
  rewrite parse_union.
  apply (parse_first_total _ (VStr s) _ ZString); [simpl; tauto|reflexivity].
Qed.

(** The schema accepts a roll: it is at most 100, for a Celestial item when
    the draw is at most [1 - 2 ^ -50]. *)
Lemma rarity_accepted (tier : LootTier) (x : Q) :
  0 <= x < 1 ->
  (tier = CELESTIAL -> x <= safe_draw) ->
  exists y,
    parse (ZNumber (Some 0) (Some 100)) (VNum (rolled tier x)) = Some y.
Proof.
  intros Hx Hsafe.
  destruct (roll_near_band tier x Hx) as ([Hlow Hhigh] & Hband).
  set (r := rolled tier x) in *. cbn [parse].
  assert (Hin : within (Some 0) (Some 100) r = true).
  { unfold within. apply andb_true_iff. split; apply Qle_bool_iff.
    - destruct tier; simpl in Hlow; lra.
    - destruct tier; try (simpl in Hhigh; lra).
      specialize (Hband (Hsafe eq_refl)). simpl in Hband. lra. }
  rewrite Hin. eauto.
Qed.

(** What the generator makes of a well-formed reply validates. *)
Lemma reconcile_succeeds (random : nat -> Q) (options : GenerationOptions)
  (t : ItemType) (g : value) (w : World) :
  (forall n, 0 <= random n < 1) ->
  (tier options = CELESTIAL -> forall n, random n <= safe_draw) ->
  itemType options = Some t ->
  well_formed_reply g ->
  exists item w', reconcile random options g w = (Returned item, w').
Proof.
  intros Hrandom Hsafe Htype
    (props & -> & Hnd & [name' Hname] & [description' Hdescription] & HsubType
     & (stats & Hstats & Hnumbers) & [properties Hproperties] & Hlore & HsetName).
  unfold reconcile, requested_type. rewrite Htype. unfold bind at 1.
  unfold ret at 1.
  assert (Hsub : exists s w1,
             (match given (subType options) with
              | Some s => ret (VStr s)
              | None =>
                  s <- prop (VObj props) "subType" ;;
                  if truthy s then ret s
                  else t0 <- ret (VStr (type_name t)) ;;
                       getRandomSubType random t0
              end) w = (Returned (VStr s), w1)).
  { destruct (given (subType options)) as [s|]; [eexists; eexists; reflexivity|].
    unfold prop, bind, ret.
    destruct (getRandomSubType_member random t w Hrandom) as (s' & w1 & Hs & _).
    destruct HsubType as [->|[s ->]].
    - cbn [truthy]. exists s', w1. exact Hs.
    - destruct (truthy (VStr s)).
      + exists s, w. reflexivity.
      + exists s', w1. exact Hs. }
  destruct Hsub as (sub & w1 & Hsub). unfold bind at 1. rewrite Hsub.
  unfold bind at 1. unfold prop at 1. unfold ret at 1. rewrite Hstats.
  unfold bind at 1. unfold ret at 1. unfold bind at 1.
  destruct (numbers_validate random stats t (tier options) w1 Hnumbers)
    as (stats' & validated & w2 & Htrans & Hvalid).
  rewrite Htrans. unfold bind at 1. unfold roll_rarity, bind, Math_random, ret.
  change (Math_floor (binary64 _))
    with (rolled (tier options) (random (draws w2))).
  unfold LootItemSchema_parse.
  match goal with
  | |- context [parse LootItemSchema (VObj ?structured')] =>
      destruct (object_accepts (shape_of LootItemSchema) structured') as [item Hitem]
  end.
  - destruct (get_structured options (VObj props) (VStr (type_name t))
                (VStr sub) stats'
                (VNum (rolled (tier options) (random (draws w2)))))
      as (Gtype & Gtier & Gsub & Gstats & Grarity & GsetName).
    repeat constructor; cbn [fst snd].
    + rewrite structured_keeps by (auto; simpl; intuition discriminate).
      rewrite Hname. simpl. eauto.
    + rewrite Gtype. apply type_accepted.
    + rewrite Gsub. apply subType_accepted.
    + rewrite Gtier. apply tier_accepted.
    + rewrite structured_keeps by (auto; simpl; intuition discriminate).
      rewrite Hdescription. simpl. eauto.
    + rewrite Gstats. eauto.
    + rewrite structured_keeps by (auto; simpl; intuition discriminate).
      eauto.
    + rewrite structured_keeps by (auto; simpl; intuition discriminate).
      now apply optional_string_accepts.
    + destruct (given (setName options)) as [s|] eqn:Hgiven.
      * rewrite (GsetName s eq_refl). simpl. eauto.
      * rewrite structured_keeps by (auto; simpl; intuition discriminate).
        now apply optional_string_accepts.
    + rewrite Grarity. apply rarity_accepted; [apply Hrandom|].
      intros Htier. now apply Hsafe.
  - change (ZObject (shape_of LootItemSchema)) with LootItemSchema in Hitem.
    rewrite Hitem. eexists. eexists. reflexivity.
Qed.

Lemma attempt_succeeds (random : nat -> Q) (chat : nat -> ChatRequest -> Reply)
  (options : GenerationOptions) (t : ItemType) (model' : string) (w : World) :
  (forall n, 0 <= random n < 1) ->
  (tier options = CELESTIAL -> forall n, random n <= safe_draw) ->
  itemType options = Some t ->
  (forall n request,
     exists g, chat n request = Content (Some g) /\ well_formed_reply g) ->
  exists item w', attempt random chat options model' w = (Returned item, w').
Proof.
  intros Hrandom Hsafe Htype Hchat. unfold attempt.
  assert (Hprompt : exists prompt w1,
             generatePrompt random options w = (Returned prompt, w1)).
  { unfold generatePrompt, bind. rewrite Htype.
    destruct (given (subType options)) as [s|]; [eexists; eexists; reflexivity|].
    simpl type_value.
    destruct (getRandomSubType_member random t w Hrandom) as (s & w1 & Hs & _).
    rewrite Hs. eexists. eexists. reflexivity. }
  destruct Hprompt as (prompt & w1 & Hprompt).
  unfold bind at 1. rewrite Hprompt. unfold bind at 1. unfold ollama_chat.
  destruct (Hchat (length (chats w1))
              {| chat_model := model'; chat_prompt := prompt |})
    as (g & Hg & Hwell).
  rewrite Hg. unfold bind, JSON_parse, ret.
  eapply reconcile_succeeds; eauto.
Qed.

Lemma loop_succeeds (random : nat -> Q) (chat : nat -> ChatRequest -> Reply)
  (options : GenerationOptions) (t : ItemType) (model' : string) :
  (forall n, 0 <= random n < 1) ->
  (tier options = CELESTIAL -> forall n, random n <= safe_draw) ->
  itemType options = Some t ->
  (forall n request,
     exists g, chat n request = Content (Some g) /\ well_formed_reply g) ->
  forall (n : nat) (i : Z) (items : list value) (w : World),
    let result := generateLoot_loop random chat options model' n i items w in
    length (fst result) = (length items + n)%nat
    /\ errors (snd result) = errors w.
Proof.
  intros Hrandom Hsafe Htype Hchat.
  induction n as [|n IH]; intros i items w; simpl.
  - split; [lia|reflexivity].
  - destruct (attempt_succeeds random chat options t model' w Hrandom Hsafe
                Htype Hchat)
      as (item & w' & Hattempt).
    pose proof (attempt_logs random chat options model' w) as (_ & Herrors & _).
    rewrite Hattempt in *. simpl in Herrors.
    destruct (IH (i + 1)%Z (items ++ [item])%list w') as [Hlen Herr].
    split; [rewrite Hlen, length_app; simpl; lia|congruence].
Qed.

Lemma generateLoot_succeeds (random : nat -> Q)
  (chat : nat -> ChatRequest -> Reply) (defaultModel : string)
  (options : GenerationOptions) (t : ItemType) (w : World) :
  (forall n, 0 <= random n < 1) ->
  (tier options = CELESTIAL -> forall n, random n <= safe_draw) ->
  itemType options = Some t ->
  (forall n request,
     exists g, chat n request = Content (Some g) /\ well_formed_reply g) ->
  length (fst (generateLoot random chat defaultModel options w))
  = Z.to_nat (count options)
  /\ errors (snd (generateLoot random chat defaultModel options w)) = errors w.
Proof.
  intros Hrandom Hsafe Htype Hchat. unfold generateLoot.
  destruct (loop_succeeds random chat options t
              (match given (model options) with
               | Some m => m | None => defaultModel end)
              Hrandom Hsafe Htype Hchat (Z.to_nat (count options)) 0 []
              (enter options w)) as [Hlen Herr].
  split; [exact Hlen|exact Herr].
Qed.

(** X22.  Well-formed replies become items.  When the request names an item
    type, the random source draws from the interval from 0 to 1, 1 excluded
    (for a Celestial request: up to [1 - 2 ^ -50], beyond which the rarity
    roll reaches 101 and the schema refuses the item), and the service
    answers every call with a well-formed reply, every iteration of
    [generateLoot] returns an item: the result has as many items as the
    request counts, and nothing is logged. *)
Theorem well_formed_replies_become_items
  (random : nat -> Q) (chat : nat -> ChatRequest -> Reply)
  (defaultModel : string) (options : GenerationOptions) (t : ItemType)
  (w : World) :
  (forall n, 0 <= random n < 1) ->
  (tier options = CELESTIAL -> forall n, random n <= safe_draw) ->
  itemType options = Some t ->
  (forall n request,
     exists g, chat n request = Content (Some g) /\ well_formed_reply g) ->
  let result := generateLoot random chat defaultModel options w in
  length (fst result) = Z.to_nat (count options)
  /\ errors (snd result) = errors w.
Proof.
  intros Hrandom Hsafe Htype Hchat result.
  exact (generateLoot_succeeds random chat defaultModel options t w
           Hrandom Hsafe Htype Hchat).
Qed.

Lemma flameheart_well_formed : well_formed_reply flameheart.
Proof.
  exists [("name", VStr "Flameheart"); ("type", VStr "Weapon");
          ("subType", VStr "Sword"); ("tier", VStr "Gold");
          ("description", VStr "A blade of living fire");
          ("stats", VObj [("damage", VNum 30)]); ("rarity", VNum 999)].
  split; [reflexivity|]. split.
  { apply distinct_keys_NoDup. reflexivity. }
  split; [eexists; reflexivity|]. split; [eexists; reflexivity|].
  split; [right; eexists; reflexivity|]. split.
  { eexists. split; [reflexivity|]. repeat constructor. simpl. eauto. }
  split; [eexists; reflexivity|]. split; left; reflexivity.
Qed.

Lemma half_is_safe : forall n, half n <= safe_draw.
Proof. intros n. vm_compute. discriminate. Qed.

Lemma well_formed_replies_become_items_witness :
  (forall n, 0 <= half n < 1)
  /\ (tier celestial_sword = CELESTIAL -> forall n, half n <= safe_draw)
  /\ itemType celestial_sword = Some WEAPON
  /\ (forall n request,
        exists g, always flameheart n request = Content (Some g)
                  /\ well_formed_reply g)
  /\ length (fst (generateLoot half (always flameheart) "llama3.1"
                    celestial_sword initial))
     = Z.to_nat (count celestial_sword)
  /\ errors (snd (generateLoot half (always flameheart) "llama3.1"
                    celestial_sword initial))
     = errors initial.
Proof.
  assert (Hchat : forall n request,
             exists g, always flameheart n request = Content (Some g)
                       /\ well_formed_reply g).
  { intros n request. exists flameheart. split; [reflexivity|].
    exact flameheart_well_formed. }
  split; [exact half_is_random|]. split; [intros _; exact half_is_safe|].
  split; [reflexivity|]. split; [exact Hchat|].
  exact (well_formed_replies_become_items half (always flameheart) "llama3.1"
           celestial_sword WEAPON initial half_is_random
           (fun _ => half_is_safe) eq_refl Hchat).
Defined.

(* ================================================================== *)
(** ** Sets of well-formed replies *)

Lemma set_loop_complete (random : nat -> Q)
  (chat : nat -> ChatRequest -> Reply) (defaultModel setName' : string)
  (tier' : LootTier) (model' : option string) :
  (forall n, 0 <= random n < 1) ->
  (tier' = CELESTIAL -> forall n, random n <= safe_draw) ->
  (forall n request,
     exists g, chat n request = Content (Some g) /\ well_formed_reply g) ->
  forall (itemTypes : list ItemType) (setItems : list value) (w : World),
    let result := generateLootSet_loop random chat defaultModel setName' tier'
                    itemTypes model' setItems w in
    map (fun item => get item "type") (fst result)
    = (map (fun item => get item "type") setItems
       ++ map (fun t => VStr (type_name t)) itemTypes)%list
    /\ errors (snd result) = errors w.
Proof.
  intros Hrandom Hsafe Hchat.
  induction itemTypes as [|t rest IH]; intros setItems w; simpl.
  - now rewrite app_nil_r.
  - fold (set_order setName' tier' model' t).
    pose proof (generateLoot_succeeds random chat defaultModel
                  (set_order setName' tier' model' t) t w Hrandom Hsafe
                  eq_refl Hchat)
      as [Hlen Herr].
    pose proof (generateLoot_item_fields random chat defaultModel
                  (set_order setName' tier' model' t) w) as Hfields.
    destruct (generateLoot random chat defaultModel
                (set_order setName' tier' model' t) w) as [items w1].
    simpl in Hlen, Herr, Hfields.
    destruct items as [|item [|item' more]]; try discriminate Hlen.
    inversion Hfields as [|? ? (_ & Htype & _) _]; subst.
    destruct (IH (setItems ++ [item])%list w1) as [Htypes Herrors].
    split; [|congruence].
    rewrite Htypes, map_app, <- app_assoc. simpl.
    now rewrite (Htype t eq_refl).
Qed.

(** X23.  A set of well-formed replies is complete.  When the random source
    draws from the interval from 0 to 1, 1 excluded (for a Celestial set: up
    to [1 - 2 ^ -50], beyond which the rarity roll reaches 101 and the
    schema refuses the item), and the service answers every call with a
    well-formed reply, [generateLootSet] returns one item for each item
    type of its list, in the order of the list, and logs nothing. *)
Theorem set_of_well_formed_replies_is_complete
  (random : nat -> Q) (chat : nat -> ChatRequest -> Reply)
  (defaultModel setName' : string) (tier' : LootTier)
  (itemTypes : list ItemType) (model' : option string) (w : World) :
  (forall n, 0 <= random n < 1) ->
  (tier' = CELESTIAL -> forall n, random n <= safe_draw) ->
  (forall n request,
     exists g, chat n request = Content (Some g) /\ well_formed_reply g) ->
  let result := generateLootSet random chat defaultModel setName' tier'
                  itemTypes model' w in
  map (fun item => get item "type") (fst result)
  = map (fun t => VStr (type_name t)) itemTypes
  /\ errors (snd result) = errors w.
Proof.
  intros Hrandom Hsafe Hchat result.
  exact (set_loop_complete random chat defaultModel setName' tier' model'
           Hrandom Hsafe Hchat itemTypes [] w).
Qed.

Lemma set_of_well_formed_replies_is_complete_witness :
  (forall n, 0 <= half n < 1)
  /\ (GOLD = CELESTIAL -> forall n, half n <= safe_draw)
  /\ (forall n request,
        exists g, always flameheart n request = Content (Some g)
                  /\ well_formed_reply g)
  /\ map (fun item => get item "setName") (fst ember_set)
     = [VStr "Ember"; VStr "Ember"; VStr "Ember"]
  /\ map (fun item => get item "type") (fst ember_set)
     = map (fun t => VStr (type_name t)) [WEAPON; ARMOR; ACCESSORY].
Proof.
  assert (Hchat : forall n request,
             exists g, always flameheart n request = Content (Some g)
                       /\ well_formed_reply g).
  { intros n request. exists flameheart. split; [reflexivity|].
    exact flameheart_well_formed. }
  split; [exact half_is_random|]. split; [intros _; exact half_is_safe|].
  split; [exact Hchat|]. split; [vm_compute; reflexivity|].
  exact (proj1 (set_of_well_formed_replies_is_complete half (always flameheart)
                  "llama3.1" "Ember" GOLD [WEAPON; ARMOR; ACCESSORY] None
                  initial half_is_random (fun _ => half_is_safe) Hchat)).
Defined.

(* ================================================================== *)
(** ** Saving an item again *)

Lemma sort_insert_first (compare : MagicalProperty -> MagicalProperty -> Z)
  (x : MagicalProperty) (l : list MagicalProperty) :
  HdRel (fun a b => (compare a b <= 0)%Z) x l -> sort_insert compare x l = x :: l.
Proof.
  intros [|y rest Hxy]; simpl; [reflexivity|].
  apply Z.leb_le in Hxy. now rewrite Hxy.
Qed.

Lemma Array_sort_sorted (compare : MagicalProperty -> MagicalProperty -> Z)
  (l : list MagicalProperty) :
  Sorted (fun a b => (compare a b <= 0)%Z) l -> Array_sort compare l = l.
Proof.
  induction 1 as [|x l Hl IH Hhd]; simpl; [reflexivity|].
  rewrite IH. now apply sort_insert_first.
Qed.

Lemma sorted_in_place_again (localeCompare : string -> string -> Z)
  (i : LootItem) :
  (forall a b, (localeCompare a b <= 0)%Z \/ (localeCompare b a <= 0)%Z) ->
  sorted_in_place localeCompare (sorted_in_place localeCompare i)
  = sorted_in_place localeCompare i
  /\ generateHash localeCompare (sorted_in_place localeCompare i)
     = generateHash localeCompare i.
Proof.
  intros Htotal.
  assert (Hsort : option_map (Array_sort (by_name localeCompare))
                    (option_map (Array_sort (by_name localeCompare))
                       (item_magicalProperties i))
                  = option_map (Array_sort (by_name localeCompare))
                      (item_magicalProperties i)).
  { destruct (item_magicalProperties i) as [l|]; [|reflexivity]. simpl. f_equal.
    apply Array_sort_sorted.
    apply (Array_sort_Sorted (by_name localeCompare)).
    intros a b. apply Htotal. }
  split.
  - unfold sorted_in_place.
    cbn [item_name item_type item_subType item_tier item_description
         item_stats item_magicalProperties item_lore item_setName item_rarity].
    now rewrite Hsort.
  - assert (Hcontent : hashed_content localeCompare
                         (sorted_in_place localeCompare i)
                       = hashed_content localeCompare i).
    { unfold hashed_content, sorted_in_place.
      cbn [item_name item_type item_subType item_tier item_description
           item_stats item_magicalProperties item_lore item_setName item_rarity].
      now rewrite Hsort. }
    unfold generateHash. now rewrite Hcontent.
Qed.

(** X24.  Saving an item again adds nothing.  Under a collation that
    compares any two names, saving the item [saveItem] has just saved, as
    the call left it, returns the same stored item, leaves the item as it is
    and leaves the store as it is, at whatever time, and whether or not
    names of its magical properties tie. *)
Theorem saving_again_adds_nothing
  (localeCompare : string -> string -> Z) (now1 now2 : string) (i : LootItem)
  (db : Store) :
  (forall a b, (localeCompare a b <= 0)%Z \/ (localeCompare b a <= 0)%Z) ->
  consistent db ->
  let first := saveItem localeCompare now1 i db in
  let again := saveItem localeCompare now2 (snd (fst first)) (snd first) in
  fst (fst first) <> None
  /\ fst (fst again) = fst (fst first)
  /\ snd (fst again) = snd (fst first)
  /\ snd again = snd first.
Proof.
  intros Htotal Hdb first again.
  destruct (saveItem_returns_row localeCompare now1 i db Hdb)
    as (row & Hrow & Hfound & _).
  fold first in Hrow, Hfound.
  destruct (sorted_in_place_again localeCompare i Htotal) as [Hsame Hhash].
  assert (Hitem : snd (fst first) = sorted_in_place localeCompare i).
  { unfold first, saveItem.
    destruct (getItemByHash (generateHash localeCompare i) db); reflexivity. }
  assert (Hagain : again = (Some row, sorted_in_place localeCompare i, snd first)).
  { unfold again, saveItem at 1. rewrite Hitem, Hhash, Hfound, Hsame.
    reflexivity. }
  rewrite Hagain, Hrow, Hitem. cbn [fst snd].
  split; [discriminate|]. repeat split.
Qed.

Lemma saving_again_adds_nothing_witness :
  (forall a b, (codeunit_compare a b <= 0)%Z \/ (codeunit_compare b a <= 0)%Z)
  /\ consistent empty_store
  /\ totalItems
       (snd (saveItem codeunit_compare "2024-01-02T00:00:00.000Z"
               (snd (fst (saveItem codeunit_compare "2024-01-01T00:00:00.000Z"
                            fire_first empty_store)))
               (snd (saveItem codeunit_compare "2024-01-01T00:00:00.000Z"
                       fire_first empty_store)))) = 1%Z
  /\ snd (saveItem codeunit_compare "2024-01-02T00:00:00.000Z"
            (snd (fst (saveItem codeunit_compare "2024-01-01T00:00:00.000Z"
                         fire_first empty_store)))
            (snd (saveItem codeunit_compare "2024-01-01T00:00:00.000Z"
                    fire_first empty_store)))
     = snd (saveItem codeunit_compare "2024-01-01T00:00:00.000Z"
              fire_first empty_store).
Proof.
  split; [exact codeunit_compare_total|].
  split; [exact empty_store_consistent|]. split; [vm_compute; reflexivity|].
  exact (proj2 (proj2 (proj2 (saving_again_adds_nothing codeunit_compare
                                "2024-01-01T00:00:00.000Z"
                                "2024-01-02T00:00:00.000Z" fire_first
                                empty_store codeunit_compare_total
                                empty_store_consistent)))).
Defined.

(* ================================================================== *)
(** ** What an item keeps of the reply *)

Lemma attempt_reply (random : nat -> Q) (chat : nat -> ChatRequest -> Reply)
  (options : GenerationOptions) (model' : string) (item : value) (w w' : World) :
  attempt random chat options model' w = (Returned item, w') ->
  exists n request g w1,
    chat n request = Content (Some g)
    /\ reconcile random options g w1 = (Returned item, w').
Proof.
  unfold attempt. intros H.
  apply bind_returned in H as (prompt & w1 & _ & H).
  apply bind_returned in H as (response & w2 & Hchat & H).
  apply bind_returned in H as (g & w3 & Hparse & H).
  unfold ollama_chat in Hchat.
  destruct (chat (length (chats w1)) _) as [|parsed] eqn:Hreply; [discriminate|].
  injection Hchat as <- _.
  destruct parsed as [g'|]; [|discriminate].
  unfold JSON_parse, ret in Hparse. injection Hparse as <- _.
  eauto 8.
Qed.

Lemma reconcile_keeps (random : nat -> Q) (options : GenerationOptions)
  (props : list (string * value)) (item : value) (w w' : World) :
  NoDup (map fst props) ->
  reconcile random options (VObj props) w = (Returned item, w') ->
  get item "name" = get (VObj props) "name"
  /\ get item "description" = get (VObj props) "description"
  /\ get item "lore" = get (VObj props) "lore"
  /\ (itemType options = None -> get item "type" = get (VObj props) "type")
  /\ (given (setName options) = None ->
      get item "setName" = get (VObj props) "setName").
Proof.
  intros Hnd Hrec.
  assert (Htype : itemType options = None ->
                  exists ty sub st rar,
                    parse LootItemSchema
                      (VObj (structured options (VObj props) ty sub st rar))
                    = Some item
                    /\ ty = get (VObj props) "type").
  { intros Hnone. unfold reconcile in Hrec.
    apply bind_returned in Hrec as (ty & w1 & Hty & H).
    apply bind_returned in H as (sub & w2 & _ & H).
    apply bind_returned in H as (ai & w3 & _ & H).
    apply bind_returned in H as (tyv & w4 & _ & H).
    apply bind_returned in H as (st & w5 & _ & H).
    apply bind_returned in H as (rar & w6 & _ & H).
    exists ty, sub, st, rar. split.
    - unfold LootItemSchema_parse in H.
      destruct (parse LootItemSchema _) as [item'|]; [|discriminate].
      unfold ret in H. now injection H as -> _.
    - unfold requested_type in Hty. rewrite Hnone in Hty.
      unfold prop, ret in Hty. now injection Hty as <- _. }
  destruct (reconcile_returned _ _ _ _ _ _ Hrec)
    as (ty & sub & st & rar & Hparse & _).
  assert (Hkept : forall key s,
             In (key, s) (shape_of LootItemSchema) -> transparent s = true ->
             ~ In key ["type"; "tier"; "subType"; "stats"; "rarity"] ->
             (key = "setName" -> given (setName options) = None) ->
             get item key = get (VObj props) key).
  { intros key s Hin Ht Hkey Hset.
    rewrite (validated_transparent _ _ _ _ Hparse Hin Ht).
    now apply structured_keeps. }
  split; [|split; [|split; [|split]]].
  - eapply Hkept; [field_of_item|reflexivity| |discriminate].
    simpl. intuition discriminate.
  - eapply Hkept; [field_of_item|reflexivity| |discriminate].
    simpl. intuition discriminate.
  - eapply Hkept; [field_of_item|reflexivity| |discriminate].
    simpl. intuition discriminate.
  - intros Hnone.
    destruct (Htype Hnone) as (ty' & sub' & st' & rar' & Hparse' & ->).
    rewrite (validated_transparent _ _ "type" _ Hparse'
               ltac:(field_of_item) eq_refl).
    destruct (get_structured options (VObj props) (get (VObj props) "type")
                sub' st' rar') as (Gtype & _).
    exact Gtype.
  - intros Hnone. eapply Hkept; [field_of_item|reflexivity| |auto].
    simpl. intuition discriminate.
Qed.

(** X25.  An item keeps what the reply says of it.  When the replies of the
    service are objects with distinct keys, every item [generateLoot]
    returns is made of one of them: its name, its description and its lore
    are those of the reply, and so are its type when the request names no
    item type and its set name when the request names no set. *)
Theorem items_keep_the_text_of_the_reply
  (random : nat -> Q) (chat : nat -> ChatRequest -> Reply)
  (defaultModel : string) (options : GenerationOptions) (w : World)
  (item : value) :
  (forall n request g,
     chat n request = Content (Some g) ->
     exists props, g = VObj props /\ NoDup (map fst props)) ->
  In item (fst (generateLoot random chat defaultModel options w)) ->
  exists n request g,
    chat n request = Content (Some g)
    /\ get item "name" = get g "name"
    /\ get item "description" = get g "description"
    /\ get item "lore" = get g "lore"
    /\ (itemType options = None -> get item "type" = get g "type")
    /\ (given (setName options) = None -> get item "setName" = get g "setName").
Proof.
  intros Hchat Hin.
  assert (Hall : Forall (fun item =>
                           exists n request g,
                             chat n request = Content (Some g)
                             /\ get item "name" = get g "name"
                             /\ get item "description" = get g "description"
                             /\ get item "lore" = get g "lore"
                             /\ (itemType options = None ->
                                 get item "type" = get g "type")
                             /\ (given (setName options) = None ->
                                 get item "setName" = get g "setName"))
                   (fst (generateLoot random chat defaultModel options w))).
  { unfold generateLoot. apply generateLoot_loop_Forall; [|constructor].
    intros item' w0 w1 Hattempt.
    apply attempt_reply in Hattempt as (n & request & g & w2 & Hreply & Hrec).
    destruct (Hchat n request g Hreply) as (props & -> & Hnd).
    exists n, request, (VObj props). split; [exact Hreply|].
    exact (reconcile_keeps random options props item' w2 w1 Hnd Hrec). }
  rewrite Forall_forall in Hall. exact (Hall item Hin).
Qed.

Lemma items_keep_the_text_of_the_reply_witness :
  (forall n request g,
     always flameheart n request = Content (Some g) ->
     exists props, g = VObj props /\ NoDup (map fst props))
  /\ In (first_item flameheart_run) (fst flameheart_run)
  /\ get (first_item flameheart_run) "name" = VStr "Flameheart"
  /\ exists n request g,
       always flameheart n request = Content (Some g)
       /\ get (first_item flameheart_run) "name" = get g "name".
Proof.
  assert (Hchat : forall n request g,
             always flameheart n request = Content (Some g) ->
             exists props, g = VObj props /\ NoDup (map fst props)).
  { intros n request g [= <-]. eexists. split; [reflexivity|].
    apply distinct_keys_NoDup. reflexivity. }
  assert (Hin : In (first_item flameheart_run) (fst flameheart_run))
    by (vm_compute; left; reflexivity).
  split; [exact Hchat|]. split; [exact Hin|].
  split; [vm_compute; reflexivity|].
  destruct (items_keep_the_text_of_the_reply half (always flameheart)
              "llama3.1" gold_sword initial _ Hchat Hin)
    as (n & request & g & Hreply & Hname & _).
  exists n, request, g. split; [exact Hreply|exact Hname].
Defined.

(* ================================================================== *)
(** ** The request's authority over the model's output *)

(** The stats a successful [reconcile] gives its item: the validated form
    of what [transformToStructuredStats] made of the stats of the reply,
    with the request's item type and tier. *)
Lemma reconcile_transforms (random : nat -> Q) (options : GenerationOptions)
  (g item : value) (w w' : World) (t : ItemType) :
  itemType options = Some t ->
  reconcile random options g w = (Returned item, w') ->
  exists w0 w1 stats',
    transformToStructuredStats random (get g "stats") (VStr (type_name t))
      (tier options) w0 = (Returned stats', w1)
    /\ parse ItemStatsSchema stats' = Some (get item "stats").
Proof.
  intros Htype H. unfold reconcile in H.
  apply bind_returned in H as (ty & w1 & _ & H).
  apply bind_returned in H as (sub & w2 & _ & H).
  apply bind_returned in H as (ai & w3 & Hai & H).
  apply bind_returned in H as (tyv & w4 & Htyv & H).
  apply bind_returned in H as (st & w5 & Hst & H).
  apply bind_returned in H as (rar & w6 & _ & H).
  assert (ai = get g "stats") as ->.
  { unfold prop, ret in Hai. destruct g; try discriminate; now injection Hai as <- _. }
  rewrite (requested_type_returned _ _ _ _ _ _ Htyv Htype) in Hst.
  exists w4, w5, st. split; [exact Hst|].
  unfold LootItemSchema_parse in H.
  destruct (parse LootItemSchema _) as [item'|] eqn:Hparse; [|discriminate].
  unfold ret in H. injection H as -> _.
  destruct (get_structured options g ty sub st rar) as (_ & _ & _ & Gst & _).
  rewrite <- Gst at 1. eapply validated_field; [exact Hparse|field_of_item].
Qed.

Lemma keys_lookup (k : string) (props : list (string * value)) :
  In k (map fst props) -> exists v, lookup k props = Some v.
Proof.
  induction props as [|[k' v] rest IH]; simpl; [contradiction|].
  destruct (String.eqb_spec k k') as [->|Hne]; [eauto|].
  intros [Heq|Hin]; [congruence|auto].
Qed.

Lemma lookup_rev_none (k : string) (props : list (string * value)) :
  lookup k props = None -> lookup k (rev props) = None.
Proof.
  induction props as [|[k' v] rest IH]; simpl; [reflexivity|].
  destruct (String.eqb_spec k k') as [->|Hne]; [discriminate|].
  intros H. rewrite lookup_app, (IH H). simpl.
  destruct (String.eqb_spec k k'); [contradiction|reflexivity].
Qed.

(** A stat the model did not supply is the baseline's. *)
Lemma unsupplied_stat (random : nat -> Q) (aiStats : value) (t : ItemType)
  (tier : LootTier) (w w' : World) (stats' : value) (k : string) :
  transformToStructuredStats random aiStats (VStr (type_name t)) tier w
  = (Returned stats', w') ->
  exists baselineStats,
    generateStatsForType random (VStr (type_name t)) tier w
    = (Returned baselineStats, w')
    /\ (In k (stat_names t) -> lookup k (own_props aiStats) = None ->
        stat t stats' k = get (VObj baselineStats) k).
Proof.
  unfold transformToStructuredStats. intros H.
  apply bind_returned in H as (baselineStats & w1 & Hbase & H).
  cbv zeta in H. unfold ret in H.
  match type of H with
  | (Returned ?made, _) = _ => set (structured' := made) in H
  end.
  injection H as <- <-. unfold structured'. clear structured'.
  exists baselineStats. split; [exact Hbase|].
  intros Hk Hnone. rewrite switch_type_name.
  assert (Hmerged : get (VObj (assign baselineStats (own_props aiStats))) k
                    = get (VObj baselineStats) k).
  { unfold get. now rewrite lookup_assign, (lookup_rev_none _ _ Hnone). }
  set (merged := get (VObj (assign baselineStats (own_props aiStats)))) in *.
  set (baseline := get (VObj baselineStats)) in *.
  destruct t; simpl in Hk;
    repeat (destruct Hk as [<-|Hk];
            [first [ exact Hmerged
                   | simpl; rewrite ?Hmerged; unfold js_or;
                     try destruct (truthy _); reflexivity ]|]);
    contradiction.
Qed.

(** The baseline of an item type and a tier has each stat of the item type
    that the tables of the tier give a range, within that range. *)
Lemma baseline_of_the_tier (random : nat -> Q) (t : ItemType)
  (tier : LootTier) (w w' : World) (baselineStats : list (string * value))
  (k : string) (r : Range) :
  (forall n, 0 <= random n < 1) ->
  generateStatsForType random (VStr (type_name t)) tier w
  = (Returned baselineStats, w') ->
  In k (stat_names t) ->
  baseline_range (Some t) tier k = Some r ->
  exists q, get (VObj baselineStats) k = VNum q /\ min r <= q <= max r.
Proof.
  intros Hrandom Hbase Hk Hrange.
  assert (Hwithin : Forall (within_its_range (Some t) tier) baselineStats).
  { assert (H : exists baselineStats' w'',
               generateStatsForType random (VStr (type_name t)) tier w
               = (Returned baselineStats', w'')
               /\ Forall (within_its_range (Some t) tier) baselineStats').
    { unfold generateStatsForType. rewrite switch_type_name.
      destruct t; destruct tier;
        apply literal_returns; repeat constructor; intros w0;
        simpl fst; simpl snd;
        first [ apply rounded_within; [apply Hrandom|reflexivity|reflexivity]
              | apply unrounded_within;
                [apply Hrandom|reflexivity|reflexivity] ]. }
    destruct H as (b & w'' & Hb & Hall). rewrite Hbase in Hb.
    now injection Hb as <- _. }
  assert (Hkey : In k (map fst baselineStats)).
  { unfold generateStatsForType in Hbase. rewrite switch_type_name in Hbase.
    destruct t; apply literal_keys in Hbase; rewrite Hbase; simpl in Hk;
      repeat (destruct Hk as [<-|Hk];
              [first [ solve [field_of_item]
                     | exfalso; destruct tier; discriminate Hrange ]|]);
      contradiction. }
  destruct (keys_lookup _ _ Hkey) as [v Hv].
  pose proof (lookup_In _ _ _ Hv) as Hin.
  rewrite Forall_forall in Hwithin.
  destruct (Hwithin _ Hin) as (r' & q & Hr' & Hq & Hbounds).
  cbn [fst snd] in Hr', Hq. rewrite Hrange in Hr'. injection Hr' as <-.
  exists q. unfold get. rewrite Hv. split; [exact Hq|exact Hbounds].
Qed.


